(** * On-call triage bot: a shallow embedding of the triage pipeline

    The development follows the Python sources under [app/]:
    - [models.py]  : [TriageRequest] and [combined_text];
    - [state.py]   : [IncidentRecord], [IncidentStore];
    - [repo.py]    : [RepoMatch], [RepoCommit], [RepoCache];
    - [tools.py]   : [ToolRegistry.search_code];
    - [analyzer.py]: the fallback keyword analyzer;
    - [triage.py]  : the orchestration keyword extractor, [ToolOrchestrator]
                     and [TriageService.run];
    - [main.py]    : message intake ([_plain_text], [_extract_command],
                     [_decode_url_component], [_extract_thread_reference]),
                     the thread-context loop and [_run_triage_and_reply].

    Python [str] values are modelled as [string]: a text is held in its
    UTF-8 form, a sequence of 8-bit codes.  The character classes used by the
    code ([str.lower], [str.isspace], the regular-expression classes) are
    written out for the ASCII range; codes above 127 belong to no class, and
    [lower] leaves them unchanged but for U+0130, the one character that
    [str.lower] makes longer.  Objects that Python shares by reference (incident records)
    live in an explicit store and are named by their location.  Everything
    the program obtains from outside (the search tools, git, the chat
    transport, the language-model CLI) is a field of an explicit world
    record, and exceptions are an explicit outcome. *)

From stdpp Require Import gmap strings list sorting.
From Stdlib Require Import Ascii ZArith Lia DecimalString.

Open Scope string_scope.
Open Scope nat_scope.
Open Scope list_scope.
Open Scope stdpp_scope.

(** ** Python primitives *)

Module Py.

Definition code (c : ascii) : nat := nat_of_ascii c.

Definition in_range (lo hi : nat) (c : ascii) : bool :=
  (lo <=? code c)%nat && (code c <=? hi)%nat.

Definition is_upper (c : ascii) : bool := in_range 65 90 c.
Definition is_lower (c : ascii) : bool := in_range 97 122 c.
Definition is_digit (c : ascii) : bool := in_range 48 57 c.
Definition is_alpha (c : ascii) : bool := is_upper c || is_lower c.

(** [str.isspace] and the regular-expression class [\s]: tab, line feed,
    vertical tab, form feed, carriage return, the separators 28..31, space. *)
Definition is_space (c : ascii) : bool := in_range 9 13 c || in_range 28 32 c.

(** The regular-expression class [\w]. *)
Definition is_word (c : ascii) : bool :=
  is_alpha c || is_digit c || Ascii.eqb c "_".

(** [[0-9A-Fa-f]]. *)
Definition is_hex (c : ascii) : bool :=
  is_digit c || in_range 65 70 c || in_range 97 102 c.

Definition lower_char (c : ascii) : ascii :=
  if is_upper c then ascii_of_nat (code c + 32) else c.

(** The two codes of U+0130, the capital I with a dot above, in UTF-8. *)
Definition is_dotted_I (c d : ascii) : bool :=
  (code c =? 196)%nat && (code d =? 176)%nat.

(** [str.lower].  U+0130 is the one character that [str.lower] makes
    longer: it becomes [i] followed by U+0307, the combining dot above
    (codes 204 and 135), one position more than it had.  Every other
    character keeps its length; the letters outside ASCII are left as they
    are. *)
Fixpoint lower (s : string) : string :=
  match s with
  | EmptyString => EmptyString
  | String c s' =>
      match s' with
      | String d s'' =>
          if is_dotted_I c d
          then String "i"
                 (String (ascii_of_nat 204)
                    (String (ascii_of_nat 135) (lower s'')))
          else String (lower_char c) (lower s')
      | EmptyString => String (lower_char c) EmptyString
      end
  end.

Definition is_empty (s : string) : bool :=
  match s with EmptyString => true | String _ _ => false end.

(** [x or d] for [x : Optional[str]]: [None] and the empty string are falsy. *)
Definition or_str (x : option string) (d : string) : string :=
  match x with
  | Some s => if is_empty s then d else s
  | None => d
  end.

(** Truthiness of an [Optional[str]]. *)
Definition truthy (x : option string) : bool :=
  match x with
  | Some s => negb (is_empty s)
  | None => false
  end.

(** [str(x)] of an [Optional[str]] inside an f-string. *)
Definition format_opt (x : option string) : string :=
  match x with Some s => s | None => "None" end.

(** [s[n:]] and [s[:n]] for [n >= 0]. *)
Fixpoint drop (n : nat) (s : string) : string :=
  match n, s with
  | O, _ => s
  | S n', String _ s' => drop n' s'
  | S _, EmptyString => EmptyString
  end.

Fixpoint take (n : nat) (s : string) : string :=
  match n, s with
  | S n', String c s' => String c (take n' s')
  | _, _ => EmptyString
  end.

(** [s[i:]] for any integer [i]: a negative index counts from the end. *)
Definition slice_from (i : Z) (s : string) : string :=
  if (0 <=? i)%Z then drop (Z.to_nat i) s
  else drop (Z.to_nat (Z.of_nat (String.length s) + i)) s.

(** [l[:n]] on a list for any integer [n]. *)
Definition list_slice_to {A} (n : Z) (l : list A) : list A :=
  if (0 <=? n)%Z then List.firstn (Z.to_nat n) l
  else List.firstn (Z.to_nat (Z.of_nat (List.length l) + n)) l.

(** [l[-n:]] on a list for [n > 0]: the last [n] elements. *)
Definition list_last_n {A} (n : nat) (l : list A) : list A :=
  List.skipn (List.length l - n) l.

(** [s.startswith(p)]. *)
Fixpoint startswith (p s : string) : bool :=
  match p, s with
  | EmptyString, _ => true
  | String a p', String b s' => Ascii.eqb a b && startswith p' s'
  | String _ _, EmptyString => false
  end.

(** [c in s] for a one-character string [c]. *)
Fixpoint contains_char (c : ascii) (s : string) : bool :=
  match s with
  | EmptyString => false
  | String d s' => Ascii.eqb c d || contains_char c s'
  end.

(** [s.find(needle, start)] with [s] given from [start] on: the index of the
    first occurrence at or after [start], or [-1]. *)
Fixpoint find_at (needle s : string) (start : nat) : Z :=
  if startswith needle s then Z.of_nat start
  else match s with
       | EmptyString => (-1)%Z
       | String _ s' => find_at needle s' (S start)
       end.

Definition find (needle s : string) (start : nat) : Z :=
  if (String.length s <? start)%nat then (-1)%Z
  else find_at needle (drop start s) start.

Fixpoint lstrip (s : string) : string :=
  match s with
  | EmptyString => EmptyString
  | String c s' => if is_space c then lstrip s' else s
  end.

Fixpoint rstrip (s : string) : string :=
  match s with
  | EmptyString => EmptyString
  | String c s' =>
      match rstrip s' with
      | EmptyString => if is_space c then EmptyString else String c EmptyString
      | r => String c r
      end
  end.

(** [str.strip()]. *)
Definition strip (s : string) : string := rstrip (lstrip s).

(** [str.split()] with no separator: the maximal runs of non-space
    characters.  [cur] is the run being read. *)
Fixpoint split_ws_from (cur : string) (s : string) : list string :=
  match s with
  | EmptyString => if is_empty cur then [] else [cur]
  | String c s' =>
      if is_space c
      then (if is_empty cur then split_ws_from EmptyString s'
            else cur :: split_ws_from EmptyString s')
      else split_ws_from (cur +:+ String c EmptyString) s'
  end.

Definition split_ws (s : string) : list string := split_ws_from EmptyString s.

(** [s.split(sep)] for a one-character separator: always at least one piece. *)
Fixpoint split_char_from (sep : ascii) (cur : string) (s : string) : list string :=
  match s with
  | EmptyString => [cur]
  | String c s' =>
      if Ascii.eqb c sep then cur :: split_char_from sep EmptyString s'
      else split_char_from sep (cur +:+ String c EmptyString) s'
  end.

Definition split_char (sep : ascii) (s : string) : list string :=
  split_char_from sep EmptyString s.

(** [sep.join(l)]. *)
Fixpoint join (sep : string) (l : list string) : string :=
  match l with
  | [] => EmptyString
  | [x] => x
  | x :: l' => x +:+ sep +:+ join sep l'
  end.

(** [re.findall] for a pattern [[cls]{n,}]: the maximal runs of characters of
    the class that are at least [n] long, left to right (a shorter run matches
    at none of its positions). [cur] is the run being read. *)
Fixpoint findall_runs_from (cls : ascii -> bool) (n : nat) (cur : string)
    (s : string) : list string :=
  match s with
  | EmptyString => if (n <=? String.length cur)%nat then [cur] else []
  | String c s' =>
      if cls c then findall_runs_from cls n (cur +:+ String c EmptyString) s'
      else if (n <=? String.length cur)%nat
           then cur :: findall_runs_from cls n EmptyString s'
           else findall_runs_from cls n EmptyString s'
  end.

Definition findall_runs (cls : ascii -> bool) (n : nat) (s : string)
    : list string :=
  findall_runs_from cls n EmptyString s.

(** The longest prefix of [s] whose characters satisfy [p], and the rest: what
    a greedy [[class]*] consumes. *)
Fixpoint span (p : ascii -> bool) (s : string) : string * string :=
  match s with
  | EmptyString => (EmptyString, EmptyString)
  | String c s' =>
      if p c then let '(a, b) := span p s' in (String c a, b)
      else (EmptyString, s)
  end.

(** [s.split(needle, 1)[0]]: the text before the first [needle]. *)
Fixpoint before_first (needle s : string) : string :=
  if startswith needle s then EmptyString
  else match s with
       | EmptyString => EmptyString
       | String c s' => String c (before_first needle s')
       end.

(** The value of a hexadecimal digit. *)
Definition hex_value (c : ascii) : nat :=
  if is_digit c then code c - 48
  else if in_range 65 70 c then code c - 55
  else code c - 87.

(** [str.isdigit] (on ASCII text): non-empty and all digits. *)
Fixpoint all_chars (p : ascii -> bool) (s : string) : bool :=
  match s with
  | EmptyString => true
  | String c s' => p c && all_chars p s'
  end.

Definition isdigit (s : string) : bool := negb (is_empty s) && all_chars is_digit s.

(** A Python [dict] with string keys, in insertion order: assigning to a
    present key keeps its position. *)
Fixpoint dict_set {V} (k : string) (v : V) (d : list (string * V))
    : list (string * V) :=
  match d with
  | [] => [(k, v)]
  | (k', v') :: d' =>
      if String.eqb k' k then (k, v) :: d' else (k', v') :: dict_set k v d'
  end.

Fixpoint dict_get {V} (k : string) (d : list (string * V)) : option V :=
  match d with
  | [] => None
  | (k', v') :: d' => if String.eqb k' k then Some v' else dict_get k d'
  end.

(** [str(n)] for an integer. *)
Definition str_of_Z (n : Z) : string :=
  DecimalString.NilZero.string_of_int (Z.to_int n).

(** [int(s)] where it matters to the program: a string of decimal digits;
    anything else is the [ValueError] case. *)
Definition int_of_digits (s : string) : option Z :=
  if isdigit s
  then option_map Z.of_uint (DecimalString.NilZero.uint_of_string s)
  else None.

End Py.

(** ** Outcomes

    A call of the program either returns a value or raises a Python
    [Exception]; [Raise exc] carries the text [str(exc)]. *)

Inductive outcome (A : Type) : Type :=
  | Ok (a : A)
  | Raise (exc : string).
Arguments Ok {A} a.
Arguments Raise {A} exc.

(** ** models.py *)

Definition NL : string := String (ascii_of_nat 10) EmptyString.
Definition TAB : string := String (ascii_of_nat 9) EmptyString.

Record TriageRequest := mkTriageRequest {
  sender_email : string;
  stream : option string;
  topic : option string;
  incident_text : string;
  thread_context : list string
}.

(** [TriageRequest.combined_text]. *)
Definition combined_text (self : TriageRequest) : string :=
  let lines :=
    [Py.strip (incident_text self)] ++
    match thread_context self with
    | [] => []
    | _ :: _ =>
        ("Thread context (latest "
           +:+ Py.str_of_Z (Z.of_nat (length (thread_context self)))
           +:+ " messages):")
        :: thread_context self
    end in
  Py.join NL (List.filter (fun line => negb (Py.is_empty line)) lines).

(** ** state.py *)

Module State.

Record IncidentRecord := mkIncidentRecord {
  rec_stream : option string;
  rec_topic : option string;
  last_summary : option string;
  last_request : option TriageRequest;
  history : list string
}.

(** [IncidentRecord.update]: overwrite the last summary and request, append
    the summary to the history. *)
Definition update (summary : string) (request : TriageRequest)
    (r : IncidentRecord) : IncidentRecord :=
  {| rec_stream := rec_stream r;
     rec_topic := rec_topic r;
     last_summary := Some summary;
     last_request := Some request;
     history := history r ++ [summary] |}.

(** A record is a Python object: the dictionary holds a reference to it.
    [objects] is the heap of records ever allocated by the store (a record is
    named by its index), [_incidents] the dictionary from key to reference. *)
Record IncidentStore := mkIncidentStore {
  _incidents : gmap string nat;
  objects : list IncidentRecord
}.

(** [IncidentStore.__init__]. *)
Definition empty_store : IncidentStore :=
  {| _incidents := ∅; objects := [] |}.

(** [IncidentStore._key]: [f"{stream or 'dm'}::{topic or 'general'}"]. *)
Definition _key (stream topic : option string) : string :=
  Py.or_str stream "dm" +:+ "::" +:+ Py.or_str topic "general".

(** [IncidentStore.get_or_create]: the reference of the record bound to the
    request's key, allocating a fresh record when the key is absent. *)
Definition get_or_create (request : TriageRequest) (st : IncidentStore)
    : nat * IncidentStore :=
  let key := _key (stream request) (topic request) in
  match _incidents st !! key with
  | Some r => (r, st)
  | None =>
      let r := length (objects st) in
      (r, {| _incidents := <[key := r]> (_incidents st);
             objects := objects st ++
               [ {| rec_stream := stream request;
                    rec_topic := topic request;
                    last_summary := None;
                    last_request := None;
                    history := [] |} ] |})
  end.

(** [IncidentStore.find]. *)
Definition find (stream topic : option string) (st : IncidentStore)
    : option nat :=
  _incidents st !! _key stream topic.

(** [incident.update(summary, request)] through a reference. *)
Definition update_at (r : nat) (summary : string) (request : TriageRequest)
    (st : IncidentStore) : IncidentStore :=
  {| _incidents := _incidents st;
     objects := alter (update summary request) r (objects st) |}.

(** How a store changes while the process runs: only through
    [get_or_create] and through [update] on a record. *)
Inductive evolves (st0 : IncidentStore) : IncidentStore -> Prop :=
  | evolves_refl : evolves st0 st0
  | evolves_get_or_create request st :
      evolves st0 st -> evolves st0 (get_or_create request st).2
  | evolves_update r summary request st :
      evolves st0 st -> evolves st0 (update_at r summary request st).

(** The stores the program can be in: it starts from the empty one. *)
Definition reachable (st : IncidentStore) : Prop := evolves empty_store st.

(** References in the dictionary point into the heap, and two keys never
    share a record. *)
Definition store_ok (st : IncidentStore) : Prop :=
  (forall k r, _incidents st !! k = Some r -> r < length (objects st)) /\
  (forall k1 k2 r, _incidents st !! k1 = Some r ->
                   _incidents st !! k2 = Some r -> k1 = k2).

End State.

(** ** repo.py *)

Module Repo.

Record RepoMatch := mkRepoMatch {
  path : string;
  line : Z;
  preview : string
}.

Record RepoCommit := mkRepoCommit {
  sha : string;
  author : string;
  date : string;
  message : string
}.

Record LocalRepo := mkLocalRepo {
  name : string;
  root : string
}.

(** What [subprocess.run] can do for the [rg] command line: complete, fail
    with [FileNotFoundError], or raise another exception. *)
Inductive RgRun : Type :=
  | RgCompleted (returncode : Z) (stdout : string)
  | RgFileNotFound
  | RgRaise (exc : string).

(** [subprocess.run(..., check=True)] for the [git log] command line. *)
Inductive GitRun : Type :=
  | GitCompleted (stdout : string)
  | GitCalledProcessError
  | GitRaise (exc : string).

(** Reading a file of a repository: absent, [OSError] on open or read, the
    lines ([readlines], each with its line end), or another exception. *)
Inductive FileRead : Type :=
  | FileMissing
  | FileOSError
  | FileLines (lines : list string)
  | FileRaise (exc : string).

(** The file system and the two command-line tools, as the repository code
    sees them. *)
Record Env := mkEnv {
  path_exists : string -> bool;
  RG_AVAILABLE : bool;
  (** [rg --no-heading --line-number --ignore-case -m limit keyword root] *)
  run_rg : Z -> string -> string -> RgRun;
  (** [Path(p).resolve()] *)
  resolve : string -> string;
  (** [git -C root log -n<limit> --pretty=... --date=short] *)
  run_git : string -> Z -> GitRun;
  (** the file [root / relative_path] *)
  open_file : string -> string -> FileRead
}.

Definition exists_ (env : Env) (self : LocalRepo) : bool :=
  path_exists env (root self).

Definition is_linebreak (c : ascii) : bool :=
  Py.in_range 10 13 c || Py.in_range 28 30 c.

(** [str.splitlines()]: [after_cr] tells that the previous character was a
    carriage return, whose following line feed belongs to the same break. *)
Fixpoint splitlines_from (after_cr : bool) (cur : string) (s : string)
    : list string :=
  match s with
  | EmptyString => if Py.is_empty cur then [] else [cur]
  | String c s' =>
      if Ascii.eqb c (ascii_of_nat 10) && after_cr
      then splitlines_from false cur s'
      else if is_linebreak c
           then cur :: splitlines_from (Ascii.eqb c (ascii_of_nat 13))
                         EmptyString s'
           else splitlines_from false (cur +:+ String c EmptyString) s'
  end.

Definition splitlines (s : string) : list string :=
  splitlines_from false EmptyString s.

(** The text before and after the first [sep] of [s], if there is one. *)
Fixpoint cut_at (sep : ascii) (s : string) : option (string * string) :=
  match s with
  | EmptyString => None
  | String c s' =>
      if Ascii.eqb c sep then Some (EmptyString, s')
      else match cut_at sep s' with
           | Some (a, b) => Some (String c a, b)
           | None => None
           end
  end.

(** [s.split(":", 2)]. *)
Definition split_colon_2 (s : string) : list string :=
  match cut_at ":" s with
  | None => [s]
  | Some (a, r) =>
      match cut_at ":" r with
      | None => [a; r]
      | Some (b, c) => [a; b; c]
      end
  end.

(** [str(full.relative_to(base))] when [full] lies below [base]. *)
Definition relative_to (base full : string) : option string :=
  if Py.startswith (base +:+ "/") full
  then Some (Py.drop (String.length base + 1) full)
  else None.

(** One line of ripgrep output, [path:line:text]. *)
Definition parse_rg_line (env : Env) (self : LocalRepo) (ln : string)
    : option RepoMatch :=
  match split_colon_2 ln with
  | [p; n; t] =>
      let rel_path :=
        match relative_to (root self) (resolve env p) with
        | Some r => r
        | None => p
        end in
      let line_no := match Py.int_of_digits n with Some k => k | None => 0%Z end in
      Some {| path := rel_path; line := line_no; preview := Py.strip t |}
  | _ => None
  end.

(** [LocalRepo.search]. *)
Definition search (env : Env) (self : LocalRepo) (keyword : string) (limit : Z)
    : outcome (list RepoMatch) :=
  if Py.is_empty keyword || negb (exists_ env self) then Ok []
  else if negb (RG_AVAILABLE env) then Ok []
  else match run_rg env limit keyword (root self) with
       | RgFileNotFound => Ok []
       | RgRaise exc => Raise exc
       | RgCompleted returncode stdout =>
           if negb ((returncode =? 0)%Z || (returncode =? 1)%Z) then Ok []
           else Ok (omap (parse_rg_line env self) (splitlines stdout))
       end.

(** One line of the [git log] output: four tab-separated fields. *)
Definition parse_commit_line (ln : string) : option RepoCommit :=
  match Py.split_char (ascii_of_nat 9) ln with
  | [a; b; c; d] => Some {| sha := a; author := b; date := c; message := d |}
  | _ => None
  end.

(** [LocalRepo.recent_commits]. *)
Definition recent_commits (env : Env) (self : LocalRepo) (limit : Z)
    : outcome (list RepoCommit) :=
  if negb (exists_ env self) then Ok []
  else match run_git env (root self) limit with
       | GitCalledProcessError => Ok []
       | GitRaise exc => Raise exc
       | GitCompleted stdout => Ok (omap parse_commit_line (splitlines stdout))
       end.

(** [LocalRepo.read_file]: lines [start..end] (1-based, inclusive). *)
Definition read_file (env : Env) (self : LocalRepo) (relative_path : string)
    (start_line end_line : Z) : outcome (option string) :=
  if negb (exists_ env self) then Ok None
  else match open_file env (root self) relative_path with
       | FileMissing => Ok None
       | FileOSError => Ok None
       | FileRaise exc => Raise exc
       | FileLines lines =>
           let start := Z.max 1 start_line in
           let end_ := Z.max start end_line in
           Ok (Some (Py.join EmptyString
                 (List.firstn (Z.to_nat end_ - Z.to_nat (start - 1))
                    (List.skipn (Z.to_nat (start - 1)) lines))))
       end.

(** [load_default_repos]: the two known repositories that exist below
    [base]. *)
Definition load_default_repos (env : Env) (base : string) : list LocalRepo :=
  List.filter (exists_ env)
    [ {| name := "adwyze"; root := base +:+ "/adwyze" |};
      {| name := "adwyze-frontend"; root := base +:+ "/adwyze-frontend" |} ].

(** [RepoCache]: a dictionary from (repo, keyword) to the stored matches. *)
Abbreviation RepoCache := (gmap (string * string) (list RepoMatch)).

Definition cache_search (repo keyword : string) (matches : list RepoMatch)
    (self : RepoCache) : RepoCache :=
  <[(repo, keyword) := matches]> self.

Definition get_search (repo keyword : string) (self : RepoCache)
    : option (list RepoMatch) :=
  self !! (repo, keyword).

End Repo.

(** ** sourcegraph_client.py *)

Module Sourcegraph.

Record SourcegraphMatch := mkSourcegraphMatch {
  repo : string;
  path : string;
  line : Z;
  preview : string
}.

(** The parts of the GraphQL answer the client reads. *)
Record LineMatch := mkLineMatch {
  lineNumber : Z;
  line_text : string
}.

Record SearchResult := mkSearchResult {
  typename : string;
  repository_name : string;
  file_path : string;
  lineMatches : list LineMatch
}.

(** What the POST of a search can do: fail with a [RequestException], raise
    something else (an answer that is not the expected JSON), or deliver the
    list of results. *)
Inductive Post : Type :=
  | PostRequestException
  | PostRaise (exc : string)
  | PostResults (results : list SearchResult).

(** The client after [__init__] ([url] already right-stripped of slashes),
    with the remote service it talks to: [post repo keyword directories
    limit]. *)
Record SourcegraphClient := mkSourcegraphClient {
  url : option string;
  token : option string;
  post : string -> string -> option (list string) -> Z -> Post
}.

Definition enabled (self : SourcegraphClient) : bool :=
  Py.truthy (url self) && Py.truthy (token self).

(** The inner loop of [search] over the line matches of one file: the
    matches so far, and whether the function returned from inside the loop. *)
Fixpoint add_line_matches (limit : Z) (repo_name file_path : string)
    (lms : list LineMatch) (matches : list SourcegraphMatch)
    : list SourcegraphMatch * bool :=
  match lms with
  | [] => (matches, false)
  | lm :: lms' =>
      let matches' :=
        matches ++ [ {| repo := repo_name; path := file_path;
                        line := lineNumber lm;
                        preview := Py.strip (line_text lm) |} ] in
      if (limit <=? Z.of_nat (length matches'))%Z then (matches', true)
      else add_line_matches limit repo_name file_path lms' matches'
  end.

(** The outer loop of [search] over the results. *)
Fixpoint add_results (limit : Z) (results : list SearchResult)
    (matches : list SourcegraphMatch) : list SourcegraphMatch :=
  match results with
  | [] => matches
  | result :: results' =>
      if negb (String.eqb (typename result) "FileMatch")
      then add_results limit results' matches
      else
        let '(matches', returned) :=
          add_line_matches limit (repository_name result) (file_path result)
            (lineMatches result) matches in
        if returned then matches' else add_results limit results' matches'
  end.

(** [SourcegraphClient.search]. *)
Definition search (self : SourcegraphClient) (repo keyword : string)
    (directories : option (list string)) (limit : Z)
    : outcome (list SourcegraphMatch) :=
  if negb (enabled self) || Py.is_empty keyword then Ok []
  else match post self repo keyword directories limit with
       | PostRequestException => Ok []
       | PostRaise exc => Raise exc
       | PostResults results => Ok (add_results limit results [])
       end.

End Sourcegraph.

(** ** tools.py *)

Module Tools.

Record ToolResult := mkToolResult {
  description : string;
  content : string
}.

(** The two search backends; the registry records each invocation. *)
Inductive BackendCall : Type :=
  | RemoteSearch (repo query : string)
  | LocalSearch (repo query : string).

(** The registry as built by [__init__]: the repositories and the optional
    remote client stay fixed. *)
Record ToolRegistry := mkToolRegistry {
  repos : list Repo.LocalRepo;
  sourcegraph : option Sourcegraph.SourcegraphClient
}.

(** What changes while the process runs: the search cache.  [calls] is the
    record of the backend invocations made so far, oldest first. *)
Record RegistryState := mkRegistryState {
  cache : Repo.RepoCache;
  calls : list BackendCall
}.

Definition initial_state : RegistryState := {| cache := ∅; calls := [] |}.

(** Code that reads and writes the registry state and may raise. *)
Definition M (A : Type) : Type := RegistryState -> outcome A * RegistryState.

Definition ret {A} (a : A) : M A := fun st => (Ok a, st).

Definition bind {A B} (m : M A) (k : A -> M B) : M B :=
  fun st =>
    match m st with
    | (Ok a, st') => k a st'
    | (Raise exc, st') => (Raise exc, st')
    end.

Definition lift {A} (o : outcome A) : M A := fun st => (o, st).

Definition get_cache : M Repo.RepoCache := fun st => (Ok (cache st), st).

Definition put_cache (c : Repo.RepoCache) : M unit :=
  fun st => (Ok tt, {| cache := c; calls := calls st |}).

Definition record_call (b : BackendCall) : M unit :=
  fun st => (Ok tt, {| cache := cache st; calls := calls st ++ [b] |}).

Declare Scope tools_scope.
Delimit Scope tools_scope with tools.
Notation "'do' x <- m ; k" := (bind m (fun x => k))
  (at level 10, x name, m at level 100, k at level 200) : tools_scope.
Notation "'do_' m ; k" := (bind m (fun _ => k))
  (at level 10, m at level 100, k at level 200) : tools_scope.
Open Scope tools_scope.

(** A [for] loop that threads an accumulator through a body in [M]. *)
Fixpoint for_each {A S} (l : list A) (body : A -> S -> M S) (acc : S) : M S :=
  match l with
  | [] => ret acc
  | x :: l' => do acc' <- body x acc; for_each l' body acc'
  end.

Definition repo_map (self : ToolRegistry) : list (string * Repo.LocalRepo) :=
  fold_left (fun d repo => Py.dict_set (Repo.name repo) repo d) (repos self) [].

(** [ToolRegistry._repo]. *)
Definition _repo (self : ToolRegistry) (name : string) : option Repo.LocalRepo :=
  Py.dict_get name (repo_map self).

(** [ToolRegistry.list_repos]. *)
Definition list_repos (self : ToolRegistry) : list string :=
  (repo_map self).*1.

Definition of_sourcegraph (m : Sourcegraph.SourcegraphMatch) : Repo.RepoMatch :=
  {| Repo.path := Sourcegraph.path m;
     Repo.line := Sourcegraph.line m;
     Repo.preview := Sourcegraph.preview m |}.

(** [ToolRegistry.search_code]. *)
Definition search_code (env : Repo.Env) (self : ToolRegistry)
    (repo_name query : string) (limit : Z) (directories : option (list string))
    : M (list Repo.RepoMatch) :=
  match _repo self repo_name with
  | None => ret []
  | Some repo =>
      do cached <- get_cache;
      match Repo.get_search repo_name query cached with
      | Some found => ret (Py.list_slice_to limit found)
      | None =>
          do matches <-
            match sourcegraph self with
            | Some sg =>
                if Sourcegraph.enabled sg then
                  do_ record_call (RemoteSearch repo_name query);
                  do sg_matches <- lift (Sourcegraph.search sg repo_name query
                                           directories limit);
                  ret (of_sourcegraph <$> sg_matches)
                else ret []
            | None => ret []
            end;
          do matches <-
            match matches with
            | [] =>
                do_ record_call (LocalSearch repo_name query);
                lift (Repo.search env repo query limit)
            | _ :: _ => ret matches
            end;
          do c <- get_cache;
          do_ put_cache (Repo.cache_search repo_name query matches c);
          ret matches
      end
  end.

(** [ToolRegistry.read_file]. *)
Definition read_file (env : Repo.Env) (self : ToolRegistry)
    (repo_name path : string) (start end_ : Z) : M (option string) :=
  match _repo self repo_name with
  | None => ret None
  | Some repo => lift (Repo.read_file env repo path start end_)
  end.

(** [ToolRegistry.recent_commits]. *)
Definition recent_commits (env : Repo.Env) (self : ToolRegistry)
    (repo_name : string) (limit : Z) : M (list Repo.RepoCommit) :=
  match _repo self repo_name with
  | None => ret []
  | Some repo => lift (Repo.recent_commits env repo limit)
  end.

End Tools.

(** Sequencing of outcomes without state. *)
Definition and_then {A B} (o : outcome A) (k : A -> outcome B) : outcome B :=
  match o with
  | Ok a => k a
  | Raise exc => Raise exc
  end.

(** [x in l] for a list of strings. *)
Definition in_list (x : string) (l : list string) : bool :=
  existsb (String.eqb x) l.

(** ** analyzer.py *)

Module Analyzer.

Definition STOP_WORDS : list string :=
  [ "the"; "this"; "that"; "have"; "error"; "issue"; "with"; "when"; "from";
    "user"; "users"; "request"; "requests"; "failed"; "failing"; "frontend";
    "backend"; "prod"; "production" ].

Record RepoFinding := mkRepoFinding {
  repo : string;
  matches : list Repo.RepoMatch;
  note : string
}.

(** The loop of [_extract_keywords]: [keywords] is the list built so far. *)
Fixpoint keyword_loop (limit : Z) (tokens : list string)
    (keywords : list string) : list string :=
  match tokens with
  | [] => keywords
  | token :: tokens' =>
      if in_list token STOP_WORDS then keyword_loop limit tokens' keywords
      else if in_list token keywords then keyword_loop limit tokens' keywords
      else
        let keywords' := keywords ++ [token] in
        if (limit <=? Z.of_nat (length keywords'))%Z then keywords'
        else keyword_loop limit tokens' keywords'
  end.

(** The tokens of [re.findall(r"[a-zA-Z]{4,}", text.lower())]. *)
Definition tokens (text : string) : list string :=
  Py.findall_runs Py.is_alpha 4 (Py.lower text).

(** [_extract_keywords(text, limit)]. *)
Definition _extract_keywords (text : string) (limit : Z) : list string :=
  keyword_loop limit (tokens text) [].

Definition DEFAULT_LIMIT : Z := 4.

(** [BasicAnalyzer]: the repositories found by [load_default_repos]. *)
Record BasicAnalyzer := mkBasicAnalyzer {
  repos : list Repo.LocalRepo
}.

Definition new (env : Repo.Env) (base_dir : string) : BasicAnalyzer :=
  {| repos := Repo.load_default_repos env base_dir |}.

Definition NO_REPOS : string :=
  "I could not locate the local repos; please ensure they exist next to this project.".

(** The separator written between a match position and its preview: the
    eight bytes the source file holds there. *)
Definition SEP : string :=
  String.string_of_list_ascii
    (ascii_of_nat <$> [195; 162; 226; 130; 172; 226; 128; 157]).

(** The keyword loop of [analyze] for one repository, with its [break]. *)
Fixpoint search_keywords (env : Repo.Env) (repo : Repo.LocalRepo)
    (keywords : list string) (matches : list Repo.RepoMatch)
    : outcome (list Repo.RepoMatch) :=
  match keywords with
  | [] => Ok matches
  | keyword :: keywords' =>
      and_then (Repo.search env repo keyword 1) (fun found =>
        let matches' := matches ++ found in
        if 3 <=? length matches' then Ok matches'
        else search_keywords env repo keywords' matches')
  end.

(** The body of the loop over the repositories. *)
Definition inspect_repo (env : Repo.Env) (keywords : list string)
    (repo : Repo.LocalRepo) : outcome RepoFinding :=
  and_then (search_keywords env repo keywords []) (fun matches =>
    and_then
      match matches with
      | [] =>
          and_then (Repo.recent_commits env repo 1) (fun commits =>
            match commits with
            | last :: _ =>
                Ok ("latest commit " +:+ Repo.sha last +:+ " by "
                      +:+ Repo.author last +:+ " on " +:+ Repo.date last
                      +:+ ": " +:+ Repo.message last)
            | [] => Ok "no matches and unable to read recent commits"
            end)
      | _ :: _ => Ok ""
      end
      (fun note =>
         Ok {| repo := Repo.name repo; matches := matches; note := note |}))%string.

Fixpoint inspect_repos (env : Repo.Env) (keywords : list string)
    (repos : list Repo.LocalRepo) : outcome (list RepoFinding) :=
  match repos with
  | [] => Ok []
  | repo :: repos' =>
      and_then (inspect_repo env keywords repo) (fun finding =>
        and_then (inspect_repos env keywords repos') (fun findings =>
          Ok (finding :: findings)))
  end.

Definition match_line (m : Repo.RepoMatch) : string :=
  "  - " +:+ Repo.path m +:+ ":" +:+ Py.str_of_Z (Repo.line m) +:+ " "
    +:+ SEP +:+ " " +:+ Py.take 160 (Repo.preview m).

Definition finding_lines (finding : RepoFinding) : list string :=
  [("* Repo `" +:+ repo finding +:+ "`")%string]
    ++ (match_line <$> matches finding)
    ++ (if Py.is_empty (note finding) then []
        else [("  - " +:+ note finding)%string]).

(** The report of [analyze] once the findings are known. *)
Definition report (keywords : list string) (findings : list RepoFinding)
    : string :=
  let lines :=
    ["Automated triage check"]
      ++ [match keywords with
          | [] => "Keywords: (none detected)"
          | _ :: _ => ("Keywords noticed: " +:+ Py.join ", " keywords)%string
          end]
      ++ concat (finding_lines <$> findings)
      ++ [""; "_reply with `next steps` for additional guidance_"] in
  Py.join NL lines.

(** [BasicAnalyzer.analyze]. *)
Definition analyze (env : Repo.Env) (self : BasicAnalyzer)
    (incident_text : string) : outcome string :=
  let keywords := _extract_keywords incident_text DEFAULT_LIMIT in
  match repos self with
  | [] => Ok NO_REPOS
  | _ :: _ =>
      and_then (inspect_repos env keywords (repos self)) (fun findings =>
        Ok (report keywords findings))
  end.

End Analyzer.

(** ** llm.py *)

Module LLM.

(** What running [codex exec] can do: [subprocess.run] raises (caught by
    [run]), the process completes with a return code and the text it left in
    the output file, or the temporary file cannot be made or read (not
    caught). *)
Inductive Exec : Type :=
  | ExecFailed
  | ExecCompleted (returncode : Z) (last_message : string)
  | ExecRaise (exc : string).

(** The agent after [__init__], with the CLI it drives. *)
Record LLMAgent := mkLLMAgent {
  cli_path : option string;
  node_path : option string;
  logged_in : bool;
  model : option string;
  exec : option string -> string -> Exec
}.

Definition enabled (self : LLMAgent) : bool :=
  Py.truthy (cli_path self) && Py.truthy (node_path self) && logged_in self.

Definition SYSTEM_PROMPT : string :=
  "You are an engineering on-call assistant responding over Zulip. Use the evidence below to propose the most likely root cause, explicitly call out unknowns, and ask for clarification if critical data is missing.".

Definition FORMAT_PROMPT : string :=
  "Respond in Markdown with sections: **Finding** (state HIGH/MED/LOW confidence and justify it), **Evidence** (cite repo paths or runbooks), **Next steps**, and **Open questions** when you need more info. If confidence would be LOW, prefer to explain what additional data is needed before making a definitive claim.".

Definition prompt (request : TriageRequest)
    (tool_results : list Tools.ToolResult) : string :=
  let prompt_lines :=
    [SYSTEM_PROMPT; ""; "Incident:"; incident_text request; ""]
      ++ match thread_context request with
         | [] => []
         | _ :: _ =>
             ["Thread context:"]
               ++ Py.list_last_n 8 (thread_context request) ++ [""]
         end
      ++ match tool_results with
         | [] => []
         | _ :: _ =>
             ["Evidence from tools:"]
               ++ ((fun result =>
                      Tools.description result +:+ NL
                        +:+ Tools.content result +:+ NL)%string
                     <$> Py.list_slice_to 5 tool_results)
         end
      ++ [FORMAT_PROMPT] in
  Py.join NL prompt_lines.

(** [LLMAgent.run]. *)
Definition run (self : LLMAgent) (request : TriageRequest)
    (tool_results : list Tools.ToolResult) : outcome (option string) :=
  if negb (enabled self) then Ok None
  else match exec self (model self) (prompt request tool_results) with
       | ExecFailed => Ok None
       | ExecRaise exc => Raise exc
       | ExecCompleted returncode last_message =>
           if negb (returncode =? 0)%Z then Ok None
           else let content := Py.strip last_message in
                Ok (if Py.is_empty content then None else Some content)
       end.

End LLM.

(** ** triage.py *)

Module Triage.

Definition STOP_WORDS : list string :=
  [ "probabl"; "triage"; "issue"; "issues"; "please"; "thanks"; "thank";
    "hello"; "hey"; "team"; "update"; "updated"; "cc"; "clarisights" ].

(** The default of [TRIAGE_KEYWORD_LIMIT]. *)
Definition DEFAULT_KEYWORD_LIMIT : Z := 12.

(** The class [[a-z0-9_-]] of [TOKEN_RE]. *)
Definition is_token_char (c : ascii) : bool :=
  Py.is_lower c || Py.is_digit c || Ascii.eqb c "_" || Ascii.eqb c "-".

(** [TOKEN_RE.findall(text.lower())]. *)
Definition tokens (text : string) : list string :=
  Py.findall_runs is_token_char 2 (Py.lower text).

(** [collections.Counter] as the dictionary it is: keys in insertion order. *)
Definition Counter : Type := list (string * nat).

(** [counts[token] += 1]. *)
Fixpoint incr (token : string) (counts : Counter) : Counter :=
  match counts with
  | [] => [(token, 1)]
  | (k, n) :: counts' =>
      if String.eqb k token then (k, S n) :: counts'
      else (k, n) :: incr token counts'
  end.

(** [sorted(items, key=itemgetter(1), reverse=True)]: a stable sort, so an
    item goes in front of the first item whose count is not larger. *)
Fixpoint insert_item (x : string * nat) (l : list (string * nat))
    : list (string * nat) :=
  match l with
  | [] => [x]
  | y :: l' => if x.2 <? y.2 then y :: insert_item x l' else x :: l
  end.

Definition sorted_desc (items : list (string * nat)) : list (string * nat) :=
  foldr insert_item [] items.

(** [Counter.most_common(n)] for an integer [n]. *)
Definition most_common (n : Z) (counts : Counter) : list (string * nat) :=
  List.firstn (Z.to_nat n) (sorted_desc counts).

(** The body of the loop of [_extract_keywords]. *)
Definition count_token (counts : Counter) (token : string) : Counter :=
  if in_list token STOP_WORDS then counts
  else if Py.isdigit token then counts
  else incr token counts.

(** [_extract_keywords(text)], given the value of [KEYWORD_LIMIT]. *)
Definition _extract_keywords (KEYWORD_LIMIT : Z) (text : string) : list string :=
  let counts := fold_left count_token (tokens text) [] in
  (most_common KEYWORD_LIMIT counts).*1.

Record ToolOrchestrator := mkToolOrchestrator {
  registry : Tools.ToolRegistry;
  include_commits : bool
}.

Record Hints := mkHints {
  hint_repos : list string;
  runbook : option string;
  directories : list (string * list string)
}.

(** [ToolOrchestrator._resolve_service_hints]. *)
Definition _resolve_service_hints (self : ToolOrchestrator)
    (keywords : list string) (topic : option string) : Hints :=
  let repos := Tools.list_repos (registry self) in
  {| hint_repos := repos;
     runbook := None;
     directories :=
       fold_left (fun d repo =>
                    match Py.dict_get repo d with
                    | Some _ => d
                    | None => Py.dict_set repo [] d
                    end) repos [] |}.

(** The directory of a match path: its first two segments, or the only one. *)
Definition directory_of (path : string) : string :=
  match Py.split_char "/" path with
  | a :: b :: _ => (a +:+ "/" +:+ b)%string
  | [a] => a
  | [] => ""
  end.

Section WithEnv.

Variable env : Repo.Env.
Variable KEYWORD_LIMIT : Z.

Import Tools.

(** [ToolOrchestrator._dynamic_directories]. *)
Definition _dynamic_directories (self : ToolOrchestrator) (repo : string)
    (keywords : list string) (max_dirs : Z) : M (list string) :=
  do counter <-
    for_each keywords (fun keyword (counter : Counter) =>
      do matches <- search_code env (registry self) repo keyword 3 None;
      ret (fold_left (fun (counter : Counter) (m : Repo.RepoMatch) =>
                        let directory := directory_of (Repo.path m) in
                        if Py.is_empty directory then counter
                        else incr directory counter)
                     matches counter)) [];
  ret (List.filter (fun directory => negb (Py.is_empty directory))
         (most_common max_dirs counter).*1).

(** The loop of [gather] over the matches of one search. *)
Definition add_matches (self : ToolOrchestrator) (repo : string)
    (allowed_dirs : list string) (matches : list Repo.RepoMatch)
    (findings : list ToolResult) : M (list ToolResult) :=
  for_each matches (fun (m : Repo.RepoMatch) findings =>
    if negb (match allowed_dirs with [] => true | _ :: _ => false end)
       && negb (existsb (fun prefix => Py.startswith prefix (Repo.path m))
                  allowed_dirs)
    then ret findings
    else
      do snippet <- read_file env (registry self) repo (Repo.path m)
                      (Repo.line m - 3) (Repo.line m + 3);
      let content := if Py.truthy snippet then Py.format_opt snippet
                     else Repo.preview m in
      ret (findings ++
             [ {| description :=
                    (repo +:+ ":" +:+ Repo.path m +:+ ":"
                       +:+ Py.str_of_Z (Repo.line m))%string;
                  content := Py.strip content |} ])) findings.

(** The body of the loop of [gather] over the repositories. *)
Definition gather_repo (self : ToolOrchestrator) (hints : Hints)
    (keywords : list string) (repo : string) (findings : list ToolResult)
    : M (list ToolResult) :=
  let allowed_dirs :=
    match Py.dict_get repo (directories hints) with
    | Some dirs => dirs
    | None => []
    end in
  do allowed_dirs <-
    match allowed_dirs with
    | [] => _dynamic_directories self repo keywords 5
    | _ :: _ => ret allowed_dirs
    end;
  do findings <-
    for_each (match keywords with [] => ["incident"] | _ :: _ => keywords end)
      (fun keyword findings =>
         do matches <- search_code env (registry self) repo keyword 2
                         (match allowed_dirs with
                          | [] => None
                          | _ :: _ => Some allowed_dirs
                          end);
         add_matches self repo allowed_dirs matches findings) findings;
  if include_commits self then
    do commits <- recent_commits env (registry self) repo 2;
    ret (findings ++
           ((fun commit =>
               {| description :=
                    (repo +:+ " recent commit " +:+ Repo.sha commit)%string;
                  content :=
                    (Repo.date commit +:+ " " +:+ Repo.author commit +:+ ": "
                       +:+ Repo.message commit)%string |}) <$> commits))
  else ret findings.

(** [ToolOrchestrator.gather]. *)
Definition gather (self : ToolOrchestrator) (request : TriageRequest)
    : M (list ToolResult) :=
  let aggregate_text :=
    Py.join " "
      ([incident_text request] ++ thread_context request
         ++ (if Py.truthy (topic request)
             then [Py.format_opt (topic request)] else [])) in
  let keywords := _extract_keywords KEYWORD_LIMIT aggregate_text in
  let hints := _resolve_service_hints self keywords (topic request) in
  do findings <- for_each (hint_repos hints)
                   (gather_repo self hints keywords) [];
  ret (findings ++
         match runbook hints with
         | Some book =>
             if Py.is_empty book then []
             else [ {| description := "Runbook hint";
                       content := ("Consult runbook: " +:+ book)%string |} ]
         | None => []
         end).

Record TriageService := mkTriageService {
  analyzer : Analyzer.BasicAnalyzer;
  llm_agent : LLM.LLMAgent;
  orchestrator : ToolOrchestrator
}.

(** [TriageService.run]. *)
Definition run (self : TriageService) (request : TriageRequest) : M string :=
  do tool_results <- gather (orchestrator self) request;
  do answer <-
    (if LLM.enabled (llm_agent self) then
       do llm_summary <- lift (LLM.run (llm_agent self) request tool_results);
       ret (if Py.truthy llm_summary then llm_summary else None)
     else ret None);
  match answer with
  | Some llm_summary => ret llm_summary
  | None =>
      let combined := combined_text request in
      lift (Analyzer.analyze env (analyzer self) combined)
  end.

End WithEnv.

End Triage.

(** ** zulip_client.py *)

Module Zulip.

(** A message of a thread, as [get_messages] delivers it: the keys the bot
    reads, each possibly absent. *)
Record ThreadMessage := mkThreadMessage {
  tm_content : option string;
  tm_sender_full_name : option string;
  tm_sender_email : option string
}.

(** The answer of [get_messages]. *)
Record GetMessages := mkGetMessages {
  gm_result : option string;
  gm_messages : option (list ThreadMessage)
}.

Record Recipient := mkRecipient {
  email : string
}.

(** [display_recipient]: the channel name of a channel message, the list of
    users of a private one. *)
Inductive DisplayRecipient : Type :=
  | ToChannel (name : string)
  | ToUsers (users : list Recipient).

(** An inbound message event, with the keys [send_reply] reads (the chat
    service sets them on every message event). *)
Record Message := mkMessage {
  type : string;
  display_recipient : DisplayRecipient;
  subject : string;
  msg_sender_email : option string;
  msg_content : string
}.

Inductive Destination : Type :=
  | DestChannel (to : DisplayRecipient) (topic : string)
  | DestUsers (emails : list (option string)).

(** A request handed to [send_message]. *)
Record SendRequest := mkSendRequest {
  req_type : string;
  req_content : string;
  req_to : Destination
}.

Record Response := mkResponse {
  result : option string
}.

(** The chat service behind the client, and the bot's own address.  Like the
    client library, [send_message] reports a failure in the response it
    returns. *)
Record ZulipBotClient := mkZulipBotClient {
  zulip_email : string;
  (** [get_messages] for the narrow [stream], [topic], with [num_before] *)
  get_messages : string -> string -> Z -> GetMessages;
  send_message : SendRequest -> Response
}.

(** [ZulipBotClient.fetch_thread_messages]. *)
Definition fetch_thread_messages (self : ZulipBotClient)
    (stream_name topic : string) (num_before : Z) : list ThreadMessage :=
  let result := get_messages self stream_name topic (Z.max 1 num_before) in
  if negb (bool_decide (gm_result result = Some "success")) then []
  else match gm_messages result with
       | Some messages => messages
       | None => []
       end.

(** The request [send_reply] builds. *)
Definition reply_request (self : ZulipBotClient) (message : Message)
    (content : string) : SendRequest :=
  let msg_type := type message in
  {| req_type := msg_type;
     req_content := content;
     req_to :=
       if String.eqb msg_type "stream"
       then DestChannel (display_recipient message) (subject message)
       else
         let emails :=
           match display_recipient message with
           | ToUsers recipients =>
               (fun r => Some (email r)) <$>
                 List.filter
                   (fun r => negb (String.eqb (email r) (zulip_email self)))
                   recipients
           | ToChannel _ => [msg_sender_email message]
           end in
         DestUsers match emails with
                   | [] => [msg_sender_email message]
                   | _ :: _ => emails
                   end |}.

(** [ZulipBotClient.send_reply]: the request sent and the response. *)
Definition send_reply (self : ZulipBotClient) (message : Message)
    (content : string) : SendRequest * Response :=
  let request := reply_request self message content in
  (request, send_message self request).

End Zulip.

(** ** main.py *)

Module Main.

Section Codecs.

(** Two library functions are taken as given where they leave ASCII:
    [charref_sub] is [html.unescape] on a text that holds an ampersand (the
    replacement of character references), [decode_utf8] is
    [bytes.decode("utf-8", "replace")] on bytes that are not all ASCII. *)
Variable charref_sub : string -> string.
Variable decode_utf8 : string -> string.

(** [html.unescape]: a text without ampersand is returned as it is. *)
Definition unescape (s : string) : string :=
  if Py.contains_char "&" s then charref_sub s else s.

(** [str] text starts a tag body: one character or more other than [>], and
    then [>]. *)
Definition tag_follows (s : string) : bool :=
  match s with
  | EmptyString => false
  | String c _ => negb (Ascii.eqb c ">") && Py.contains_char ">" s
  end.

(** [re.sub(r"<[^>]+>", " ", text)], read left to right: [inside] tells that
    the characters belong to a tag that will be closed. *)
Fixpoint sub_tags (inside : bool) (s : string) : string :=
  match s with
  | EmptyString => EmptyString
  | String c s' =>
      if inside then
        if Ascii.eqb c ">" then String " " (sub_tags false s')
        else sub_tags true s'
      else if Ascii.eqb c "<" && tag_follows s' then sub_tags true s'
           else String c (sub_tags false s')
  end.

(** [_plain_text]. *)
Definition _plain_text (content : option string) : string :=
  let text := unescape (Py.or_str content "") in
  let text := sub_tags false text in
  Py.join " " (Py.split_ws text).

(** [re.sub(r"\.([0-9A-Fa-f]{2})", repl, encoded)] with [repl] writing a
    percent sign in front of the two digits. *)
Fixpoint dot_to_percent (s : string) : string :=
  match s with
  | EmptyString => EmptyString
  | String c s' =>
      if Ascii.eqb c "." then
        match s' with
        | String h1 (String h2 s'') =>
            if Py.is_hex h1 && Py.is_hex h2
            then String "%" (String h1 (String h2 (dot_to_percent s'')))
            else String c (dot_to_percent s')
        | _ => String c (dot_to_percent s')
        end
      else String c (dot_to_percent s')
  end.

(** [urllib.parse.unquote_to_bytes]: a percent sign with two hexadecimal
    digits after it becomes the byte they write; any other stays. *)
Fixpoint unquote_to_bytes (s : string) : string :=
  match s with
  | EmptyString => EmptyString
  | String c s' =>
      if Ascii.eqb c "%" then
        match s' with
        | String h1 (String h2 s'') =>
            if Py.is_hex h1 && Py.is_hex h2
            then String (ascii_of_nat (16 * Py.hex_value h1 + Py.hex_value h2))
                   (unquote_to_bytes s'')
            else String c (unquote_to_bytes s')
        | _ => String c (unquote_to_bytes s')
        end
      else String c (unquote_to_bytes s')
  end.

(** [bytes.decode("utf-8", "replace")]. *)
Definition decode (bytes : string) : string :=
  if Py.all_chars (Py.in_range 0 127) bytes then bytes else decode_utf8 bytes.

(** [urllib.parse.unquote]. *)
Definition unquote (s : string) : string :=
  if Py.contains_char "%" s then decode (unquote_to_bytes s) else s.

(** [_decode_url_component]. *)
Definition _decode_url_component (encoded : string) : string :=
  let patched := dot_to_percent encoded in
  unquote patched.

(** [s] starts with [p], letter case apart ([p] is in lower case). *)
Definition istartswith (p s : string) : bool :=
  Py.startswith p (Py.lower (Py.take (String.length p) s)).

(** [THREAD_LINK_RE] at the start of [s]: the groups [stream_slug] and
    [topic].  Every class of the pattern excludes the character that must
    follow it, so the greedy reading is the only one. *)
Definition match_thread_link (s : string) : option (string * string) :=
  if istartswith "#narrow/channel/" s then
    let '(stream_id, s) := Py.span Py.is_digit (Py.drop 16 s) in
    if Py.is_empty stream_id then None
    else match s with
         | String "-" s =>
             let '(stream_slug, s) :=
               Py.span (fun c => negb (Ascii.eqb c "/")) s in
             if Py.is_empty stream_slug then None
             else if istartswith "/topic/" s then
               let '(topic, _) :=
                 Py.span (fun c => negb (Py.is_space c || Ascii.eqb c ")"))
                   (Py.drop 7 s) in
               if Py.is_empty topic then None else Some (stream_slug, topic)
             else None
         | _ => None
         end
  else None.

(** [THREAD_LABEL_RE] at the start of [s]: the group [label]. *)
Definition match_thread_label (s : string) : option string :=
  if Py.startswith "[#" s then
    let '(label, s) :=
      Py.span (fun c => negb (Ascii.eqb c ">" || Ascii.eqb c "]"))
        (Py.drop 2 s) in
    if Py.is_empty label then None
    else if Py.startswith ">" s then Some label else None
  else None.

(** [MANUAL_THREAD_RE] at the start of [s]: the groups [stream] and [topic]. *)
Definition match_manual_thread (s : string) : option (string * string) :=
  if Py.startswith "#**" s then
    let '(stream, s) := Py.span (fun c => negb (Ascii.eqb c ">")) (Py.drop 3 s) in
    if Py.is_empty stream then None
    else match s with
         | String ">" s =>
             let '(topic, s) := Py.span (fun c => negb (Ascii.eqb c "*")) s in
             if Py.is_empty topic then None
             else if Py.startswith "**" s then Some (stream, topic) else None
         | _ => None
         end
  else None.

(** [pattern.search(s)]: the match at the leftmost position that has one. *)
Fixpoint search {A} (match_at : string -> option A) (s : string) : option A :=
  match match_at s with
  | Some r => Some r
  | None =>
      match s with
      | EmptyString => None
      | String _ s' => search match_at s'
      end
  end.

(** [_extract_thread_reference]. *)
Definition _extract_thread_reference (raw_content plain_content : string)
    : option (string * string) :=
  match search match_thread_link raw_content with
  | None =>
      match search match_manual_thread plain_content with
      | Some (stream, topic) => Some (Py.strip stream, Py.strip topic)
      | None => None
      end
  | Some (stream_slug, topic_raw) =>
      let topic_part := Py.before_first "/near/" topic_raw in
      let topic := _decode_url_component topic_part in
      let stream_name :=
        match search match_thread_label plain_content with
        | Some label => Py.strip label
        | None => _decode_url_component stream_slug
        end in
      let stream_name :=
        if Py.is_empty stream_name then stream_slug else stream_name in
      Some (stream_name, topic)
  end.

(** [COMMAND_ALIASES], in the order of the dictionary. *)
Definition COMMAND_ALIASES : list (string * list string) :=
  [ ("status", ["status"; "triage status"; "status?"; "show status"]);
    ("rerun", ["rerun"; "rerun analysis"; "rerun triage"; "next steps";
               "next-steps"]);
    ("product", ["/product"; "product"]) ].

(** [/product\b] at the start of [s]. *)
Definition product_here (s : string) : bool :=
  Py.startswith "/product" s
  && match Py.drop 8 s with
     | EmptyString => true
     | String c _ => negb (Py.is_word c)
     end.

(** [(^|\s)/product\b] at a position after the first: [s] is the text from
    position [i] on.  The result is the start of the match. *)
Fixpoint product_search_from (i : nat) (s : string) : option nat :=
  match s with
  | EmptyString => None
  | String c s' =>
      if Py.is_space c && product_here s' then Some i
      else product_search_from (S i) s'
  end.

(** [re.search(r"(^|\s)/product\b", lowered)]: the start of the match. *)
Definition product_search (lowered : string) : option nat :=
  if product_here lowered then Some 0 else product_search_from 0 lowered.

(** The loop over the aliases of one command; [None] when it ends without
    returning. *)
Fixpoint try_aliases (command : string) (aliases : list string)
    (text lowered : string) : option (option string * string) :=
  match aliases with
  | [] => None
  | alias :: aliases' =>
      let alias_lower := Py.lower alias in
      if String.eqb lowered alias_lower then Some (Some command, "")
      else if Py.startswith (alias_lower +:+ " ") lowered
           then Some (Some command, Py.strip (Py.drop (String.length alias) text))
           else try_aliases command aliases' text lowered
  end.

(** The loop over the commands. *)
Fixpoint try_commands (table : list (string * list string))
    (text lowered : string) : option string * string :=
  match table with
  | [] => (None, "")
  | (command, aliases) :: table' =>
      match try_aliases command aliases text lowered with
      | Some r => r
      | None => try_commands table' text lowered
      end
  end.

(** [_extract_command]. *)
Definition _extract_command (plain_content : string) : option string * string :=
  let text := Py.strip plain_content in
  let lowered := Py.lower text in
  match product_search lowered with
  | Some start =>
      let idx := Py.find "/product" lowered start in
      let remainder := Py.strip (Py.slice_from (idx + 8) text) in
      (Some "product", remainder)
  | None => try_commands COMMAND_ALIASES text lowered
  end.

(** The author written in front of a thread line:
    [msg.get("sender_full_name") or msg.get("sender_email")]. *)
Definition author_of (msg : Zulip.ThreadMessage) : option string :=
  if Py.truthy (Zulip.tm_sender_full_name msg)
  then Zulip.tm_sender_full_name msg
  else Zulip.tm_sender_email msg.

(** The body of the loop of [handle_incoming_message] over the fetched
    messages. *)
Definition add_thread_line (thread_lines : list string)
    (msg : Zulip.ThreadMessage) : list string :=
  let text := _plain_text (Zulip.tm_content msg) in
  if Py.is_empty text then thread_lines
  else thread_lines
         ++ [(Py.format_opt (author_of msg) +:+ ": " +:+ text)%string].

(** The lines built from the fetched messages:
    [for msg in thread_messages[-10:]: ...]. *)
Definition thread_lines_of (thread_messages : list Zulip.ThreadMessage)
    : list string :=
  fold_left add_thread_line (Py.list_last_n 10 thread_messages) [].

(** The part of [handle_incoming_message] that builds [thread_lines] once
    [fetch_stream] and [fetch_topic] are known. *)
Definition thread_context_of (client : Zulip.ZulipBotClient)
    (fetch_stream fetch_topic : option string) : list string :=
  if Py.truthy fetch_stream && Py.truthy fetch_topic then
    let thread_messages :=
      Zulip.fetch_thread_messages client (Py.format_opt fetch_stream)
        (Py.format_opt fetch_topic) 25 in
    thread_lines_of thread_messages
  else [].

End Codecs.

(** The objects [main.py] creates when it is loaded, and what they hold
    while the process runs. *)
Record App := mkApp {
  env : Repo.Env;
  KEYWORD_LIMIT : Z;
  zulip_client : Zulip.ZulipBotClient;
  triage_service : Triage.TriageService
}.

Record AppState := mkAppState {
  tool_state : Tools.RegistryState;
  incident_store : State.IncidentStore;
  (** the requests handed to the chat service so far, oldest first *)
  sent : list Zulip.SendRequest
}.

Definition FAILURE_PREFIX : string := "Unable to run automated analysis: ".

(** [_run_triage_and_reply]; [incident] is the reference of the record. *)
Definition _run_triage_and_reply (app : App) (message : Zulip.Message)
    (triage_request : TriageRequest) (incident : nat) (st : AppState)
    : outcome unit * AppState :=
  let '(ran, tool_state') :=
    Triage.run (env app) (KEYWORD_LIMIT app) (triage_service app)
      triage_request (tool_state st) in
  let summary :=
    match ran with
    | Ok summary => summary
    | Raise exc => (FAILURE_PREFIX +:+ exc)%string
    end in
  let incident_store' :=
    State.update_at incident summary triage_request (incident_store st) in
  let '(request, response) :=
    Zulip.send_reply (zulip_client app) message summary in
  (Ok tt,
   {| tool_state := tool_state';
      incident_store := incident_store';
      sent := sent st ++ [request] |}).

End Main.

(** ** main.py: commands and the intake of a message *)

Module Bot.

Import Tools.

(** [needle in s] for two strings. *)
Fixpoint contains (needle s : string) : bool :=
  Py.startswith needle s
  || match s with
     | EmptyString => false
     | String _ s' => contains needle s'
     end.

(** [s.split(sep)[0]]. *)
Definition first_piece (sep : ascii) (s : string) : string :=
  match Py.split_char sep s with
  | piece :: _ => piece
  | [] => s
  end.

(** [list(dict.fromkeys(l))]: the keys in the order of first insertion. *)
Definition dict_fromkeys (l : list string) : list string :=
  (fold_left (fun d key => Py.dict_set key tt d) l []).*1.

(** [_bot_aliases()], given [settings.zulip_email] and the value of the
    environment variable [TRIAGE_BOT_ALIASES] (empty when it is not set). *)
Definition _bot_aliases (zulip_email TRIAGE_BOT_ALIASES : string)
    : list string :=
  let handle := first_piece "@" zulip_email in
  let handle := first_piece "+" handle in
  let aliases := [Py.lower handle] in
  let aliases :=
    fold_left (fun aliases sep =>
                 if Py.contains_char sep handle
                 then aliases ++ [Py.lower (first_piece sep handle)]
                 else aliases)
      ["-"; "_"; "."]%char aliases in
  let aliases :=
    fold_left (fun aliases token =>
                 let token := Py.lower (Py.strip token) in
                 if Py.is_empty token then aliases else aliases ++ [token])
      (Py.split_char "," TRIAGE_BOT_ALIASES) aliases in
  dict_fromkeys aliases.

(** A message event as the handler reads it: the message, its [flags]
    (none when the key is absent or empty) and its [stream_id]. *)
Record Incoming := mkIncoming {
  message : Zulip.Message;
  flags : list string;
  stream_id : option Z
}.

(** The tokens that count as a mention.  The code collects them in a set;
    the test below does not depend on their order or repetition. *)
Definition mention_tokens (aliases : list string) : list string :=
  (alias ← aliases;
   [alias; "@" +:+ alias; "@**" +:+ alias +:+ "**"; "@_" +:+ alias])
  ++ ["triage"].

(** [_should_respond]. *)
Definition _should_respond (zulip_email TRIAGE_BOT_ALIASES : string)
    (incoming : Incoming) (plain_content : string) : bool :=
  if String.eqb (Zulip.type (message incoming)) "private" then true
  else if in_list "mentioned" (flags incoming)
          || in_list "mentioned-inline" (flags incoming) then true
  else
    let content := Py.lower plain_content in
    let aliases := _bot_aliases zulip_email TRIAGE_BOT_ALIASES in
    existsb (fun token => contains token content) (mention_tokens aliases).

Definition DOC_PATH_KEYWORDS : list string :=
  [ "docs/"; "doc/"; "handbook"; "guide"; "runbook"; "spec"; "adr"; "readme";
    "wiki" ].

(** A product snippet: repository, path, line and text. *)
Definition Hit : Type := string * string * Z * string.

(** The three characters of the replies that are not ASCII, as the bytes of
    their UTF-8 form: the two curly quotes and the ellipsis. *)
Definition LDQUO : string :=
  String.string_of_list_ascii (ascii_of_nat <$> [226; 128; 156]).
Definition RDQUO : string :=
  String.string_of_list_ascii (ascii_of_nat <$> [226; 128; 157]).
Definition ELLIPSIS : string :=
  String.string_of_list_ascii (ascii_of_nat <$> [226; 128; 166]).

Section WithRegistry.

Variable env : Repo.Env.
Variable tool_registry : ToolRegistry.

(** The loop of [_gather_product_snippets] over the matches of one
    repository: the hits so far, and whether the function returned from
    inside the loop. *)
Fixpoint add_hits (repo : string) (max_results : Z)
    (matches : list Repo.RepoMatch) (hits : list Hit) : M (list Hit * bool) :=
  match matches with
  | [] => ret (hits, false)
  | m :: matches' =>
      let lower_path := Py.lower (Repo.path m) in
      if negb (existsb (fun keyword => contains keyword lower_path)
                 DOC_PATH_KEYWORDS)
      then add_hits repo max_results matches' hits
      else
        do snippet <- read_file env tool_registry repo (Repo.path m)
                        (Z.max (Repo.line m - 4) 1) (Repo.line m + 4);
        let snippet := if Py.truthy snippet then Py.format_opt snippet
                       else Repo.preview m in
        let snippet := Py.strip snippet in
        if Py.is_empty snippet then add_hits repo max_results matches' hits
        else
          let hits' := hits ++ [(repo, Repo.path m, Repo.line m, snippet)] in
          if (max_results <=? Z.of_nat (length hits'))%Z then ret (hits', true)
          else add_hits repo max_results matches' hits'
  end.

(** The loop over the repositories. *)
Fixpoint gather_hits (query : string) (max_results : Z) (repos : list string)
    (hits : list Hit) : M (list Hit) :=
  match repos with
  | [] => ret hits
  | repo :: repos' =>
      do matches <- search_code env tool_registry repo query 6 None;
      do r <- add_hits repo max_results matches hits;
      if r.2 then ret r.1 else gather_hits query max_results repos' r.1
  end.

(** [_gather_product_snippets]. *)
Definition _gather_product_snippets (query : string) (max_results : Z)
    : M (list Hit) :=
  gather_hits query max_results (list_repos tool_registry) [].

(** The block of the answer for one snippet. *)
Definition snippet_block (hit : Hit) : string :=
  let '(repo, path, line_no, snippet) := hit in
  let trimmed := Py.strip snippet in
  let trimmed :=
    if 500 <? String.length trimmed then Py.take 500 trimmed +:+ ELLIPSIS
    else trimmed in
  "- `" +:+ repo +:+ ":" +:+ path +:+ ":" +:+ Py.str_of_Z line_no +:+ "`"
    +:+ NL +:+ "```text" +:+ NL +:+ trimmed +:+ NL +:+ "```".

(** [_answer_product_query]. *)
Definition _answer_product_query (query : string) (max_results : Z)
    : M string :=
  do snippets <- _gather_product_snippets query max_results;
  match snippets with
  | [] =>
      ret ("I couldn't find any product docs mentioning " +:+ LDQUO +:+ query
             +:+ RDQUO +:+ ". "
             +:+ "Try refining the query or share more context so I can point you to the right runbook.")
  | _ :: _ =>
      let lines :=
        [("Product context for `" +:+ query +:+ "`:")%string]
          ++ (snippet_block <$> snippets)
          ++ ["Need deeper details? Follow up with `/product <more context>`."]
      in
      ret (Py.join (NL +:+ NL) lines)
  end.

End WithRegistry.

(** A call handed to the executor:
    [_run_triage_and_reply(message, request, incident)]. *)
Record Task := mkTask {
  task_message : Zulip.Message;
  task_request : TriageRequest;
  task_incident : nat
}.

(** The state of the application together with the calls submitted to the
    executor so far, oldest first. *)
Record BotState := mkBotState {
  app_state : Main.AppState;
  submitted : list Task
}.

Section WithApp.

Variable charref_sub : string -> string.
Variable decode_utf8 : string -> string.
Variable app : Main.App.
Variable TRIAGE_BOT_ALIASES : string.

(** The registry [main.py] gives to the orchestrator and uses itself. *)
Definition tool_registry : ToolRegistry :=
  Triage.registry (Triage.orchestrator (Main.triage_service app)).

(** [zulip_client.send_reply(message, content)]. *)
Definition send (message : Zulip.Message) (content : string) (st : BotState)
    : BotState :=
  let request := (Zulip.send_reply (Main.zulip_client app) message content).1 in
  {| app_state :=
       {| Main.tool_state := Main.tool_state (app_state st);
          Main.incident_store := Main.incident_store (app_state st);
          Main.sent := Main.sent (app_state st) ++ [request] |};
     submitted := submitted st |}.

(** [incident_store.get_or_create(request)] followed by
    [triage_executor.submit(_run_triage_and_reply, message, request,
    incident)], with the reply the code sends in between, if any. *)
Definition submit (message : Zulip.Message) (request : TriageRequest)
    (notice : option string) (st : BotState) : BotState :=
  let '(incident, store) :=
    State.get_or_create request (Main.incident_store (app_state st)) in
  let st :=
    {| app_state :=
         {| Main.tool_state := Main.tool_state (app_state st);
            Main.incident_store := store;
            Main.sent := Main.sent (app_state st) |};
       submitted := submitted st |} in
  let st := match notice with
            | Some content => send message content st
            | None => st
            end in
  {| app_state := app_state st;
     submitted := submitted st ++ [mkTask message request incident] |}.

(** [_handle_command]. *)
Definition _handle_command (command : option string) (remainder : string)
    (message : Zulip.Message) (stream topic : option string)
    (thread_lines : list string) (st : BotState) : outcome bool * BotState :=
  let store := Main.incident_store (app_state st) in
  let incident :=
    r ← State.find stream topic store; State.objects store !! r in
  if bool_decide (command = Some "status") then
    match incident with
    | Some record =>
        if Py.truthy (State.last_summary record)
        then (Ok true,
              send message
                ("Latest triage summary:" +:+ NL +:+ NL
                   +:+ Py.format_opt (State.last_summary record)) st)
        else (Ok true,
              send message "No prior triage summary found for this thread." st)
    | None =>
        (Ok true,
         send message "No prior triage summary found for this thread." st)
    end
  else if bool_decide (command = Some "rerun") then
    let request :=
      if negb (Py.is_empty remainder)
      then Some {| sender_email :=
                     Py.or_str (Zulip.msg_sender_email message) "";
                   stream := stream;
                   topic := topic;
                   incident_text := remainder;
                   thread_context := thread_lines |}
      else match incident with
           | Some record => State.last_request record
           | None => None
           end in
    match request with
    | None =>
        (Ok true,
         send message
           "I couldn't find prior triage context to rerun. Please provide details about the issue first."
           st)
    | Some request =>
        (Ok true,
         submit message request
           (Some "Re-running automated triage; will reply with updates shortly.")
           st)
    end
  else if bool_decide (command = Some "product") then
    let query := Py.strip remainder in
    if Py.is_empty query
    then (Ok true,
          send message
            "Use `/product <question>` to search product docs. Example: `/product TrendyolGO pod adjust requirements`."
            st)
    else
      let '(reply, tool_state') :=
        _answer_product_query (Main.env app) tool_registry query 4
          (Main.tool_state (app_state st)) in
      let st :=
        {| app_state :=
             {| Main.tool_state := tool_state';
                Main.incident_store := Main.incident_store (app_state st);
                Main.sent := Main.sent (app_state st) |};
           submitted := submitted st |} in
      match reply with
      | Ok reply => (Ok true, send message reply st)
      | Raise exc => (Raise exc, st)
      end
  else (Ok false, st).

(** [handle_incoming_message]. *)
Definition handle_incoming_message (incoming : Incoming) (st : BotState)
    : outcome unit * BotState :=
  let client := Main.zulip_client app in
  let message := message incoming in
  let sender := Zulip.msg_sender_email message in
  if bool_decide (sender = Some (Zulip.zulip_email client)) then (Ok tt, st)
  else
    let stream := Zulip.display_recipient message in
    let topic := Zulip.subject message in
    let raw_content := Zulip.msg_content message in
    let plain_content := Main._plain_text charref_sub (Some raw_content) in
    if negb (_should_respond (Zulip.zulip_email client) TRIAGE_BOT_ALIASES
               incoming plain_content)
    then (Ok tt, st)
    else
      let stream_name :=
        match stream with
        | Zulip.ToChannel name => Some name
        | Zulip.ToUsers _ => None
        end in
      let '(command, remainder) := Main._extract_command plain_content in
      let thread_ref :=
        Main._extract_thread_reference decode_utf8 raw_content plain_content in
      let '(fetch_stream, fetch_topic) :=
        match thread_ref with
        | Some (fetch_stream, fetch_topic) =>
            (Some fetch_stream, Some fetch_topic)
        | None =>
            if Py.is_empty topic then (None, None)
            else
              match stream with
              | Zulip.ToUsers _ =>
                  match stream_id incoming with
                  | Some id => (Some (Py.str_of_Z id), Some topic)
                  | None => (None, None)
                  end
              | Zulip.ToChannel name => (Some name, Some topic)
              end
        end in
      let thread_lines :=
        Main.thread_context_of charref_sub client fetch_stream fetch_topic in
      let normalized := Py.lower (Py.strip plain_content) in
      if String.eqb normalized "ping"
      then (Ok tt, send message "triage bot is online :rocket:" st)
      else
        let '(handled, st) :=
          if Py.truthy command
          then _handle_command command remainder message stream_name
                 (Some topic) thread_lines st
          else (Ok false, st) in
        match handled with
        | Raise exc => (Raise exc, st)
        | Ok true => (Ok tt, st)
        | Ok false =>
            let triage_request :=
              {| sender_email := Py.or_str sender "";
                 stream := stream_name;
                 topic := Some topic;
                 incident_text := plain_content;
                 thread_context := thread_lines |} in
            (Ok tt, submit message triage_request None st)
        end.

End WithApp.

End Bot.

(** ** poller.py *)

Module Poller.

(** What the Zulip client or the handler can raise: the poller tells
    [ZulipError] from every other [Exception]; both carry [str(exc)]. *)
Inductive Raised : Type :=
  | ZulipError (exc : string)
  | OtherError (exc : string).

(** An event of the queue, a dict: the keys the poller reads. *)
Record Event (Message : Type) := mkEvent {
  id : option Z;
  type : option string;
  message : option Message
}.
Arguments mkEvent {Message} id type message.
Arguments id {Message} e.
Arguments type {Message} e.
Arguments message {Message} e.

(** How one pass of the polling loop leaves it: the loop goes on with the
    same queue, or it was left to register a new one. *)
Inductive Next : Type :=
  | KeepPolling
  | Reregister.

Section WithHandler.

Variable Message : Type.

(** The state the client and the handler work on. *)
Variable World : Type.

(** [self.handler]: returns, or raises. *)
Variable handler : Message -> World -> option Raised * World.

(** [client.get_events(queue_id=..., last_event_id=..., dont_block=False)]:
    raises, or returns a dict, of which the poller reads the entry
    ["events"], if there is one. *)
Variable get_events :
  string -> Z -> World -> (Raised + option (list (Event Message))) * World.

(** [ZulipBotClient.poll_events]. *)
Definition poll_events (queue_id : string) (last_event_id : option Z)
    : World -> (Raised + option (list (Event Message))) * World :=
  get_events queue_id
    (match last_event_id with Some i => i | None => (-1)%Z end).

(** The [for event in events.get("events", [])] loop of [_run]: what it
    raised, if anything, with [last_event_id] and the state as it left
    them.  A missing key is a [KeyError]. *)
Fixpoint for_events (events : list (Event Message))
    (last_event_id : option Z) (w : World)
    : option Raised * option Z * World :=
  match events with
  | [] => (None, last_event_id, w)
  | event :: events' =>
      match id event with
      | None => (Some (OtherError "'id'"), last_event_id, w)
      | Some i =>
          let last_event_id := Some i in
          if bool_decide (type event = Some "message")
          then match message event with
               | None => (Some (OtherError "'message'"), last_event_id, w)
               | Some m =>
                   match handler m w with
                   | (None, w') => for_events events' last_event_id w'
                   | (Some exc, w') => (Some exc, last_event_id, w')
                   end
               end
          else for_events events' last_event_id w
      end
  end.

(** What the [except] clauses of the inner loop do with an exception. *)
Definition after_raise (exc : Raised) : Next :=
  match exc with
  | ZulipError _ => Reregister
  | OtherError _ => KeepPolling
  end.

(** One pass of the inner [while] loop of [_run]. *)
Definition poll_pass (queue_id : string) (last_event_id : option Z)
    (w : World) : Next * option Z * World :=
  match poll_events queue_id last_event_id w with
  | (inl exc, w1) => (after_raise exc, last_event_id, w1)
  | (inr events, w1) =>
      let '(raised, last_event_id', w2) :=
        for_events (default [] events) last_event_id w1 in
      (match raised with Some exc => after_raise exc | None => KeepPolling end,
       last_event_id', w2)
  end.

End WithHandler.

Arguments poll_events {Message World} get_events queue_id last_event_id w.
Arguments for_events {Message World} handler events last_event_id w.
Arguments poll_pass {Message World} handler get_events queue_id
  last_event_id w.

End Poller.

(** ** llm.py: the login of the Codex CLI *)

Module Login.

(** What [subprocess.run] does with a command: the program is missing
    ([FileNotFoundError]), another exception, or the process completes. *)
Inductive Run : Type :=
  | RunMissing
  | RunRaised
  | RunCompleted (returncode : Z) (stdout stderr : string).

(** A call of [subprocess.run]: the command and the text given as [input]. *)
Record Call := mkCall {
  cmd : list string;
  input : option string
}.

Section WithShell.

(** The processes of the machine: what a call does, given the calls made
    before it. *)
Variable subprocess_run : list Call -> Call -> Run.

(** [self.cli_path], [self.node_path] and [self.api_key]. *)
Variable cli_path node_path api_key : option string.

(** A computation that runs processes: the calls made so far are threaded
    through. *)
Definition P (A : Type) : Type := list Call -> A * list Call.

Definition run (argv : list (option string)) (input : option string)
    : P (option Run) :=
  fun calls =>
    match mapM (M := option) id argv with
    | None => (None, calls)
    | Some cmd =>
        let call := mkCall cmd input in
        (Some (subprocess_run calls call), calls ++ [call])
    end.

(** [LLMAgent._run_command]; what it logs is left out.  A [None] in the
    command makes [subprocess.run] raise before any process is started. *)
Definition _run_command (cmd : list (option string)) : P bool :=
  fun calls =>
    let '(result, calls') := run cmd None calls in
    (match result with
     | Some (RunCompleted returncode _ _) => (returncode =? 0)%Z
     | _ => false
     end, calls').

(** [LLMAgent._check_login]. *)
Definition _check_login : P bool :=
  fun calls =>
    if negb (Py.truthy cli_path) then (false, calls)
    else
      let '(result, calls') :=
        run [cli_path; Some "login"; Some "status"] None calls in
      (match result with
       | Some (RunCompleted returncode _ _) => (returncode =? 0)%Z
       | _ => false
       end, calls').

(** [LLMAgent._ensure_login]; [os.linesep] is the newline. *)
Definition _ensure_login : P bool :=
  fun calls =>
    let '(ok, calls) := _run_command [node_path; Some "--version"] calls in
    if negb ok then (false, calls) else
    let '(ok, calls) := _run_command [cli_path; Some "--version"] calls in
    if negb ok then (false, calls) else
    let '(ok, calls) := _check_login calls in
    if ok then (true, calls) else
    match api_key with
    | Some key =>
        if Py.is_empty key then (false, calls) else
        let '(result, calls) :=
          run [cli_path; Some "login"; Some "--with-api-key"]
            (Some (key +:+ NL)) calls in
        match result with
        | Some (RunCompleted returncode _ _) =>
            if negb (returncode =? 0)%Z then (false, calls)
            else _check_login calls
        | _ => (false, calls)
        end
    | None => (false, calls)
    end.

(** [self.logged_in] as [__init__] sets it. *)
Definition __init__logged_in : P bool :=
  fun calls =>
    if Py.truthy cli_path && Py.truthy node_path then _ensure_login calls
    else (false, calls).

End WithShell.

End Login.


(** ** What the specification says, in its own words

    The predicates below state properties of inputs and results without
    looking at how the program computes them. *)

Module Spec.

(** Position [i] of [s] holds a dot that two hexadecimal digits follow. *)
Definition is_escape_at (s : string) (i : nat) : bool :=
  match String.get i s, String.get (i + 1) s, String.get (i + 2) s with
  | Some c, Some h1, Some h2 => Ascii.eqb c "." && Py.is_hex h1 && Py.is_hex h2
  | _, _, _ => false
  end.



(** The line of a fetched message, "<author>: <text>"; none when its
    flattened text is empty. *)
Definition line_of (charref_sub : string -> string)
    (msg : Zulip.ThreadMessage) : option string :=
  let text := Main._plain_text charref_sub (Zulip.tm_content msg) in
  if Py.is_empty text then None
  else Some (Py.format_opt (Main.author_of msg) +:+ ": " +:+ text)%string.

(** The last ten non-empty flattened messages of the thread, formatted. *)
Definition last_nonempty_lines (charref_sub : string -> string)
    (thread_messages : list Zulip.ThreadMessage) : list string :=
  Py.list_last_n 10 (omap (line_of charref_sub) thread_messages).

(** The position of the first occurrence of [x] in [l], and the number of
    its occurrences. *)
Fixpoint index_of (x : string) (l : list string) : nat :=
  match l with
  | [] => 0
  | y :: l' => if decide (y = x) then 0 else S (index_of x l')
  end.

Fixpoint count_of (x : string) (l : list string) : nat :=
  match l with
  | [] => 0
  | y :: l' => (if decide (y = x) then 1 else 0) + count_of x l'
  end.

(** [a] ranks before [b]: it is more frequent, or as frequent and seen
    first. *)
Definition ranks_before (tokens : list string) (a b : string) : Prop :=
  count_of b tokens < count_of a tokens
  \/ (count_of a tokens = count_of b tokens
      /\ index_of a tokens < index_of b tokens).

(** [a] is seen before [b]. *)
Definition appears_before (tokens : list string) (a b : string) : Prop :=
  index_of a tokens < index_of b tokens.

(** [result] is the first [K] entries of the list of the distinct [tokens]
    in the given order. *)
Definition top_of (order : string -> string -> Prop) (K : nat)
    (tokens result : list string) : Prop :=
  exists ranking,
    result = List.firstn K ranking
    /\ NoDup ranking
    /\ (forall t, t ∈ ranking <-> t ∈ tokens)
    /\ StronglySorted order ranking.

(** Ranked by descending frequency, ties broken by first appearance, cut to
    the top [K]. *)
Definition ranked_by_frequency (K : nat) (tokens result : list string) : Prop :=
  top_of (ranks_before tokens) K tokens result.

(** In the order of first appearance, cut to the first [K]. *)
Definition in_order_of_appearance (K : nat) (tokens result : list string)
    : Prop :=
  top_of (appears_before tokens) K tokens result.

(** The tokens of a text that survive the filters of each extractor. *)
Definition triage_survivors (text : string) : list string :=
  List.filter
    (fun token => negb (in_list token Triage.STOP_WORDS)
                  && negb (Py.isdigit token))
    (Triage.tokens text).

Definition analyzer_survivors (text : string) : list string :=
  List.filter (fun token => negb (in_list token Analyzer.STOP_WORDS))
    (Analyzer.tokens text).

(** The distinct entries of a list, each at its first occurrence. *)
Definition firsts (l : list string) : list string :=
  fold_left (fun acc x => if in_list x acc then acc else acc ++ [x]) l [].

(** The counter after counting the tokens [l]: one item for each distinct
    token, in the order of first appearance. *)
Definition counts_of (l : list string) : Triage.Counter :=
  (fun k => (k, count_of k l)) <$> firsts l.

(** [ranks_before] on the items of a counter. *)
Definition item_ranks_before (tokens : list string) (a b : string * nat)
    : Prop :=
  b.2 < a.2 \/ (a.2 = b.2 /\ index_of a.1 tokens < index_of b.1 tokens).

End Spec.

(** ** Concrete worlds used in examples *)

Module Examples.

Import Tools.

(** A repository with two files that each hold the keyword once: ripgrep,
    asked for at most one matching line per file, prints two lines. *)
Definition two_files : Repo.Env :=
  {| Repo.path_exists := fun _ => true;
     Repo.RG_AVAILABLE := true;
     Repo.run_rg := fun _ _ _ =>
       Repo.RgCompleted 0
         ("/srv/adwyze/app/a.rb:3:def deploy" +:+ NL
            +:+ "/srv/adwyze/lib/b.rb:7:deploy!" +:+ NL);
     Repo.resolve := fun p => p;
     Repo.run_git := fun _ _ => Repo.GitCalledProcessError;
     Repo.open_file := fun _ _ => Repo.FileMissing |}.

Definition adwyze_only : ToolRegistry :=
  {| repos := [ {| Repo.name := "adwyze"; Repo.root := "/srv/adwyze" |} ];
     sourcegraph := None |}.

(** The same repository when running ripgrep raises an unexpected
    exception. *)
Definition rg_crashes : Repo.Env :=
  {| Repo.path_exists := fun _ => true;
     Repo.RG_AVAILABLE := true;
     Repo.run_rg := fun _ _ _ => Repo.RgRaise "[Errno 13] Permission denied: 'rg'";
     Repo.resolve := fun p => p;
     Repo.run_git := fun _ _ => Repo.GitCalledProcessError;
     Repo.open_file := fun _ _ => Repo.FileMissing |}.

(** A language-model tier whose CLI was not found. *)
Definition llm_off : LLM.LLMAgent :=
  {| LLM.cli_path := None;
     LLM.node_path := Some "/usr/bin/node";
     LLM.logged_in := false;
     LLM.model := None;
     LLM.exec := fun _ _ => LLM.ExecFailed |}.

Definition service_llm_off : Triage.TriageService :=
  {| Triage.analyzer :=
       {| Analyzer.repos :=
            [ {| Repo.name := "adwyze"; Repo.root := "/srv/adwyze" |} ] |};
     Triage.llm_agent := llm_off;
     Triage.orchestrator :=
       {| Triage.registry := adwyze_only; Triage.include_commits := false |} |}.

(** A service that found no repository at all. *)
Definition service_no_repos : Triage.TriageService :=
  {| Triage.analyzer := {| Analyzer.repos := [] |};
     Triage.llm_agent := llm_off;
     Triage.orchestrator :=
       {| Triage.registry := {| repos := []; sourcegraph := None |};
          Triage.include_commits := false |} |}.

Definition deploy_request : TriageRequest :=
  {| sender_email := "ann@example.com";
     stream := Some "ops";
     topic := Some "deploy";
     incident_text := "deploy fails on prod";
     thread_context := [] |}.

Definition deploy_message : Zulip.Message :=
  {| Zulip.type := "stream";
     Zulip.display_recipient := Zulip.ToChannel "ops";
     Zulip.subject := "deploy";
     Zulip.msg_sender_email := Some "ann@example.com";
     Zulip.msg_content := "<p>deploy fails on prod</p>" |}.

Definition chat : Zulip.ZulipBotClient :=
  {| Zulip.zulip_email := "triage-bot@example.com";
     Zulip.get_messages := fun _ _ _ => Zulip.mkGetMessages (Some "success") (Some []);
     Zulip.send_message := fun _ => Zulip.mkResponse (Some "success") |}.

Definition app_rg_crashes : Main.App :=
  {| Main.env := rg_crashes;
     Main.KEYWORD_LIMIT := Triage.DEFAULT_KEYWORD_LIMIT;
     Main.zulip_client := chat;
     Main.triage_service := service_llm_off |}.

Definition fresh_state : Main.AppState :=
  {| Main.tool_state := initial_state;
     Main.incident_store := (State.get_or_create deploy_request State.empty_store).2;
     Main.sent := [] |}.

(** A handler that records the messages it is given and raises on the
    message [boom], a batch of three message events, and a client that
    answers every poll with this batch. *)
Definition poll_handler (m : string) (w : list string)
    : option Poller.Raised * list string :=
  (if String.eqb m "boom" then Some (Poller.OtherError "boom") else None,
   w ++ [m]).

Definition poll_batch : list (Poller.Event string) :=
  [ Poller.mkEvent (Some 7%Z) (Some "message") (Some "first");
    Poller.mkEvent (Some 8%Z) (Some "message") (Some "boom");
    Poller.mkEvent (Some 9%Z) (Some "message") (Some "third") ].

Definition poll_get_events (queue_id : string) (last_event_id : Z)
    (w : list string)
    : (Poller.Raised + option (list (Poller.Event string))) * list string :=
  (inr (Some poll_batch), w).

(** U+0130, the capital I with a dot above, and U+0307, the combining dot
    above, in UTF-8; and a text that holds the first before the slash
    command. *)
Definition DOTTED_I : string :=
  String (ascii_of_nat 196) (String (ascii_of_nat 176) "").

Definition COMBINING_DOT : string :=
  String (ascii_of_nat 204) (String (ascii_of_nat 135) "").

Definition dotted_text : string :=
  DOTTED_I +:+ "Y" +:+ DOTTED_I +:+ " /product TrendyolGO".

End Examples.

(** ** Shapes of texts and lists used in the statements *)

Module Notions.

(** A text that does not start with a space character. *)
Definition no_space_head (s : string) : Prop :=
  match s with
  | EmptyString => True
  | String c _ => Py.is_space c = false
  end.

(** The line matches of the file results of a Sourcegraph answer, in the
    order of the answer. *)
Definition file_line_matches (results : list Sourcegraph.SearchResult)
    : list Sourcegraph.SourcegraphMatch :=
  result ← results;
  if String.eqb (Sourcegraph.typename result) "FileMatch"
  then (fun lm =>
          {| Sourcegraph.repo := Sourcegraph.repository_name result;
             Sourcegraph.path := Sourcegraph.file_path result;
             Sourcegraph.line := Sourcegraph.lineNumber lm;
             Sourcegraph.preview := Py.strip (Sourcegraph.line_text lm) |})
         <$> Sourcegraph.lineMatches result
  else [].

(** A word: not empty and without space characters. *)
Definition is_word_piece (w : string) : Prop :=
  w <> "" /\ Py.all_chars (fun c => negb (Py.is_space c)) w = true.

(** The keys of a counter of directories: distinct, not empty, each of at
    most two path segments. *)
Definition directory_keys (counts : Triage.Counter) : Prop :=
  NoDup counts.*1
  /\ Forall (fun d => d <> "" /\ Triage.directory_of d = d) counts.*1.

(** Every query of a list is in the search cache for a repository. *)
Definition all_cached (repo : string) (queries : list string)
    (st : Tools.RegistryState) : Prop :=
  forall query, query ∈ queries -> is_Some (Tools.cache st !! (repo, query)).

(** What handling one message may do to the state: send at most one reply,
    addressed as a reply to the message; submit at most one task for the
    message, whose incident is the record filed for its request.  The
    incident store is left as it is when no task is submitted, and is the
    store [get_or_create] gives for the task's request, with the task's
    incident, when one is. *)
Definition handles (app : Main.App) (message : Zulip.Message)
    (st st' : Bot.BotState) : Prop :=
  exists new_sent new_tasks,
    Main.sent (Bot.app_state st') = Main.sent (Bot.app_state st) ++ new_sent
    /\ Bot.submitted st' = Bot.submitted st ++ new_tasks
    /\ length new_sent <= 1
    /\ length new_tasks <= 1
    /\ (forall request,
          request ∈ new_sent ->
          exists content,
            request
            = Zulip.reply_request (Main.zulip_client app) message content)
    /\ (forall task,
          task ∈ new_tasks ->
          Bot.task_message task = message
          /\ State.find (stream (Bot.task_request task))
               (topic (Bot.task_request task))
               (Main.incident_store (Bot.app_state st'))
             = Some (Bot.task_incident task)
          /\ State.get_or_create (Bot.task_request task)
               (Main.incident_store (Bot.app_state st))
             = (Bot.task_incident task,
                Main.incident_store (Bot.app_state st')))
    /\ (new_tasks = [] ->
        Main.incident_store (Bot.app_state st')
        = Main.incident_store (Bot.app_state st)).

(** Nothing was sent, submitted or stored between two states. *)
Definition quiet (st st' : Bot.BotState) : Prop :=
  Main.sent (Bot.app_state st') = Main.sent (Bot.app_state st)
  /\ Bot.submitted st' = Bot.submitted st
  /\ Main.incident_store (Bot.app_state st')
     = Main.incident_store (Bot.app_state st).

(** A product snippet as [_gather_product_snippets] may return it: from a
    repository of the registry, at a path that holds one of the
    documentation keywords, with a text that is stripped and not empty. *)
Definition doc_hit (tool_registry : Tools.ToolRegistry) (hit : Bot.Hit)
    : Prop :=
  let '(repo, path, line_no, snippet) := hit in
  repo ∈ Tools.list_repos tool_registry
  /\ existsb (fun keyword => Bot.contains keyword (Py.lower path))
       Bot.DOC_PATH_KEYWORDS = true
  /\ snippet <> ""
  /\ Py.strip snippet = snippet.

(** The id the poller holds after the events [events], when it held
    [last_event_id] before them. *)
Definition last_id {Message} (events : list (Poller.Event Message))
    (last_event_id : option Z) : option Z :=
  foldl (fun last event =>
           match Poller.id event with Some i => Some i | None => last end)
    last_event_id events.

(** The state after the handler was given the messages of [events], one
    after the other, whatever it did with them. *)
Definition deliver {Message World}
    (handler : Message -> World -> option Poller.Raised * World)
    (events : list (Poller.Event Message)) (w : World) : World :=
  foldl (fun w event =>
           if bool_decide (Poller.type event = Some "message")
           then match Poller.message event with
                | Some m => (handler m w).2
                | None => w
                end
           else w)
    w events.

(** The handler returned for every message of [events]. *)
Definition all_return {Message World}
    (handler : Message -> World -> option Poller.Raised * World)
    (events : list (Poller.Event Message)) (w : World) : Prop :=
  forall j event m,
    events !! j = Some event ->
    Poller.type event = Some "message" ->
    Poller.message event = Some m ->
    (handler m (deliver handler (take j events) w)).1 = None.

(** An event as Zulip sends it: with an id, and with a message when it is
    a message event. *)
Definition well_formed {Message} (event : Poller.Event Message) : bool :=
  bool_decide (is_Some (Poller.id event))
  && (negb (bool_decide (Poller.type event = Some "message"))
      || bool_decide (is_Some (Poller.message event))).

(** The calls [_ensure_login] can make, in their order. *)
Definition login_script (cli_path node_path api_key : option string)
    : list Login.Call :=
  let cli := default "" cli_path in
  [ Login.mkCall [default "" node_path; "--version"] None;
    Login.mkCall [cli; "--version"] None;
    Login.mkCall [cli; "login"; "status"] None;
    Login.mkCall [cli; "login"; "--with-api-key"]
      (Some (default "" api_key +:+ NL));
    Login.mkCall [cli; "login"; "status"] None ].

(** A process completed with return code 0. *)
Definition returned_zero (result : Login.Run) : Prop :=
  exists stdout stderr, result = Login.RunCompleted 0 stdout stderr.

(** The call at position [k] of a script, started after the calls before
    it, completed with return code 0. *)
Definition answered_zero (subprocess_run : list Login.Call -> Login.Call -> Login.Run)
    (calls script : list Login.Call) (k : nat) : Prop :=
  exists call,
    script !! k = Some call
    /\ returned_zero (subprocess_run (calls ++ take k script) call).

(** The character [c] does not start a U+0130 with the head of [s]. *)
Definition no_dotted_I_at (c : ascii) (s : string) : Prop :=
  match s with
  | String d _ => Py.is_dotted_I c d = false
  | EmptyString => True
  end.

End Notions.

(** * Properties *)

(** ** The incident store *)

Module StateProps.

Import State.

Lemma or_str_nonempty x d : d <> "" -> Py.or_str x d <> "".
Proof.
  intros Hd. unfold Py.or_str. destruct x as [s|]; [|done].
  destruct s; simpl; [done|discriminate].
Qed.

Lemma append_inj_l (a x y : string) : a +:+ x = a +:+ y -> x = y.
Proof.
  induction a as [|c a IH]; simpl; [done|].
  intros H. injection H as H. auto.
Qed.

(** Same channel: the key tells the normalised topics apart. *)
Lemma _key_same_stream_inj stream topic1 topic2 :
  _key stream topic1 = _key stream topic2 ->
  Py.or_str topic1 "general" = Py.or_str topic2 "general".
Proof.
  unfold _key. intros H.
  apply append_inj_l in H. by apply (append_inj_l "::") in H.
Qed.

Lemma get_or_create_lookup request st :
  _incidents (get_or_create request st).2
    !! _key (stream request) (topic request)
  = Some (get_or_create request st).1.
Proof.
  unfold get_or_create.
  destruct (_incidents st !! _) as [r|] eqn:E; simpl; [done|].
  by rewrite lookup_insert_eq.
Qed.

Lemma get_or_create_present request st r :
  _incidents st !! _key (stream request) (topic request) = Some r ->
  get_or_create request st = (r, st).
Proof. intros H. unfold get_or_create. by rewrite H. Qed.

(** A binding of the dictionary is never removed nor redirected. *)
Lemma get_or_create_keeps request st k r :
  _incidents st !! k = Some r ->
  _incidents (get_or_create request st).2 !! k = Some r.
Proof.
  intros H. unfold get_or_create.
  destruct (_incidents st !! _key _ _) as [r'|] eqn:E; simpl; [done|].
  rewrite lookup_insert_ne; [done|]. intros <-. congruence.
Qed.

Lemma evolves_keeps st0 st k r :
  evolves st0 st -> _incidents st0 !! k = Some r -> _incidents st !! k = Some r.
Proof.
  induction 1 as [|request st _ IH|r' summary request st _ IH]; intros H.
  - done.
  - by apply get_or_create_keeps, IH.
  - simpl. by apply IH.
Qed.

Lemma store_ok_empty : store_ok empty_store.
Proof. split; intros *; simpl; by rewrite lookup_empty. Qed.

Lemma store_ok_get_or_create request st :
  store_ok st -> store_ok (get_or_create request st).2.
Proof.
  intros [Hdom Hinj]. unfold get_or_create.
  destruct (_incidents st !! _key _ _) as [r'|] eqn:E; simpl; [done|].
  split; simpl.
  - intros k r. rewrite length_app. simpl.
    destruct (decide (_key (stream request) (topic request) = k)) as [->|Hne].
    + rewrite lookup_insert_eq. intros [= <-]. lia.
    + rewrite lookup_insert_ne by done. intros H%Hdom. lia.
  - intros k1 k2 r.
    destruct (decide (_key (stream request) (topic request) = k1)) as [<-|H1];
    destruct (decide (_key (stream request) (topic request) = k2)) as [<-|H2];
      rewrite ?lookup_insert_eq, ?lookup_insert_ne by done.
    + done.
    + intros [= <-] H%Hdom. lia.
    + intros H%Hdom [= <-]. lia.
    + apply Hinj.
Qed.

Lemma store_ok_update_at r summary request st :
  store_ok st -> store_ok (update_at r summary request st).
Proof.
  intros [Hdom Hinj]. split; simpl; [|done].
  intros k r' H. rewrite length_alter. eauto.
Qed.

Lemma evolves_store_ok st0 st : evolves st0 st -> store_ok st0 -> store_ok st.
Proof.
  induction 1; intros H0; auto using store_ok_get_or_create, store_ok_update_at.
Qed.

Lemma reachable_store_ok st : reachable st -> store_ok st.
Proof. intros H. eapply evolves_store_ok; [done|apply store_ok_empty]. Qed.

(** C7 (amended).  Two requests of the same thread get the same record,
    whatever happened to the store in between; two requests of the same
    channel whose topics differ after the topic-or-"general" normalisation
    get distinct records; the call always delivers a live record, and the
    key is the channel-or-"dm" and topic-or-"general" joined by "::". *)
Theorem get_or_create_by_thread st st1 request1 request2 :
  reachable st ->
  evolves (get_or_create request1 st).2 st1 ->
  stream request1 = stream request2 ->
  (topic request1 = topic request2 ->
     get_or_create request2 st1 = ((get_or_create request1 st).1, st1))
  /\ (Py.or_str (topic request1) "general"
        <> Py.or_str (topic request2) "general" ->
      (get_or_create request2 st1).1 <> (get_or_create request1 st).1)
  /\ is_Some (objects (get_or_create request2 st1).2
               !! (get_or_create request2 st1).1)
  /\ _key None None = "dm::general"
  /\ (forall c t, c <> "" -> t <> "" ->
        _key (Some c) (Some t) = c +:+ "::" +:+ t).
Proof.
  intros Hst Hev Hs.
  pose proof (get_or_create_lookup request1 st) as H1.
  pose proof (evolves_keeps _ _ _ _ Hev H1) as H1'.
  assert (store_ok (get_or_create request2 st1).2) as [Hdom Hinj].
  { apply store_ok_get_or_create. eapply evolves_store_ok; [done|].
    by apply store_ok_get_or_create, reachable_store_ok. }
  pose proof (get_or_create_lookup request2 st1) as H2.
  repeat split.
  - intros Ht. apply get_or_create_present. by rewrite <- Hs, <- Ht.
  - intros Hne Heq. apply Hne, (_key_same_stream_inj (stream request1)).
    rewrite Hs at 2. apply (Hinj _ _ (get_or_create request1 st).1).
    + by apply get_or_create_keeps.
    + by rewrite <- Heq.
  - apply lookup_lt_is_Some. eauto.
  - intros c t Hc Ht. unfold _key, Py.or_str.
    destruct c; [done|]. by destruct t.
Qed.

Lemma get_or_create_by_thread_witness :
  (get_or_create (mkTriageRequest "b@x" (Some "ops") (Some "rollback") "again" [])
     (get_or_create (mkTriageRequest "a@x" (Some "ops") (Some "deploy") "down" [])
        empty_store).2).1
  <> (get_or_create (mkTriageRequest "a@x" (Some "ops") (Some "deploy") "down" [])
        empty_store).1.
Proof.
  apply (get_or_create_by_thread empty_store _
           (mkTriageRequest "a@x" (Some "ops") (Some "deploy") "down" [])
           (mkTriageRequest "b@x" (Some "ops") (Some "rollback") "again" [])).
  - apply evolves_refl.
  - apply evolves_refl.
  - reflexivity.
  - simpl. discriminate.
Defined.

(** C7 as stated fails: the same channel with no topic and with the topic
    "general" are different (channel, topic) pairs, yet the second call
    returns the record of the first. *)
Lemma get_or_create_different_topic_same_record :
  stream (mkTriageRequest "a@x" (Some "ops") None "down" [])
    = stream (mkTriageRequest "b@x" (Some "ops") (Some "general") "again" [])
  /\ topic (mkTriageRequest "a@x" (Some "ops") None "down" [])
       <> topic (mkTriageRequest "b@x" (Some "ops") (Some "general") "again" [])
  /\ (get_or_create (mkTriageRequest "b@x" (Some "ops") (Some "general") "again" [])
        (get_or_create (mkTriageRequest "a@x" (Some "ops") None "down" [])
           empty_store).2).1
     = (get_or_create (mkTriageRequest "a@x" (Some "ops") None "down" [])
          empty_store).1.
Proof. split; [reflexivity|]. split; [discriminate|]. vm_compute. reflexivity. Qed.

(** C10.  The key is not injective: requests whose channels agree after the
    channel-or-"dm" normalisation and whose topics agree after the
    topic-or-"general" normalisation have the same key and get the same
    record.  No topic, the empty topic and the topic "general" agree, and so
    do no channel and the channel "dm". *)
Theorem key_not_injective st request1 request2 :
  Py.or_str (stream request1) "dm" = Py.or_str (stream request2) "dm" ->
  Py.or_str (topic request1) "general" = Py.or_str (topic request2) "general" ->
  _key (stream request1) (topic request1)
    = _key (stream request2) (topic request2)
  /\ get_or_create request2 (get_or_create request1 st).2
     = get_or_create request1 (get_or_create request1 st).2
  /\ (get_or_create request2 (get_or_create request1 st).2).1
     = (get_or_create request1 st).1
  /\ (forall stream,
        _key stream None = _key stream (Some "")
        /\ _key stream None = _key stream (Some "general"))
  /\ (forall topic, _key None topic = _key (Some "dm") topic).
Proof.
  intros Hs Ht.
  assert (_key (stream request1) (topic request1)
          = _key (stream request2) (topic request2)) as Hk.
  { unfold _key. by rewrite Hs, Ht. }
  pose proof (get_or_create_lookup request1 st) as H1.
  repeat split; try done.
  - rewrite (get_or_create_present request1 _ _ H1).
    apply get_or_create_present. by rewrite <- Hk.
  - rewrite Hk in H1. by rewrite (get_or_create_present request2 _ _ H1).
Qed.

Lemma key_not_injective_witness :
  (stream (mkTriageRequest "a@x" None None "down" []),
   topic (mkTriageRequest "a@x" None None "down" []))
  <> (stream (mkTriageRequest "b@x" (Some "dm") (Some "general") "again" []),
      topic (mkTriageRequest "b@x" (Some "dm") (Some "general") "again" []))
  /\ (get_or_create (mkTriageRequest "b@x" (Some "dm") (Some "general") "again" [])
        (get_or_create (mkTriageRequest "a@x" None None "down" [])
           empty_store).2).1
     = (get_or_create (mkTriageRequest "a@x" None None "down" []) empty_store).1.
Proof.
  split; [discriminate|].
  apply (key_not_injective empty_store
           (mkTriageRequest "a@x" None None "down" [])
           (mkTriageRequest "b@x" (Some "dm") (Some "general") "again" []));
    reflexivity.
Defined.

End StateProps.

(** ** Deep-link decoding *)

Module DecodeProps.

Import Main Spec.

Lemma hex_not_dot h : Py.is_hex h = true -> Ascii.eqb h "." = false.
Proof. destruct h as [[] [] [] [] [] [] [] []]; vm_compute; congruence. Qed.

Lemma is_escape_at_S c s i : is_escape_at (String c s) (S i) = is_escape_at s i.
Proof. reflexivity. Qed.

Lemma is_escape_at_hex h s : Py.is_hex h = true -> is_escape_at (String h s) 0 = false.
Proof.
  intros H. unfold is_escape_at. simpl.
  destruct s as [|h1 [|h2 s]]; try done.
  by rewrite (hex_not_dot h H).
Qed.

Lemma dot_to_percent_cons c s :
  dot_to_percent (String c s)
  = if Ascii.eqb c "." then
      match s with
      | String h1 (String h2 s'') =>
          if Py.is_hex h1 && Py.is_hex h2
          then String "%" (String h1 (String h2 (dot_to_percent s'')))
          else String c (dot_to_percent s)
      | _ => String c (dot_to_percent s)
      end
    else String c (dot_to_percent s).
Proof. reflexivity. Qed.

Lemma is_escape_at_0 c s :
  is_escape_at (String c s) 0
  = Ascii.eqb c "."
    && match s with
       | String h1 (String h2 _) => Py.is_hex h1 && Py.is_hex h2
       | _ => false
       end.
Proof.
  unfold is_escape_at. simpl.
  destruct s as [|h1 [|h2 s]]; simpl; rewrite ?andb_false_r; try done.
  by rewrite andb_assoc.
Qed.

(** The rewriting step goes by one or by three characters: induction on a
    bound of the length. *)
Lemma dot_to_percent_get_bounded n : forall s i,
  String.length s <= n ->
  String.get i (dot_to_percent s)
  = if is_escape_at s i then Some "%"%char else String.get i s.
Proof.
  induction n as [|n IH]; intros s i Hn.
  - destruct s; simpl in Hn; [|lia]. by destruct i.
  - destruct s as [|c s]; [by destruct i|].
    simpl in Hn. rewrite dot_to_percent_cons.
    assert (String.get i (String c (dot_to_percent s))
            = if is_escape_at (String c s) i
              then (if Nat.eqb i 0 then Some c else Some "%"%char)
              else String.get i (String c s)) as Hplain.
    { destruct i as [|i]; cbn [String.get Nat.eqb].
      - by destruct (is_escape_at (String c s) 0).
      - rewrite is_escape_at_S. apply IH. lia. }
    destruct i as [|i].
    + rewrite is_escape_at_0.
      destruct (Ascii.eqb c "."); [|done].
      destruct s as [|h1 [|h2 s]]; try done.
      by destruct (Py.is_hex h1 && Py.is_hex h2).
    + destruct (Ascii.eqb c "."); [|exact Hplain].
      destruct s as [|h1 [|h2 s]]; try exact Hplain.
      destruct (Py.is_hex h1 && Py.is_hex h2) eqn:Hh; [|exact Hplain].
      apply andb_true_iff in Hh as [H1 H2].
      rewrite is_escape_at_S.
      destruct i as [|[|i]]; cbn [String.get].
      * by rewrite (is_escape_at_hex _ _ H1).
      * by rewrite is_escape_at_S, (is_escape_at_hex _ _ H2).
      * rewrite !is_escape_at_S. apply IH. simpl in Hn. lia.
Qed.

Lemma dot_to_percent_length_bounded n : forall s,
  String.length s <= n -> String.length (dot_to_percent s) = String.length s.
Proof.
  induction n as [|n IH]; intros s Hn.
  - destruct s; simpl in Hn; [done|lia].
  - destruct s as [|c s]; [done|]. simpl in Hn. rewrite dot_to_percent_cons.
    assert (String.length (String c (dot_to_percent s))
            = String.length (String c s)) as Hplain.
    { cbn [String.length]. rewrite IH; lia. }
    destruct (Ascii.eqb c "."); [|exact Hplain].
    destruct s as [|h1 [|h2 s]]; try exact Hplain.
    destruct (Py.is_hex h1 && Py.is_hex h2); [|exact Hplain].
    cbn [String.length]. rewrite IH; [done|]. simpl in Hn. lia.
Qed.

(** C9.  Decoding a deep-link component first rewrites the text, keeping
    its length: a position holds a percent sign afterwards exactly where it
    held a dot followed by two hexadecimal digits, and every other position
    is unchanged; the rewritten text is then percent-decoded.  The topic
    segment Q.2eA decodes to Q.A, also through the extraction of a thread
    reference from a deep link. *)
Theorem decode_url_component_spec (decode_utf8 : string -> string)
    (encoded : string) :
  _decode_url_component decode_utf8 encoded
    = unquote decode_utf8 (dot_to_percent encoded)
  /\ String.length (dot_to_percent encoded) = String.length encoded
  /\ (forall i,
        String.get i (dot_to_percent encoded)
        = if is_escape_at encoded i then Some "%"%char
          else String.get i encoded)
  /\ dot_to_percent "Q.2eA" = "Q%2eA"
  /\ _decode_url_component decode_utf8 "Q.2eA" = "Q.A"
  /\ _extract_thread_reference decode_utf8
       "[#ops > Q.A](#narrow/channel/12-ops/topic/Q.2eA/near/345)"
       "#ops > Q.A"
     = Some ("ops", "Q.A").
Proof.
  split; [reflexivity|].
  split; [by apply (dot_to_percent_length_bounded (String.length encoded))|].
  split; [intros i; by apply (dot_to_percent_get_bounded (String.length encoded))|].
  repeat split; reflexivity.
Qed.

End DecodeProps.

(** ** Thread context *)

Module ThreadProps.

Import Main Spec.

Section WithCharref.

Variable charref_sub : string -> string.

Lemma add_thread_line_line_of thread_lines msg :
  add_thread_line charref_sub thread_lines msg
  = thread_lines ++ option_list (line_of charref_sub msg).
Proof.
  unfold add_thread_line, line_of.
  destruct (Py.is_empty _); simpl; [by rewrite app_nil_r|done].
Qed.

(** The loop appends the lines of the non-empty messages, in order. *)
Lemma thread_loop msgs : forall thread_lines,
  fold_left (add_thread_line charref_sub) msgs thread_lines
  = thread_lines ++ omap (line_of charref_sub) msgs.
Proof.
  induction msgs as [|msg msgs IH]; intros thread_lines; csimpl.
  - by rewrite app_nil_r.
  - rewrite IH, add_thread_line_line_of, <- app_assoc. f_equal.
    by destruct (line_of charref_sub msg).
Qed.

Lemma thread_lines_of_omap thread_messages :
  thread_lines_of charref_sub thread_messages
  = omap (line_of charref_sub) (Py.list_last_n 10 thread_messages).
Proof. unfold thread_lines_of. by rewrite thread_loop. Qed.

Lemma length_omap_le {A B} (f : A -> option B) l :
  length (omap f l) <= length l.
Proof. induction l as [|x l IH]; csimpl; [done|]. destruct (f x); csimpl; lia. Qed.

Lemma length_omap_all {A B} (f : A -> option B) l :
  Forall (fun x => is_Some (f x)) l -> length (omap f l) = length l.
Proof.
  induction 1 as [|x l [y Hy] _ IH]; csimpl; [done|]. rewrite Hy. csimpl. lia.
Qed.

Lemma list_last_n_short {A} n (l : list A) :
  length l <= n -> Py.list_last_n n l = l.
Proof.
  intros H. unfold Py.list_last_n. by replace (length l - n) with 0 by lia.
Qed.

Lemma list_last_n_app {A} n (a b : list A) :
  length b = n -> Py.list_last_n n (a ++ b) = b.
Proof.
  intros H. unfold Py.list_last_n. rewrite length_app.
  replace (length a + length b - n) with (length a) by lia.
  by rewrite skipn_app, skipn_all, Nat.sub_diag.
Qed.

Lemma length_list_last_n {A} n (l : list A) :
  length (Py.list_last_n n l) = Nat.min n (length l).
Proof. unfold Py.list_last_n. rewrite length_skipn. lia. Qed.

Lemma omap_split {A B} (f : A -> option B) k l :
  omap f l = omap f (List.firstn k l) ++ omap f (List.skipn k l).
Proof. by rewrite <- omap_app, firstn_skipn. Qed.

(** C3 (amended).  The thread-context lines are the lines of the non-empty
    messages among the last ten fetched messages, in the fetched order: at
    most ten lines, a final segment of the lines of all non-empty messages,
    and the last ten non-empty ones when none of the last ten fetched
    messages is empty.  When the fetch reports an error or delivers no
    message, the context is the empty list. *)
Theorem thread_context_spec (client : Zulip.ZulipBotClient)
    (fetch_stream fetch_topic : option string)
    (thread_messages : list Zulip.ThreadMessage) :
  thread_lines_of charref_sub thread_messages
    = omap (line_of charref_sub) (Py.list_last_n 10 thread_messages)
  /\ length (thread_lines_of charref_sub thread_messages) <= 10
  /\ thread_lines_of charref_sub thread_messages
       `suffix_of` omap (line_of charref_sub) thread_messages
  /\ (Forall (fun msg => is_Some (line_of charref_sub msg))
         (Py.list_last_n 10 thread_messages) ->
      thread_lines_of charref_sub thread_messages
      = last_nonempty_lines charref_sub thread_messages)
  /\ (Py.truthy fetch_stream && Py.truthy fetch_topic = true ->
      thread_context_of charref_sub client fetch_stream fetch_topic
      = thread_lines_of charref_sub
          (Zulip.fetch_thread_messages client (Py.format_opt fetch_stream)
             (Py.format_opt fetch_topic) 25))
  /\ (Zulip.gm_result
        (Zulip.get_messages client (Py.format_opt fetch_stream)
           (Py.format_opt fetch_topic) 25) <> Some "success" ->
      thread_context_of charref_sub client fetch_stream fetch_topic = [])
  /\ (Zulip.fetch_thread_messages client (Py.format_opt fetch_stream)
        (Py.format_opt fetch_topic) 25 = [] ->
      thread_context_of charref_sub client fetch_stream fetch_topic = []).
Proof.
  pose proof (thread_lines_of_omap thread_messages) as Heq.
  split; [done|]. split; [|split; [|split; [|split; [|split]]]].
  - rewrite Heq. etrans; [apply length_omap_le|].
    rewrite length_list_last_n. lia.
  - rewrite Heq. unfold Py.list_last_n.
    exists (omap (line_of charref_sub)
              (List.firstn (length thread_messages - 10) thread_messages)).
    apply omap_split.
  - intros Hall. rewrite Heq. unfold last_nonempty_lines.
    rewrite (omap_split (line_of charref_sub)
               (length thread_messages - 10) thread_messages).
    destruct (decide (length thread_messages <= 10)) as [Hle|Hgt].
    + unfold Py.list_last_n.
      replace (length thread_messages - 10) with 0 by lia. simpl.
      symmetry. apply list_last_n_short.
      etrans; [apply length_omap_le|done].
    + symmetry. apply list_last_n_app.
      rewrite (length_omap_all _ _ Hall), length_list_last_n. lia.
  - intros Hfetch. unfold thread_context_of. by rewrite Hfetch.
  - intros Herr. unfold thread_context_of.
    destruct (Py.truthy fetch_stream && Py.truthy fetch_topic); [|done].
    unfold Zulip.fetch_thread_messages.
    change (Z.max 1 25) with 25%Z.
    by rewrite bool_decide_eq_false_2.
  - intros Hnone. unfold thread_context_of.
    destruct (Py.truthy fetch_stream && Py.truthy fetch_topic); [|done].
    by rewrite Hnone.
Qed.

End WithCharref.

Lemma thread_context_spec_witness :
  thread_lines_of (fun s => s)
    [ Zulip.mkThreadMessage (Some "<p>db is <b>down</b></p>") (Some "Ann") None;
      Zulip.mkThreadMessage (Some "restarting") None (Some "bob@x") ]
  = last_nonempty_lines (fun s => s)
      [ Zulip.mkThreadMessage (Some "<p>db is <b>down</b></p>") (Some "Ann") None;
        Zulip.mkThreadMessage (Some "restarting") None (Some "bob@x") ]
  /\ thread_context_of (fun s => s)
       (Zulip.mkZulipBotClient "bot@x"
          (fun _ _ _ => Zulip.mkGetMessages (Some "error") None)
          (fun _ => Zulip.mkResponse (Some "success")))
       (Some "ops") (Some "deploy") = [].
Proof.
  split.
  - apply (thread_context_spec (fun s => s)
             (Zulip.mkZulipBotClient "bot@x"
                (fun _ _ _ => Zulip.mkGetMessages (Some "error") None)
                (fun _ => Zulip.mkResponse (Some "success")))
             (Some "ops") (Some "deploy")).
    repeat constructor; vm_compute; eauto.
  - apply (thread_context_spec (fun s => s)
             (Zulip.mkZulipBotClient "bot@x"
                (fun _ _ _ => Zulip.mkGetMessages (Some "error") None)
                (fun _ => Zulip.mkResponse (Some "success")))
             (Some "ops") (Some "deploy") []).
    first [ reflexivity | simpl; discriminate ].
Defined.

(** C3 as stated fails: of eleven fetched messages whose last one has no
    text, the program keeps nine lines, while the thread has ten non-empty
    messages. *)
Lemma thread_lines_counterexample :
  exists thread_messages,
    forall charref_sub,
      length (thread_lines_of charref_sub thread_messages) = 9
      /\ length (last_nonempty_lines charref_sub thread_messages) = 10
      /\ thread_lines_of charref_sub thread_messages
         <> last_nonempty_lines charref_sub thread_messages.
Proof.
  exists (replicate 10 (Zulip.mkThreadMessage (Some "still down") (Some "Ann") None)
            ++ [Zulip.mkThreadMessage (Some "<br>") (Some "Bob") None]).
  intros charref_sub.
  assert (length (thread_lines_of charref_sub
            (replicate 10 (Zulip.mkThreadMessage (Some "still down") (Some "Ann") None)
               ++ [Zulip.mkThreadMessage (Some "<br>") (Some "Bob") None])) = 9)
    as H9 by (vm_compute; reflexivity).
  assert (length (last_nonempty_lines charref_sub
            (replicate 10 (Zulip.mkThreadMessage (Some "still down") (Some "Ann") None)
               ++ [Zulip.mkThreadMessage (Some "<br>") (Some "Bob") None])) = 10)
    as H10 by (vm_compute; reflexivity).
  repeat split; [done..|]. intros Heq. rewrite Heq in H9. congruence.
Qed.

End ThreadProps.

(** ** The search cache *)

Module ToolsProps.

Import Tools Examples.

Section SearchCode.

Variable self : ToolRegistry.

(** A cache hit: the stored matches cut to the limit, no backend invoked,
    nothing changed. *)
Lemma search_code_hit env repo_name query limit directories st repo found :
  _repo self repo_name = Some repo ->
  cache st !! (repo_name, query) = Some found ->
  search_code env self repo_name query limit directories st
  = (Ok (Py.list_slice_to limit found), st).
Proof.
  intros Hrepo Hhit. unfold search_code. rewrite Hrepo.
  unfold bind, get_cache, Repo.get_search. simpl. by rewrite Hhit.
Qed.

(** An unknown repository: nothing is searched and nothing is stored. *)
Lemma search_code_unknown env repo_name query limit directories st :
  _repo self repo_name = None ->
  search_code env self repo_name query limit directories st = (Ok [], st).
Proof. intros Hrepo. unfold search_code. by rewrite Hrepo. Qed.

(** A call that returns leaves its result, or the older stored list it was
    cut from, in the cache. *)
Lemma search_code_stores env repo_name query limit directories st repo matches st' :
  _repo self repo_name = Some repo ->
  search_code env self repo_name query limit directories st = (Ok matches, st') ->
  match cache st !! (repo_name, query) with
  | Some found =>
      st' = st /\ matches = Py.list_slice_to limit found
  | None =>
      cache st' !! (repo_name, query) = Some matches
  end.
Proof.
  intros Hrepo. unfold search_code. rewrite Hrepo.
  unfold bind, get_cache, Repo.get_search. simpl.
  destruct (cache st !! (repo_name, query)) as [found|] eqn:Hc.
  - unfold ret. by intros [= <- <-].
  - destruct (sourcegraph self) as [sg|]; simpl.
    + destruct (Sourcegraph.enabled sg); simpl.
      * unfold lift.
        destruct (Sourcegraph.search sg repo_name query directories limit)
          as [sg_matches|exc]; simpl; [|done].
        destruct sg_matches as [|m sg_matches]; simpl.
        -- destruct (Repo.search env repo query limit); simpl; [|done].
           intros [= <- <-]. simpl. unfold Repo.cache_search.
           by rewrite lookup_insert_eq.
        -- intros [= <- <-]. simpl. unfold Repo.cache_search.
           by rewrite lookup_insert_eq.
      * unfold lift. destruct (Repo.search env repo query limit); simpl; [|done].
        intros [= <- <-]. simpl. unfold Repo.cache_search.
        by rewrite lookup_insert_eq.
    + unfold lift. destruct (Repo.search env repo query limit); simpl; [|done].
      intros [= <- <-]. simpl. unfold Repo.cache_search.
      by rewrite lookup_insert_eq.
Qed.

Lemma list_slice_to_all {A} (limit : Z) (l : list A) :
  (Z.of_nat (length l) <= limit)%Z -> Py.list_slice_to limit l = l.
Proof.
  intros H. unfold Py.list_slice_to.
  replace (0 <=? limit)%Z with true by (symmetry; apply Z.leb_le; lia).
  apply firstn_all2. lia.
Qed.

Lemma list_slice_to_idemp {A} (limit : Z) (l : list A) :
  (0 <= limit)%Z ->
  Py.list_slice_to limit (Py.list_slice_to limit l) = Py.list_slice_to limit l.
Proof.
  intros H. apply list_slice_to_all. unfold Py.list_slice_to.
  replace (0 <=? limit)%Z with true by (symmetry; apply Z.leb_le; lia).
  rewrite length_firstn. lia.
Qed.

(** What the cache guarantees after a call that returned: the key holds a
    stored list, and any later call, whatever the backends would answer by
    then ([env2]) and whatever its limit, invokes no backend, changes
    nothing and returns the stored list cut to its limit. *)
Lemma search_code_then_hit env1 repo_name query limit1 dirs1 st repo matches st1 :
  _repo self repo_name = Some repo ->
  search_code env1 self repo_name query limit1 dirs1 st = (Ok matches, st1) ->
  exists stored,
    cache st1 !! (repo_name, query) = Some stored
    /\ match cache st !! (repo_name, query) with
       | Some found => stored = found /\ matches = Py.list_slice_to limit1 found
       | None => stored = matches
       end
    /\ forall env2 limit2 dirs2,
         search_code env2 self repo_name query limit2 dirs2 st1
         = (Ok (Py.list_slice_to limit2 stored), st1).
Proof.
  intros Hrepo Hfirst.
  pose proof (search_code_stores _ _ _ _ _ _ _ _ _ Hrepo Hfirst) as Hst.
  destruct (cache st !! (repo_name, query)) as [found|] eqn:Hc.
  - destruct Hst as [-> ->]. exists found. repeat split; try done.
    intros. by apply search_code_hit with (repo := repo).
  - exists matches. repeat split; try done.
    intros. by apply search_code_hit with (repo := repo).
Qed.

(** The cache property under the bound the search backends are meant to
    keep: when the first call returns no more matches than the limit, a
    second call with the same limit returns the identical matches and
    invokes no backend. *)
Lemma search_code_twice_bounded env1 env2 repo_name query limit dirs1 dirs2
    st repo matches st1 :
  _repo self repo_name = Some repo ->
  search_code env1 self repo_name query limit dirs1 st = (Ok matches, st1) ->
  (0 <= limit)%Z ->
  (Z.of_nat (length matches) <= limit)%Z ->
  search_code env2 self repo_name query limit dirs2 st1 = (Ok matches, st1).
Proof.
  intros Hrepo Hfirst H0 Hlen.
  destruct (search_code_then_hit _ _ _ _ _ _ _ _ _ Hrepo Hfirst)
    as (stored & _ & Hrel & Hsecond).
  rewrite Hsecond. f_equal. f_equal.
  destruct (cache st !! (repo_name, query)) as [found|].
  - by destruct Hrel as [-> ->].
  - subst stored. by apply list_slice_to_all.
Qed.

End SearchCode.

(** C4, at the failing input.  With the limit 1 on that repository the
    first call returns both matches and stores them; the second call with
    the same limit invokes no backend and returns only the first match. *)
Theorem search_code_second_call_truncates :
  (search_code two_files adwyze_only "adwyze" "deploy" 1 None initial_state).1
  = Ok [ Repo.mkRepoMatch "app/a.rb" 3 "def deploy";
         Repo.mkRepoMatch "lib/b.rb" 7 "deploy!" ]
  /\ (search_code two_files adwyze_only "adwyze" "deploy" 1 None
        (search_code two_files adwyze_only "adwyze" "deploy" 1 None
           initial_state).2).1
     = Ok [ Repo.mkRepoMatch "app/a.rb" 3 "def deploy" ]
  /\ calls (search_code two_files adwyze_only "adwyze" "deploy" 1 None
              (search_code two_files adwyze_only "adwyze" "deploy" 1 None
                 initial_state).2).2
     = calls (search_code two_files adwyze_only "adwyze" "deploy" 1 None
                initial_state).2
  /\ calls (search_code two_files adwyze_only "adwyze" "deploy" 1 None
              initial_state).2
     = [LocalSearch "adwyze" "deploy"].
Proof.
  assert (search_code two_files adwyze_only "adwyze" "deploy" 1 None initial_state
          = (Ok [ Repo.mkRepoMatch "app/a.rb" 3 "def deploy";
                  Repo.mkRepoMatch "lib/b.rb" 7 "deploy!" ],
             {| cache := {[ ("adwyze", "deploy") :=
                              [ Repo.mkRepoMatch "app/a.rb" 3 "def deploy";
                                Repo.mkRepoMatch "lib/b.rb" 7 "deploy!" ] ]};
                calls := [LocalSearch "adwyze" "deploy"] |})) as Hfirst.
  { unfold search_code, bind, get_cache, put_cache, record_call, lift, ret,
      Repo.get_search, Repo.cache_search. simpl.
    rewrite lookup_empty. simpl. by rewrite insert_empty. }
  rewrite Hfirst. simpl.
  rewrite (search_code_hit adwyze_only two_files "adwyze" "deploy" 1 None _
             {| Repo.name := "adwyze"; Repo.root := "/srv/adwyze" |}
             [ Repo.mkRepoMatch "app/a.rb" 3 "def deploy";
               Repo.mkRepoMatch "lib/b.rb" 7 "deploy!" ]).
  - done.
  - done.
  - simpl. by rewrite lookup_singleton_eq.
Qed.

End ToolsProps.

(** ** The decision ladder *)

Module TriageProps.

Import Tools Triage Examples.

Lemma join_cons_nonempty sep x l : x <> "" -> Py.join sep (x :: l) <> "".
Proof.
  intros Hx. destruct x as [|c x]; [done|].
  destruct l; simpl; discriminate.
Qed.

Lemma report_nonempty keywords findings : Analyzer.report keywords findings <> "".
Proof. unfold Analyzer.report. cbv zeta. by apply join_cons_nonempty. Qed.

Lemma analyze_nonempty env analyzer incident_text summary :
  Analyzer.analyze env analyzer incident_text = Ok summary -> summary <> "".
Proof.
  unfold Analyzer.analyze. destruct (Analyzer.repos analyzer).
  - by intros [= <-].
  - destruct (Analyzer.inspect_repos _ _ _); simpl; [|done].
    intros [= <-]. apply report_nonempty.
Qed.

Lemma truthy_nonempty x : Py.truthy x = true -> exists s, x = Some s /\ s <> "".
Proof.
  destruct x as [[|c s]|]; simpl; try done. intros _. by eexists.
Qed.

(** With no repository in the registry, gathering searches nothing and
    finds nothing. *)
Lemma gather_no_repos env KEYWORD_LIMIT self request st :
  Tools.repos (registry self) = [] ->
  gather env KEYWORD_LIMIT self request st = (Ok [], st).
Proof.
  intros Hrepos. unfold gather, _resolve_service_hints, list_repos, repo_map.
  rewrite Hrepos. reflexivity.
Qed.

Section Run.

Variable env : Repo.Env.
Variable KEYWORD_LIMIT : Z.
Variable self : TriageService.
Variable request : TriageRequest.

(** C1.  [run] gathers the tool evidence first: an exception of the
    gathering is the outcome of [run], and the state [run] leaves is the one
    the gathering left.  When the gathering returned and the language-model
    tier is disabled or returns nothing or an empty text, the outcome of
    [run] is the analyzer's answer on the combined text of the request, in
    which the gathered results do not occur. *)
Theorem run_fallback st tool_results st' :
  gather env KEYWORD_LIMIT (orchestrator self) request st
    = (Ok tool_results, st') ->
  LLM.enabled (llm_agent self) = false
  \/ LLM.run (llm_agent self) request tool_results = Ok None
  \/ LLM.run (llm_agent self) request tool_results = Ok (Some "") ->
  run env KEYWORD_LIMIT self request st
  = (Analyzer.analyze env (analyzer self) (combined_text request), st').
Proof.
  intros Hgather Hllm. unfold run, bind. rewrite Hgather.
  destruct Hllm as [Hoff|[Hnone|Hempty]].
  - by rewrite Hoff.
  - destruct (LLM.enabled (llm_agent self)); [|done].
    unfold lift. by rewrite Hnone.
  - destruct (LLM.enabled (llm_agent self)); [|done].
    unfold lift. by rewrite Hempty.
Qed.

(** The evidence is gathered before anything else: when the gathering
    raises, so does [run], and nothing else happened. *)
Lemma run_gather_raises st exc st' :
  gather env KEYWORD_LIMIT (orchestrator self) request st = (Raise exc, st') ->
  run env KEYWORD_LIMIT self request st = (Raise exc, st').
Proof. intros Hgather. unfold run, bind. by rewrite Hgather. Qed.

(** C5.  A text that [run] returns is never empty; with the language-model
    tier disabled and no repository configured, [run] returns the sentence
    about the missing repositories, whatever keywords the text holds. *)
Theorem run_never_empty st :
  (forall summary st',
     run env KEYWORD_LIMIT self request st = (Ok summary, st') ->
     summary <> "")
  /\ (LLM.enabled (llm_agent self) = false ->
      Tools.repos (registry (orchestrator self)) = [] ->
      Analyzer.repos (analyzer self) = [] ->
      run env KEYWORD_LIMIT self request st
      = (Ok "I could not locate the local repos; please ensure they exist next to this project.",
         st)).
Proof.
  split.
  - intros summary st'. unfold run, bind.
    destruct (gather _ _ _ _ _) as [[tool_results|exc] st1]; [|done].
    destruct (LLM.enabled (llm_agent self)).
    + unfold lift.
      destruct (LLM.run _ _ _) as [llm_summary|exc]; simpl; [|done].
      destruct (Py.truthy llm_summary) eqn:Htruthy.
      * apply truthy_nonempty in Htruthy as (s & -> & Hs).
        unfold ret. by intros [= <- <-].
      * unfold lift. intros [= H <-]. by apply analyze_nonempty in H.
    + simpl. unfold lift. intros [= H <-]. by apply analyze_nonempty in H.
  - intros Hoff Hrepos Hanalyzer. unfold run, bind.
    rewrite (gather_no_repos env KEYWORD_LIMIT _ request st Hrepos), Hoff.
    unfold lift, Analyzer.analyze. by rewrite Hanalyzer.
Qed.

End Run.

Lemma run_fallback_witness :
  run two_files 12 service_llm_off deploy_request initial_state
  = (Analyzer.analyze two_files (analyzer service_llm_off)
       (combined_text deploy_request),
     (gather two_files 12 (orchestrator service_llm_off) deploy_request
        initial_state).2)
  /\ (gather two_files 12 (orchestrator service_llm_off) deploy_request
        initial_state).1 <> Ok [].
Proof.
  split.
  - apply (run_fallback two_files 12 service_llm_off deploy_request
             initial_state
             match (gather two_files 12 (orchestrator service_llm_off)
                      deploy_request initial_state).1 with
             | Ok tool_results => tool_results
             | Raise _ => []
             end).
    + vm_compute. reflexivity.
    + left. reflexivity.
  - vm_compute. discriminate.
Defined.

Lemma run_never_empty_witness :
  run two_files 12 service_no_repos deploy_request initial_state
  = (Ok "I could not locate the local repos; please ensure they exist next to this project.",
     initial_state).
Proof.
  apply (proj2 (run_never_empty two_files 12 service_no_repos deploy_request
                  initial_state)); reflexivity.
Defined.

End TriageProps.

(** ** The reply *)

Module ReplyProps.

Import Main Examples.

(** C6.  Whatever [run] does, the handler returns, hands exactly one reply
    to the chat service, addressed to the thread of the message, and stores
    the reply text in the incident record.  When [run] raised, the text is
    the failure sentence followed by the text of the exception. *)
Theorem run_triage_and_reply_replies (app : App) (message : Zulip.Message)
    (triage_request : TriageRequest) (incident : nat) (st : AppState) :
  exists summary st',
    _run_triage_and_reply app message triage_request incident st = (Ok tt, st')
    /\ sent st' = sent st
                  ++ [Zulip.reply_request (zulip_client app) message summary]
    /\ Zulip.req_content
         (Zulip.reply_request (zulip_client app) message summary) = summary
    /\ (Zulip.type message = "stream" ->
        Zulip.req_to (Zulip.reply_request (zulip_client app) message summary)
        = Zulip.DestChannel (Zulip.display_recipient message)
            (Zulip.subject message))
    /\ State.objects (incident_store st')
       = alter (State.update summary triage_request) incident
           (State.objects (incident_store st))
    /\ (forall exc,
          (Triage.run (env app) (KEYWORD_LIMIT app) (triage_service app)
             triage_request (tool_state st)).1 = Raise exc ->
          summary = "Unable to run automated analysis: " +:+ exc)
    /\ (forall text,
          (Triage.run (env app) (KEYWORD_LIMIT app) (triage_service app)
             triage_request (tool_state st)).1 = Ok text ->
          summary = text).
Proof.
  unfold _run_triage_and_reply.
  destruct (Triage.run _ _ _ _ _) as [ran tool_state'].
  eexists _, _. split; [reflexivity|]. simpl.
  split; [reflexivity|]. split; [reflexivity|]. split.
  { intros Htype. unfold Zulip.reply_request. simpl. by rewrite Htype. }
  split; [reflexivity|].
  split; [intros exc ->|intros text ->]; reflexivity.
Qed.

Lemma run_triage_and_reply_replies_witness :
  (_run_triage_and_reply app_rg_crashes deploy_message deploy_request 0
     fresh_state).1 = Ok tt
  /\ sent (_run_triage_and_reply app_rg_crashes deploy_message deploy_request 0
             fresh_state).2
     = [ {| Zulip.req_type := "stream";
            Zulip.req_content :=
              "Unable to run automated analysis: [Errno 13] Permission denied: 'rg'";
            Zulip.req_to := Zulip.DestChannel (Zulip.ToChannel "ops") "deploy" |} ].
Proof.
  destruct (run_triage_and_reply_replies app_rg_crashes deploy_message
              deploy_request 0 fresh_state)
    as (summary & st' & Hrun & Hsent & _ & _ & _ & Hexc & _).
  rewrite Hrun. split; [reflexivity|]. simpl. rewrite Hsent.
  rewrite (Hexc "[Errno 13] Permission denied: 'rg'"); [reflexivity|].
  vm_compute. reflexivity.
Defined.

End ReplyProps.

(** ** Keyword extraction *)

Module KeywordProps.

Import Spec.

Lemma in_list_elem_of x l : in_list x l = true <-> x ∈ l.
Proof.
  unfold in_list. rewrite existsb_exists. split.
  - intros (y & Hy & Heq). apply String.eqb_eq in Heq as ->.
    by apply list_elem_of_In.
  - intros H. exists x. split; [by apply list_elem_of_In|apply String.eqb_refl].
Qed.

Lemma in_list_false x l : in_list x l = false <-> x ∉ l.
Proof.
  rewrite <- in_list_elem_of. by destruct (in_list x l).
Qed.

(** *** First occurrences *)

Lemma index_of_app_in x l k : x ∈ l -> index_of x (l ++ k) = index_of x l.
Proof.
  induction l as [|y l IH]; intros H; [by apply elem_of_nil in H|].
  simpl. destruct (decide (y = x)); [done|].
  apply elem_of_cons in H as [->|H]; [done|]. by rewrite IH.
Qed.

Lemma index_of_lt x l : x ∈ l -> index_of x l < length l.
Proof.
  induction l as [|y l IH]; intros H; [by apply elem_of_nil in H|].
  simpl. destruct (decide (y = x)); [lia|].
  apply elem_of_cons in H as [->|H]; [done|]. apply IH in H. lia.
Qed.

Lemma index_of_snoc_new x l : x ∉ l -> index_of x (l ++ [x]) = length l.
Proof.
  induction l as [|y l IH]; intros H; simpl.
  - by destruct (decide (x = x)).
  - apply not_elem_of_cons in H as [Hne H].
    destruct (decide (y = x)); [done|]. by rewrite IH.
Qed.

Lemma count_of_app x l k : count_of x (l ++ k) = count_of x l + count_of x k.
Proof. induction l as [|y l IH]; simpl; [done|]. rewrite IH. lia. Qed.

Lemma count_of_notin x l : x ∉ l -> count_of x l = 0.
Proof.
  induction l as [|y l IH]; intros H; simpl; [done|].
  apply not_elem_of_cons in H as [Hne H].
  destruct (decide (y = x)); [done|]. by rewrite IH.
Qed.

Lemma count_of_in x l : x ∈ l -> 0 < count_of x l.
Proof.
  induction l as [|y l IH]; intros H; [by apply elem_of_nil in H|].
  simpl. destruct (decide (y = x)); [lia|].
  apply elem_of_cons in H as [->|H]; [done|]. by apply IH.
Qed.

Lemma firsts_snoc l x :
  firsts (l ++ [x]) = if in_list x (firsts l) then firsts l else firsts l ++ [x].
Proof. unfold firsts. by rewrite fold_left_app. Qed.

Lemma elem_of_firsts l : forall t, t ∈ firsts l <-> t ∈ l.
Proof.
  induction l as [|x l IH] using rev_ind; intros t; [done|].
  rewrite firsts_snoc, elem_of_app, list_elem_of_singleton.
  destruct (in_list x (firsts l)) eqn:Hin.
  - apply in_list_elem_of in Hin. rewrite IH in Hin |- *.
    split; [tauto|]. intros [H| ->]; done.
  - rewrite elem_of_app, list_elem_of_singleton, IH. tauto.
Qed.

Lemma NoDup_firsts l : NoDup (firsts l).
Proof.
  induction l as [|x l IH] using rev_ind; [constructor|].
  rewrite firsts_snoc. destruct (in_list x (firsts l)) eqn:Hin; [done|].
  apply in_list_false in Hin. apply NoDup_app. split; [done|].
  split; [|apply NoDup_singleton].
  intros y Hy ->%list_elem_of_singleton. done.
Qed.

(** A sorted list stays sorted under a relation that agrees on its entries. *)
Lemma StronglySorted_impl_elem_of {A} (R1 R2 : A -> A -> Prop) l :
  StronglySorted R1 l ->
  (forall a b, a ∈ l -> b ∈ l -> R1 a b -> R2 a b) ->
  StronglySorted R2 l.
Proof.
  induction 1 as [|x l Hs IH Hall]; intros Himp; constructor.
  - apply IH. intros a b Ha Hb. apply Himp; by right.
  - rewrite Forall_forall in Hall |- *. intros y Hy.
    apply Himp; [by left|by right|by apply Hall].
Qed.

Lemma StronglySorted_snoc {A} (R : A -> A -> Prop) l x :
  StronglySorted R l -> (forall y, y ∈ l -> R y x) -> StronglySorted R (l ++ [x]).
Proof.
  induction 1 as [|y l Hs IH Hall]; intros Hx; simpl.
  - repeat constructor.
  - constructor.
    + apply IH. intros z Hz. apply Hx. by right.
    + rewrite Forall_app. split; [done|].
      constructor; [|constructor]. apply Hx. by left.
Qed.

Lemma firsts_sorted l : StronglySorted (appears_before l) (firsts l).
Proof.
  unfold appears_before.
  induction l as [|x l IH] using rev_ind; [constructor|].
  rewrite firsts_snoc.
  assert (StronglySorted
            (fun a b => index_of a (l ++ [x]) < index_of b (l ++ [x]))
            (firsts l)) as Hold.
  { apply (StronglySorted_impl_elem_of _ _ _ IH).
    intros a b Ha Hb Hlt.
    apply (proj1 (elem_of_firsts l a)) in Ha.
    apply (proj1 (elem_of_firsts l b)) in Hb.
    by rewrite !index_of_app_in. }
  destruct (in_list x (firsts l)) eqn:Hin; [done|].
  apply in_list_false in Hin. rewrite elem_of_firsts in Hin.
  apply StronglySorted_snoc; [done|].
  intros y Hy. apply (proj1 (elem_of_firsts l y)) in Hy.
  rewrite index_of_app_in, index_of_snoc_new by done.
  by apply index_of_lt.
Qed.

(** *** The counter of the orchestration extractor *)

(** The loop counts the surviving tokens only. *)
Lemma fold_count_token tokens : forall counts,
  fold_left Triage.count_token tokens counts
  = fold_left (fun c t => Triage.incr t c)
      (List.filter
         (fun token => negb (in_list token Triage.STOP_WORDS)
                       && negb (Py.isdigit token)) tokens)
      counts.
Proof.
  induction tokens as [|t tokens IH]; intros counts; [done|].
  cbn [fold_left List.filter]. unfold Triage.count_token at 2.
  destruct (in_list t Triage.STOP_WORDS); cbn [negb andb]; [apply IH|].
  destruct (Py.isdigit t); cbn [negb fold_left]; apply IH.
Qed.

Lemma incr_present x (f g : string -> nat) ks :
  NoDup ks -> x ∈ ks ->
  (forall k, k ∈ ks -> g k = if decide (k = x) then S (f k) else f k) ->
  Triage.incr x ((fun k => (k, f k)) <$> ks) = (fun k => (k, g k)) <$> ks.
Proof.
  induction ks as [|k ks IH]; intros Hnd Hin Hg; [by apply elem_of_nil in Hin|].
  apply NoDup_cons in Hnd as [Hk Hnd]. csimpl.
  destruct (String.eqb k x) eqn:Heq.
  - apply String.eqb_eq in Heq as ->.
    rewrite (Hg x) by left. destruct (decide (x = x)); [|done].
    f_equal. apply list_fmap_ext. intros i k Hlook.
    apply list_elem_of_lookup_2 in Hlook.
    rewrite (Hg k) by (by right).
    destruct (decide (k = x)) as [->|]; done.
  - apply String.eqb_neq in Heq.
    apply elem_of_cons in Hin as [->|Hin]; [done|].
    rewrite (Hg k) by left. destruct (decide (k = x)); [done|].
    f_equal. apply IH; [done|done|]. intros k' Hk'. apply Hg. by right.
Qed.

Lemma incr_absent x (f : string -> nat) ks :
  x ∉ ks ->
  Triage.incr x ((fun k => (k, f k)) <$> ks)
  = ((fun k => (k, f k)) <$> ks) ++ [(x, 1)].
Proof.
  induction ks as [|k ks IH]; intros Hin; [done|].
  apply not_elem_of_cons in Hin as [Hne Hin]. csimpl.
  destruct (String.eqb k x) eqn:Heq.
  - apply String.eqb_eq in Heq. by subst.
  - f_equal. by apply IH.
Qed.

Lemma incr_counts_of l x : Triage.incr x (counts_of l) = counts_of (l ++ [x]).
Proof.
  unfold counts_of. rewrite firsts_snoc.
  destruct (in_list x (firsts l)) eqn:Hin.
  - apply in_list_elem_of in Hin.
    apply incr_present; [apply NoDup_firsts|done|].
    intros k _. rewrite count_of_app. simpl.
    destruct (decide (x = k)), (decide (k = x)); try congruence; lia.
  - apply in_list_false in Hin. rewrite incr_absent by done.
    rewrite fmap_app. csimpl. f_equal.
    + apply list_fmap_ext. intros i k Hlook.
      apply list_elem_of_lookup_2 in Hlook.
      rewrite count_of_app. simpl.
      destruct (decide (x = k)); [by subst|]. f_equal. lia.
    + rewrite count_of_app. simpl.
      rewrite count_of_notin by (by rewrite <- elem_of_firsts).
      by destruct (decide (x = x)).
Qed.

Lemma fold_incr l :
  fold_left (fun c t => Triage.incr t c) l [] = counts_of l.
Proof.
  induction l as [|x l IH] using rev_ind; [done|].
  rewrite fold_left_app. simpl. rewrite IH. apply incr_counts_of.
Qed.

(** *** The stable sort of [most_common] *)

Lemma insert_item_perm x s : Triage.insert_item x s ≡ₚ x :: s.
Proof.
  induction s as [|y s IH]; [done|]. simpl.
  destruct (x.2 <? y.2); [|done]. rewrite IH. apply Permutation_swap.
Qed.

Lemma sorted_desc_perm items : Triage.sorted_desc items ≡ₚ items.
Proof.
  induction items as [|x items IH]; [done|].
  unfold Triage.sorted_desc in *. simpl.
  rewrite insert_item_perm. by rewrite IH.
Qed.

Lemma item_ranks_before_le tokens a b :
  item_ranks_before tokens a b -> b.2 <= a.2.
Proof. unfold item_ranks_before. lia. Qed.

(** An item seen before all the items of a sorted list goes to its place. *)
Lemma insert_item_sorted tokens x s :
  StronglySorted (item_ranks_before tokens) s ->
  Forall (fun y => index_of x.1 tokens < index_of y.1 tokens) s ->
  StronglySorted (item_ranks_before tokens) (Triage.insert_item x s).
Proof.
  induction 1 as [|y s Hs IH Hall]; intros Hpos; simpl.
  - repeat constructor.
  - apply Forall_cons in Hpos as [Hy Hpos].
    destruct (x.2 <? y.2) eqn:Hlt.
    + apply Nat.ltb_lt in Hlt. constructor; [by apply IH|].
      rewrite insert_item_perm. constructor; [by left|done].
    + apply Nat.ltb_ge in Hlt. constructor; [by constructor|].
      constructor.
      * unfold item_ranks_before. lia.
      * rewrite Forall_forall in Hall, Hpos |- *. intros z Hz.
        pose proof (item_ranks_before_le _ _ _ (Hall z Hz)).
        pose proof (Hpos z Hz). unfold item_ranks_before. lia.
Qed.

Lemma sorted_desc_sorted tokens items :
  StronglySorted
    (fun a b => index_of a.1 tokens < index_of b.1 tokens) items ->
  StronglySorted (item_ranks_before tokens) (Triage.sorted_desc items).
Proof.
  induction 1 as [|x items Hs IH Hall]; [constructor|].
  unfold Triage.sorted_desc in *. simpl.
  apply insert_item_sorted; [done|].
  fold (Triage.sorted_desc items). by rewrite sorted_desc_perm.
Qed.

Lemma counts_of_keys l : (counts_of l).*1 = firsts l.
Proof.
  unfold counts_of. rewrite <- list_fmap_compose.
  rewrite <- (list_fmap_id (firsts l)) at 2. by apply list_fmap_ext.
Qed.

Lemma elem_of_counts_of l a : a ∈ counts_of l -> a.2 = count_of a.1 l.
Proof.
  unfold counts_of. intros (k & -> & _)%list_elem_of_fmap. done.
Qed.

Lemma counts_of_sorted l :
  StronglySorted (fun a b => index_of a.1 l < index_of b.1 l) (counts_of l).
Proof.
  unfold counts_of.
  apply (StronglySorted_fmap _ (appears_before l)); [|apply firsts_sorted].
  done.
Qed.

(** The keys of the sorted counter rank the distinct tokens. *)
Lemma sorted_counts_ranking l :
  let ranking := (Triage.sorted_desc (counts_of l)).*1 in
  NoDup ranking
  /\ (forall t, t ∈ ranking <-> t ∈ l)
  /\ StronglySorted (ranks_before l) ranking.
Proof.
  intros ranking. subst ranking. split; [|split].
  - rewrite sorted_desc_perm, counts_of_keys. apply NoDup_firsts.
  - intros t. rewrite sorted_desc_perm, counts_of_keys. apply elem_of_firsts.
  - pose proof (sorted_desc_sorted l _ (counts_of_sorted l)) as Hs.
    assert (Forall (fun a => a.2 = count_of a.1 l)
              (Triage.sorted_desc (counts_of l))) as Hc.
    { rewrite sorted_desc_perm. apply Forall_forall.
      intros a. apply elem_of_counts_of. }
    induction Hs as [|a s Hs IH Hall]; [constructor|].
    apply Forall_cons in Hc as [Ha Hc]. csimpl.
    constructor; [by apply IH|].
    apply Forall_fmap. rewrite Forall_forall in Hall, Hc |- *.
    intros b Hb. specialize (Hall b Hb). specialize (Hc b Hb).
    unfold item_ranks_before in Hall. unfold ranks_before. simpl.
    rewrite <- Ha, <- Hc. done.
Qed.

(** *** The loop of the fallback analyzer *)

Lemma fold_firsts_prefix l : forall acc,
  exists rest,
    fold_left (fun acc x => if in_list x acc then acc else acc ++ [x]) l acc
    = acc ++ rest.
Proof.
  induction l as [|x l IH]; intros acc; simpl.
  - exists []. by rewrite app_nil_r.
  - destruct (in_list x acc); [apply IH|].
    destruct (IH (acc ++ [x])) as [rest ->].
    exists (x :: rest). by rewrite <- app_assoc.
Qed.

(** While the limit is not reached, the loop collects first occurrences of
    the surviving tokens and stops at the limit. *)
Lemma keyword_loop_firsts limit tokens : forall keywords,
  (Z.of_nat (length keywords) < limit)%Z ->
  Analyzer.keyword_loop limit tokens keywords
  = take (Z.to_nat limit)
      (fold_left (fun acc x => if in_list x acc then acc else acc ++ [x])
         (List.filter (fun token => negb (in_list token Analyzer.STOP_WORDS))
            tokens)
         keywords).
Proof.
  induction tokens as [|t tokens IH]; intros keywords Hlen.
  - simpl. rewrite take_ge; [done|lia].
  - cbn [Analyzer.keyword_loop List.filter].
    destruct (in_list t Analyzer.STOP_WORDS); cbn [negb]; [by apply IH|].
    cbn [fold_left]. destruct (in_list t keywords); [by apply IH|].
    cbv zeta. destruct (limit <=? _)%Z eqn:Hle.
    + apply Z.leb_le in Hle. rewrite length_app in Hle. simpl in Hle.
      destruct (fold_firsts_prefix
                  (List.filter
                     (fun token => negb (in_list token Analyzer.STOP_WORDS))
                     tokens)
                  (keywords ++ [t])) as [rest ->].
      rewrite take_app_length'; [done|].
      rewrite length_app. simpl. lia.
    + apply Z.leb_gt in Hle. by apply IH.
Qed.

(** *** The two extractors *)

Lemma triage_extract_keywords_ranked (KEYWORD_LIMIT : Z) (text : string) :
  ranked_by_frequency (Z.to_nat KEYWORD_LIMIT) (triage_survivors text)
    (Triage._extract_keywords KEYWORD_LIMIT text).
Proof.
  unfold ranked_by_frequency, top_of, Triage._extract_keywords,
    Triage.most_common.
  cbv zeta. rewrite fold_count_token. fold (triage_survivors text).
  rewrite fold_incr.
  exists (Triage.sorted_desc (counts_of (triage_survivors text))).*1.
  split; [apply fmap_take|]. apply sorted_counts_ranking.
Qed.

Lemma analyzer_extract_keywords_in_order (text : string) (limit : Z) :
  (0 < limit)%Z ->
  in_order_of_appearance (Z.to_nat limit) (analyzer_survivors text)
    (Analyzer._extract_keywords text limit).
Proof.
  intros Hlimit.
  unfold in_order_of_appearance, top_of, Analyzer._extract_keywords.
  rewrite keyword_loop_firsts by (simpl; lia).
  fold (analyzer_survivors text). fold (firsts (analyzer_survivors text)).
  exists (firsts (analyzer_survivors text)).
  split; [done|]. split; [apply NoDup_firsts|].
  split; [apply elem_of_firsts|apply firsts_sorted].
Qed.

(** C2 (amended): for every text, the orchestration extractor returns its
    surviving tokens ranked by descending frequency, ties broken by the order
    of first appearance, cut to the top [KEYWORD_LIMIT] (12 by default); the
    extractor of the fallback analyzer returns the distinct surviving tokens
    in the order of first appearance, whatever their frequency, cut to the
    first [limit] (4 by default) when [limit] is positive. *)
Theorem extract_keywords_spec (KEYWORD_LIMIT limit : Z) (text : string) :
  (0 < limit)%Z ->
  ranked_by_frequency (Z.to_nat KEYWORD_LIMIT) (triage_survivors text)
    (Triage._extract_keywords KEYWORD_LIMIT text)
  /\ in_order_of_appearance (Z.to_nat limit) (analyzer_survivors text)
       (Analyzer._extract_keywords text limit).
Proof.
  intros Hlimit. split.
  - apply triage_extract_keywords_ranked.
  - by apply analyzer_extract_keywords_in_order.
Qed.

Lemma extract_keywords_spec_witness :
  (0 < Analyzer.DEFAULT_LIMIT)%Z
  /\ ranked_by_frequency (Z.to_nat Triage.DEFAULT_KEYWORD_LIMIT)
       (triage_survivors "beta alpha alpha")
       (Triage._extract_keywords Triage.DEFAULT_KEYWORD_LIMIT
          "beta alpha alpha")
  /\ in_order_of_appearance (Z.to_nat Analyzer.DEFAULT_LIMIT)
       (analyzer_survivors "beta alpha alpha")
       (Analyzer._extract_keywords "beta alpha alpha" Analyzer.DEFAULT_LIMIT).
Proof.
  split; [reflexivity|].
  apply (extract_keywords_spec Triage.DEFAULT_KEYWORD_LIMIT
           Analyzer.DEFAULT_LIMIT "beta alpha alpha").
  reflexivity.
Defined.

(** C2 as stated fails for the fallback analyzer: on "beta alpha alpha" it
    returns "beta" before "alpha", although "alpha" is the more frequent
    token; the orchestration extractor returns "alpha" first. *)
Lemma analyzer_keywords_not_ranked :
  Analyzer._extract_keywords "beta alpha alpha" Analyzer.DEFAULT_LIMIT
  = ["beta"; "alpha"]
  /\ Triage._extract_keywords Triage.DEFAULT_KEYWORD_LIMIT "beta alpha alpha"
     = ["alpha"; "beta"]
  /\ ~ ranked_by_frequency (Z.to_nat Analyzer.DEFAULT_LIMIT)
         (analyzer_survivors "beta alpha alpha")
         (Analyzer._extract_keywords "beta alpha alpha"
            Analyzer.DEFAULT_LIMIT).
Proof.
  split; [vm_compute; reflexivity|]. split; [vm_compute; reflexivity|].
  intros (ranking & Hres & _ & _ & Hsorted).
  assert (Analyzer._extract_keywords "beta alpha alpha" Analyzer.DEFAULT_LIMIT
          = ["beta"; "alpha"]) as Heq by (vm_compute; reflexivity).
  assert (analyzer_survivors "beta alpha alpha" = ["beta"; "alpha"; "alpha"])
    as Hsurv by (vm_compute; reflexivity).
  rewrite Heq in Hres. rewrite Hsurv in Hsorted.
  change (Z.to_nat Analyzer.DEFAULT_LIMIT) with 4 in Hres.
  assert (ranking = ["beta"; "alpha"]) as ->.
  { assert (length ranking = 2) as Hlen.
    { apply (f_equal length) in Hres. rewrite length_take in Hres.
      change (length ["beta"; "alpha"]) with 2 in Hres. lia. }
    rewrite take_ge in Hres by lia. done. }
  apply StronglySorted_inv in Hsorted as [_ Hall].
  apply Forall_cons in Hall as [Hrank _].
  unfold ranks_before in Hrank. vm_compute in Hrank.
  destruct Hrank as [Hlt|[Heq' _]]; [|discriminate].
  repeat (apply le_S_n in Hlt). inversion Hlt.
Qed.

End KeywordProps.

(** ** The incident store: lookups and invariants *)

Module StoreProps.

Import State.

(** X1: after [get_or_create] the record is found under the request's channel
    and topic, a second [get_or_create] returns the same record and leaves the
    store as it is, lookups under any other key and the records already in the
    store are untouched; the store starts empty. *)
Theorem get_or_create_find request st :
  find (stream request) (topic request) (get_or_create request st).2
    = Some (get_or_create request st).1
  /\ get_or_create request (get_or_create request st).2
     = get_or_create request st
  /\ (forall stream' topic',
        _key stream' topic' <> _key (stream request) (topic request) ->
        find stream' topic' (get_or_create request st).2
        = find stream' topic' st)
  /\ (forall r rec,
        objects st !! r = Some rec ->
        objects (get_or_create request st).2 !! r = Some rec)
  /\ (forall stream' topic', find stream' topic' empty_store = None).
Proof.
  split; [|split; [|split; [|split]]].
  - apply StateProps.get_or_create_lookup.
  - pose proof (StateProps.get_or_create_lookup request st) as Hlook.
    rewrite (StateProps.get_or_create_present _ _ _ Hlook).
    by destruct (get_or_create request st).
  - intros stream' topic' Hne. unfold find, get_or_create.
    destruct (_incidents st !! _key (stream request) (topic request));
      simpl; [done|].
    by rewrite lookup_insert_ne.
  - intros r rec Hrec. unfold get_or_create.
    destruct (_incidents st !! _key (stream request) (topic request));
      simpl; [done|].
    by apply lookup_app_l_Some.
  - intros stream' topic'. unfold find. simpl. apply lookup_empty.
Qed.

Lemma update_at_lookup r summary request st r' rec' :
  objects (update_at r summary request st) !! r' = Some rec' ->
  exists rec,
    objects st !! r' = Some rec
    /\ rec' = (if decide (r = r') then update summary request rec else rec).
Proof.
  unfold update_at. simpl. intros Hlook.
  destruct (decide (r = r')) as [->|Hne].
  - rewrite list_lookup_alter_eq in Hlook.
    destruct (objects st !! r') as [rec|]; simpl in Hlook; [|done].
    exists rec. split; [done|]. congruence.
  - rewrite list_lookup_alter_ne in Hlook by done. by exists rec'.
Qed.

Lemma get_or_create_objects request st r rec :
  objects (get_or_create request st).2 !! r = Some rec ->
  objects st !! r = Some rec
  \/ rec = {| rec_stream := stream request; rec_topic := topic request;
              last_summary := None; last_request := None; history := [] |}.
Proof.
  unfold get_or_create.
  destruct (_incidents st !! _key (stream request) (topic request));
    simpl; [by left|].
  intros [Hl|[_ Hr]]%lookup_app_Some; [by left|right].
  apply list_lookup_singleton_Some in Hr as [_ <-]. done.
Qed.

(** X2: in every store the program can reach, the last summary of a record is
    the last entry of its history, and a record has a last summary exactly
    when it has a history and exactly when it has a last request. *)
Theorem reachable_record_history st r rec :
  reachable st ->
  objects st !! r = Some rec ->
  last (history rec) = last_summary rec
  /\ (last_summary rec = None <-> history rec = [])
  /\ (last_summary rec = None <-> last_request rec = None).
Proof.
  unfold reachable. intros Hev. revert r rec.
  induction Hev as [|request st Hev IH|r0 summary request st Hev IH];
    intros r rec Hrec.
  - simpl in Hrec. by rewrite lookup_nil in Hrec.
  - apply get_or_create_objects in Hrec as [Hrec| ->]; [by apply (IH r)|done].
  - apply update_at_lookup in Hrec as (rec0 & Hrec0 & ->).
    destruct (decide (r0 = r)); [|by apply (IH r)].
    simpl. rewrite last_snoc. repeat split; try done.
    intros Hnil. by apply app_nil in Hnil as [_ ?].
Qed.

Lemma reachable_record_history_witness :
  last (history
          (update "restart the worker"
             (mkTriageRequest "a@x" (Some "ops") (Some "deploy") "down" [])
             (mkIncidentRecord (Some "ops") (Some "deploy") None None [])))
  = Some "restart the worker".
Proof.
  apply (reachable_record_history
           (update_at 0 "restart the worker"
              (mkTriageRequest "a@x" (Some "ops") (Some "deploy") "down" [])
              (get_or_create
                 (mkTriageRequest "a@x" (Some "ops") (Some "deploy") "down" [])
                 empty_store).2) 0).
  - apply evolves_update, evolves_get_or_create, evolves_refl.
  - reflexivity.
Defined.

(** X3: in every store the program can reach, a record found under a key is
    in the heap and carries a channel and a topic that give this key: records
    are filed under the key of the request that created them. *)
Theorem reachable_filed_under_key st k r :
  reachable st ->
  _incidents st !! k = Some r ->
  exists rec,
    objects st !! r = Some rec
    /\ _key (rec_stream rec) (rec_topic rec) = k.
Proof.
  unfold reachable. intros Hev. revert k r.
  induction Hev as [|request st Hev IH|r0 summary request st Hev IH];
    intros k r Hk.
  - simpl in Hk. by rewrite lookup_empty in Hk.
  - revert Hk. unfold get_or_create.
    destruct (_incidents st !! _key (stream request) (topic request))
      eqn:Hkey; simpl; [by apply IH|].
    intros [[<- <-]|[Hne Hk]]%lookup_insert_Some.
    + eexists. split; [apply list_lookup_middle; done|done].
    + destruct (IH _ _ Hk) as (rec & Hrec & Hrk).
      exists rec. split; [by apply lookup_app_l_Some|done].
  - simpl in Hk. destruct (IH _ _ Hk) as (rec & Hrec & Hrk).
    unfold update_at. simpl.
    destruct (decide (r0 = r)) as [->|Hne].
    + exists (update summary request rec).
      rewrite list_lookup_alter_eq, Hrec. done.
    + exists rec. by rewrite list_lookup_alter_ne.
Qed.

Lemma reachable_filed_under_key_witness :
  exists rec,
    objects (get_or_create
               (mkTriageRequest "a@x" (Some "ops") None "down" [])
               empty_store).2 !! 0 = Some rec
    /\ _key (rec_stream rec) (rec_topic rec) = "ops::general".
Proof.
  apply (reachable_filed_under_key
           (get_or_create
              (mkTriageRequest "a@x" (Some "ops") None "down" [])
              empty_store).2 "ops::general" 0).
  - apply evolves_get_or_create, evolves_refl.
  - reflexivity.
Defined.

End StoreProps.

(** ** Facts about the string primitives *)

From Stdlib Require DecimalPos.

Module PyFacts.

Import Notions.

Lemma str_app_cons c (a b : string) : String c a +:+ b = String c (a +:+ b).
Proof. done. Qed.

Lemma str_app_nil_l (s : string) : "" +:+ s = s.
Proof. done. Qed.

Lemma str_app_nil_r (s : string) : s +:+ "" = s.
Proof.
  induction s as [|c s IH]; [done|]. by rewrite str_app_cons, IH.
Qed.

Lemma str_app_assoc (a b c : string) : (a +:+ b) +:+ c = a +:+ (b +:+ c).
Proof.
  induction a as [|x a IH]; [done|]. by rewrite !str_app_cons, IH.
Qed.

Lemma str_app_length (a b : string) :
  String.length (a +:+ b) = String.length a + String.length b.
Proof.
  induction a as [|x a IH]; [done|]. rewrite str_app_cons. simpl.
  by rewrite IH.
Qed.

Lemma is_empty_true s : Py.is_empty s = true <-> s = "".
Proof. by destruct s. Qed.

Lemma is_empty_false s : Py.is_empty s = false <-> s <> "".
Proof. by destruct s. Qed.

(** *** [strip] *)

Lemma lstrip_head s : no_space_head (Py.lstrip s).
Proof.
  induction s as [|c s IH]; simpl; [done|].
  destruct (Py.is_space c) eqn:Hc; [done|]. simpl. done.
Qed.

Lemma lstrip_no_space_head s : no_space_head s -> Py.lstrip s = s.
Proof. destruct s as [|c s]; simpl; [done|]. by intros ->. Qed.

Lemma rstrip_cons c s :
  Py.rstrip (String c s)
  = match Py.rstrip s with
    | EmptyString => if Py.is_space c then EmptyString else String c EmptyString
    | r => String c r
    end.
Proof. done. Qed.

Lemma rstrip_idemp s : Py.rstrip (Py.rstrip s) = Py.rstrip s.
Proof.
  induction s as [|c s IH]; [done|].
  rewrite rstrip_cons. destruct (Py.rstrip s) as [|d r] eqn:Hr.
  - destruct (Py.is_space c) eqn:Hc; [done|].
    rewrite rstrip_cons. simpl. by rewrite Hc.
  - rewrite rstrip_cons, IH. done.
Qed.

Lemma rstrip_head s : no_space_head s -> no_space_head (Py.rstrip s).
Proof.
  destruct s as [|c s]; [done|]. simpl. intros Hc.
  destruct (Py.rstrip s); [by rewrite Hc|done].
Qed.

Lemma strip_idemp s : Py.strip (Py.strip s) = Py.strip s.
Proof.
  unfold Py.strip.
  rewrite (lstrip_no_space_head (Py.rstrip (Py.lstrip s))).
  - apply rstrip_idemp.
  - apply rstrip_head, lstrip_head.
Qed.

Lemma strip_empty : Py.strip "" = "".
Proof. done. Qed.

(** *** [split] on a character and [join] *)

Lemma split_char_from_nonempty sep s : forall cur,
  Py.split_char_from sep cur s <> [].
Proof.
  induction s as [|c s IH]; intros cur; simpl; [done|].
  destruct (Ascii.eqb c sep); [done|apply IH].
Qed.

Lemma join_cons_cons sep x y l :
  Py.join sep (x :: y :: l) = x +:+ sep +:+ Py.join sep (y :: l).
Proof. done. Qed.

(** Joining the pieces gives the text back. *)
Lemma split_char_from_join sep s : forall cur,
  Py.join (String sep "") (Py.split_char_from sep cur s) = cur +:+ s.
Proof.
  induction s as [|c s IH]; intros cur; simpl.
  - by rewrite str_app_nil_r.
  - destruct (Ascii.eqb c sep) eqn:Hc.
    + apply Ascii.eqb_eq in Hc as ->.
      pose proof (split_char_from_nonempty sep s "") as Hne.
      specialize (IH ""). destruct (Py.split_char_from sep "" s) as [|y l];
        [done|].
      rewrite join_cons_cons, IH. done.
    + rewrite IH, str_app_assoc. done.
Qed.

Lemma contains_char_app c a b :
  Py.contains_char c (a +:+ b) = Py.contains_char c a || Py.contains_char c b.
Proof.
  induction a as [|x a IH]; [done|]. rewrite str_app_cons. simpl.
  rewrite IH. by rewrite orb_assoc.
Qed.

(** No piece holds the separator. *)
Lemma split_char_from_no_sep sep s : forall cur,
  Py.contains_char sep cur = false ->
  Forall (fun piece => Py.contains_char sep piece = false)
    (Py.split_char_from sep cur s).
Proof.
  induction s as [|c s IH]; intros cur Hcur; simpl.
  - by constructor.
  - destruct (Ascii.eqb c sep) eqn:Hc.
    + constructor; [done|]. by apply IH.
    + apply IH. rewrite contains_char_app, Hcur. simpl.
      rewrite Ascii.eqb_sym, Hc. done.
Qed.

Lemma split_char_from_app sep x rest : forall cur,
  Py.contains_char sep x = false ->
  Py.split_char_from sep cur (x +:+ rest)
  = Py.split_char_from sep (cur +:+ x) rest.
Proof.
  induction x as [|c x IH]; intros cur Hx.
  - by rewrite str_app_nil_l, str_app_nil_r.
  - simpl in Hx. apply orb_false_iff in Hx as [Hc Hx].
    rewrite str_app_cons. simpl.
    rewrite Ascii.eqb_sym, Hc, IH by done.
    by rewrite str_app_assoc.
Qed.

(** Splitting a joined list of pieces without separator gives the pieces. *)
Lemma split_char_from_joined sep l : forall cur x,
  Forall (fun piece => Py.contains_char sep piece = false) (x :: l) ->
  Py.split_char_from sep cur (Py.join (String sep "") (x :: l))
  = (cur +:+ x) :: l.
Proof.
  induction l as [|y l IH]; intros cur x Hall.
  - simpl. apply Forall_cons in Hall as [Hx _].
    rewrite <- (str_app_nil_r x) at 1.
    by rewrite split_char_from_app.
  - apply Forall_cons in Hall as [Hx Hall].
    rewrite join_cons_cons, split_char_from_app by done.
    rewrite str_app_cons, str_app_nil_l. cbn [Py.split_char_from].
    rewrite Ascii.eqb_refl. rewrite IH by done. done.
Qed.

(** *** Decimal numerals *)

Lemma string_of_uint_digits d :
  Py.all_chars Py.is_digit (DecimalString.NilEmpty.string_of_uint d) = true.
Proof. induction d; simpl; try done; by rewrite IHd. Qed.

(** [int(str(n))] is [n] for a natural number [n]. *)
Lemma int_of_digits_str_of_Z (n : Z) :
  (0 <= n)%Z -> Py.int_of_digits (Py.str_of_Z n) = Some n.
Proof.
  intros Hn. unfold Py.int_of_digits, Py.str_of_Z.
  destruct n as [|p|p]; [done| |lia].
  cbn [Z.to_int DecimalString.NilZero.string_of_int].
  pose proof (DecimalPos.Unsigned.to_uint_nonnil p) as Hnil.
  assert (Py.isdigit (DecimalString.NilZero.string_of_uint (Pos.to_uint p))
          = true) as ->.
  { unfold Py.isdigit, DecimalString.NilZero.string_of_uint.
    pose proof (string_of_uint_digits (Pos.to_uint p)) as Hd.
    destruct (Pos.to_uint p); try done; rewrite Hd; done. }
  rewrite DecimalString.NilZero.usu by done. simpl.
  unfold Z.of_uint. by rewrite DecimalPos.Unsigned.of_to.
Qed.

End PyFacts.

(** ** Lower case *)

Module LowerProps.

Import Notions PyFacts.

(** Induction on a text two characters at a time, as [lower] reads it. *)
Lemma string_ind2 (P : string -> Prop) :
  P "" ->
  (forall c, P (String c "")) ->
  (forall c d s, P s -> P (String d s) -> P (String c (String d s))) ->
  forall s, P s.
Proof.
  intros Hnil Hone Htwo s.
  assert (P s /\ forall c, P (String c s)) as [H _]; [|exact H].
  induction s as [|d s [IH1 IH2]]; [by split|].
  split; [apply IH2|]. intros c. by apply Htwo.
Qed.

Lemma lower_cons c s :
  no_dotted_I_at c s ->
  Py.lower (String c s) = String (Py.lower_char c) (Py.lower s).
Proof.
  destruct s as [|d s]; [done|]. unfold no_dotted_I_at. intros H.
  change (Py.lower (String c (String d s)))
    with (if Py.is_dotted_I c d
          then String "i"
                 (String (ascii_of_nat 204)
                    (String (ascii_of_nat 135) (Py.lower s)))
          else String (Py.lower_char c) (Py.lower (String d s))).
  by rewrite H.
Qed.

Lemma lower_dotted c d s :
  Py.is_dotted_I c d = true ->
  Py.lower (String c (String d s))
  = String "i"
      (String (ascii_of_nat 204) (String (ascii_of_nat 135) (Py.lower s))).
Proof.
  intros H.
  change (Py.lower (String c (String d s)))
    with (if Py.is_dotted_I c d
          then String "i"
                 (String (ascii_of_nat 204)
                    (String (ascii_of_nat 135) (Py.lower s)))
          else String (Py.lower_char c) (Py.lower (String d s))).
  by rewrite H.
Qed.

Lemma dotted_codes c d :
  Py.is_dotted_I c d = true -> c = ascii_of_nat 196 /\ d = ascii_of_nat 176.
Proof.
  unfold Py.is_dotted_I, Py.code. intros [Hc Hd]%andb_true_iff.
  apply Nat.eqb_eq in Hc, Hd.
  split; [rewrite <- (ascii_nat_embedding c), Hc
         |rewrite <- (ascii_nat_embedding d), Hd]; done.
Qed.

(** The cases of [lower] on a text that is not empty. *)
Lemma lower_cases c s :
  (no_dotted_I_at c s
   /\ Py.lower (String c s) = String (Py.lower_char c) (Py.lower s))
  \/ (exists s', s = String (ascii_of_nat 176) s'
        /\ c = ascii_of_nat 196
        /\ Py.lower (String c s)
           = String "i"
               (String (ascii_of_nat 204)
                  (String (ascii_of_nat 135) (Py.lower s')))).
Proof.
  destruct s as [|d s]; [by left|].
  destruct (Py.is_dotted_I c d) eqn:H.
  - right. exists s. destruct (dotted_codes c d H) as [-> ->].
    split; [done|]. split; [done|]. by apply lower_dotted.
  - left. split; [done|]. by apply lower_cons.
Qed.

Lemma lower_char_idemp c : Py.lower_char (Py.lower_char c) = Py.lower_char c.
Proof. destruct c as [[] [] [] [] [] [] [] []]; reflexivity. Qed.

Lemma lower_char_not_176 c :
  Py.lower_char c = ascii_of_nat 176 -> c = ascii_of_nat 176.
Proof. destruct c as [[] [] [] [] [] [] [] []]; vm_compute; congruence. Qed.

Lemma lower_char_not_196 c :
  Py.lower_char c = ascii_of_nat 196 -> c = ascii_of_nat 196.
Proof. destruct c as [[] [] [] [] [] [] [] []]; vm_compute; congruence. Qed.

(** [lower] never makes a text shorter. *)
Lemma lower_length_le s : String.length s <= String.length (Py.lower s).
Proof.
  induction s as [| |c d s IH1 IH2] using string_ind2; [done|done|].
  destruct (lower_cases c (String d s)) as [[_ ->]|(s' & [= -> ->] & _ & ->)];
    simpl in *; lia.
Qed.

Lemma lower_empty s : Py.lower s = "" <-> s = "".
Proof.
  split; [|by intros ->]. destruct s as [|c s]; [done|].
  by destruct (lower_cases c s) as [[_ ->]|(s' & _ & _ & ->)].
Qed.

(** The head of a lower-cased text is [i] or the lower-case form of the
    head of the text. *)
Lemma lower_head d s :
  exists x rest,
    Py.lower (String d s) = String x rest
    /\ (x = Py.lower_char d \/ (x = "i"%char /\ d = ascii_of_nat 196)).
Proof.
  destruct (lower_cases d s) as [[_ ->]|(s' & _ & -> & ->)];
    eexists _, _; (split; [done|]); [by left|by right].
Qed.

Lemma lower_idemp s : Py.lower (Py.lower s) = Py.lower s.
Proof.
  induction s as [|c|c d s IH1 IH2] using string_ind2; [done| |].
  - cbn [Py.lower]. by rewrite lower_char_idemp.
  - destruct (lower_cases c (String d s))
      as [[Hc ->]|(s' & [= -> ->] & _ & ->)].
    + rewrite lower_cons, lower_char_idemp, IH2; [done|].
      destruct (lower_head d s) as (x & rest & -> & Hx).
      unfold no_dotted_I_at in *.
      destruct (Py.is_dotted_I (Py.lower_char c) x) eqn:Hd; [|done].
      apply dotted_codes in Hd as [Hc' ->].
      apply lower_char_not_196 in Hc' as ->.
      destruct Hx as [Hx|[Hx _]]; [|done].
      symmetry in Hx. apply lower_char_not_176 in Hx as ->. done.
    + rewrite lower_cons by done. rewrite lower_cons by done.
      rewrite lower_cons, IH1; [done|].
      unfold no_dotted_I_at. by destruct (Py.lower s').
Qed.

Lemma length_take_le n s : String.length (Py.take n s) <= n.
Proof.
  revert s. induction n as [|n IH]; intros [|c s]; simpl; try lia.
  specialize (IH s). lia.
Qed.





(** Lowering keeps the length of a text exactly when the text holds no
    U+0130. *)
Lemma lower_keeps_length s :
  String.length (Py.lower s) = String.length s
  <-> forall k c d,
        String.get k s = Some c -> String.get (S k) s = Some d ->
        Py.is_dotted_I c d = false.
Proof.
  induction s as [|c s IH]; [by split|].
  destruct (lower_cases c s) as [[Hc ->]|(s' & -> & -> & ->)].
  - cbn [String.length]. split.
    + intros Hlen [|k] c' d' Hk Hk'.
      * injection Hk as <-. unfold no_dotted_I_at in Hc.
        destruct s as [|d s]; [done|]. by injection Hk' as <-.
      * apply (proj1 IH) with (k := k); [lia|done|done].
    + intros Hno. f_equal. apply IH. intros k c' d' Hk Hk'.
      by apply (Hno (S k)).
  - split.
    + intros Hlen. exfalso. pose proof (lower_length_le s'). simpl in Hlen.
      lia.
    + intros Hno. by specialize (Hno 0 _ _ eq_refl eq_refl).
Qed.

End LowerProps.

(** ** Command extraction *)

Module CommandProps.

Import Main Spec.

Lemma drop_length s : Py.drop (String.length s) s = "".
Proof. induction s; simpl; congruence. Qed.






















(** What the amended statement leaves out: with a U+0130 before the slash
    command the lower-cased text is longer than the text, and the remainder
    is cut at a position of the lower-cased text, one character further for
    each U+0130. *)
Lemma extract_command_cut_short :
  Py.lower Examples.dotted_text
  = "i" +:+ Examples.COMBINING_DOT +:+ "yi" +:+ Examples.COMBINING_DOT
      +:+ " /product trendyolgo"
  /\ _extract_command Examples.dotted_text = (Some "product", "rendyolGO").
Proof. split; reflexivity. Qed.

End CommandProps.


(** ** The local repositories *)

Module RepoProps.

Import Repo PyFacts.

(** *** Lines of ripgrep output *)

Lemma cut_at_Some sep s a b :
  cut_at sep s = Some (a, b)
  <-> s = a +:+ String sep b /\ Py.contains_char sep a = false.
Proof.
  revert a. induction s as [|c s IH]; intros a; simpl.
  - split; [done|]. intros [H _]. by destruct a.
  - destruct (Ascii.eqb c sep) eqn:Hc.
    + apply Ascii.eqb_eq in Hc as ->. split.
      * by intros [= <- <-].
      * intros [H Ha]. destruct a as [|x a].
        -- rewrite str_app_nil_l in H. by injection H as ->.
        -- rewrite str_app_cons in H. injection H as <- _.
           simpl in Ha. by rewrite Ascii.eqb_refl in Ha.
    + split.
      * destruct (cut_at sep s) as [[a' b']|]; [|done].
        intros [= <- <-]. destruct (proj1 (IH a') eq_refl) as [-> Ha'].
        split; [done|]. simpl. by rewrite Ascii.eqb_sym, Hc.
      * intros [H Ha]. destruct a as [|x a].
        -- rewrite str_app_nil_l in H. injection H as -> _.
           by rewrite Ascii.eqb_refl in Hc.
        -- rewrite str_app_cons in H. injection H as <- H.
           simpl in Ha. apply orb_false_iff in Ha as [_ Ha].
           by rewrite (proj2 (IH a) (conj H Ha)).
Qed.

Lemma digits_no_colon s :
  Py.all_chars Py.is_digit s = true -> Py.contains_char ":" s = false.
Proof.
  induction s as [|c s IH]; cbn [Py.contains_char Py.all_chars]; [done|].
  intros [Hc Hs]%andb_true_iff. rewrite IH by done.
  destruct (Ascii.eqb ":" c) eqn:Heq; [|done].
  apply Ascii.eqb_eq in Heq as <-. by vm_compute in Hc.
Qed.

Lemma str_of_Z_digits (k : Z) :
  (0 <= k)%Z -> Py.all_chars Py.is_digit (Py.str_of_Z k) = true.
Proof.
  intros Hk. unfold Py.str_of_Z. destruct k as [|p|p]; [done| |lia].
  cbn [Z.to_int DecimalString.NilZero.string_of_int].
  unfold DecimalString.NilZero.string_of_uint.
  pose proof (string_of_uint_digits (Pos.to_uint p)) as Hd.
  by destruct (Pos.to_uint p).
Qed.

(** A line is read as a match exactly when it has two colons: the path is
    the text before the first, the line number the text between them. *)
Lemma parse_rg_line_Some env self ln m :
  parse_rg_line env self ln = Some m
  <-> exists p n t,
        ln = p +:+ ":" +:+ n +:+ ":" +:+ t
        /\ Py.contains_char ":" p = false
        /\ Py.contains_char ":" n = false
        /\ m = {| path := match relative_to (root self) (resolve env p) with
                          | Some r => r
                          | None => p
                          end;
                  line := match Py.int_of_digits n with
                          | Some k => k
                          | None => 0%Z
                          end;
                  preview := Py.strip t |}.
Proof.
  unfold parse_rg_line, split_colon_2. split.
  - destruct (cut_at ":" ln) as [[p r]|] eqn:Hp; [|done].
    destruct (cut_at ":" r) as [[n t]|] eqn:Hn; [|done].
    intros [= <-]. apply cut_at_Some in Hp as [-> Hp].
    apply cut_at_Some in Hn as [-> Hn]. by exists p, n, t.
  - intros (p & n & t & -> & Hp & Hn & ->).
    rewrite (proj2 (cut_at_Some ":" _ p (n +:+ ":" +:+ t))) by done.
    by rewrite (proj2 (cut_at_Some ":" _ n t)).
Qed.

(** X4: every match [LocalRepo.search] returns was read from a line
    [path:number:text] of ripgrep's output: its preview is the text with the
    surrounding space removed, its line is the number when that is a decimal
    numeral; conversely every such line of a run that ended with status 0 or
    1 gives a match, and there are never more matches than lines. *)
Theorem search_reads_rg_lines env self keyword limit matches :
  search env self keyword limit = Ok matches ->
  (forall m, m ∈ matches ->
     exists returncode stdout p n t,
       run_rg env limit keyword (root self) = RgCompleted returncode stdout
       /\ (p +:+ ":" +:+ n +:+ ":" +:+ t) ∈ splitlines stdout
       /\ Py.contains_char ":" p = false
       /\ Py.contains_char ":" n = false
       /\ preview m = Py.strip t
       /\ Py.strip (preview m) = preview m
       /\ (forall k, (0 <= k)%Z -> n = Py.str_of_Z k -> line m = k))
  /\ (forall returncode stdout,
        run_rg env limit keyword (root self) = RgCompleted returncode stdout ->
        length matches <= length (splitlines stdout)
        /\ (keyword <> "" -> exists_ env self = true ->
            RG_AVAILABLE env = true ->
            returncode = 0%Z \/ returncode = 1%Z ->
            forall p k t,
              (p +:+ ":" +:+ Py.str_of_Z k +:+ ":" +:+ t) ∈ splitlines stdout ->
              Py.contains_char ":" p = false -> (0 <= k)%Z ->
              exists m, m ∈ matches /\ line m = k /\ preview m = Py.strip t)).
Proof.
  unfold search. intros Hsearch. split.
  - intros m Hm.
    destruct (Py.is_empty keyword || negb (exists_ env self));
      [injection Hsearch as <-; by apply elem_of_nil in Hm|].
    destruct (negb (RG_AVAILABLE env));
      [injection Hsearch as <-; by apply elem_of_nil in Hm|].
    destruct (run_rg env limit keyword (root self))
      as [returncode stdout| |exc] eqn:Hrun;
      [|injection Hsearch as <-; by apply elem_of_nil in Hm|done].
    destruct (negb ((returncode =? 0)%Z || (returncode =? 1)%Z));
      [injection Hsearch as <-; by apply elem_of_nil in Hm|].
    injection Hsearch as <-.
    apply list_elem_of_omap in Hm as (ln & Hln & Hparse).
    apply parse_rg_line_Some in Hparse as (p & n & t & -> & Hp & Hn & ->).
    exists returncode, stdout, p, n, t. simpl.
    repeat (split; [done|]). split; [apply strip_idemp|].
    intros k Hk ->. by rewrite int_of_digits_str_of_Z.
  - intros returncode stdout Hrun. rewrite Hrun in Hsearch. split.
    + destruct (Py.is_empty keyword || negb (exists_ env self));
        [injection Hsearch as <-; simpl; lia|].
      destruct (negb (RG_AVAILABLE env));
        [injection Hsearch as <-; simpl; lia|].
      destruct (negb ((returncode =? 0)%Z || (returncode =? 1)%Z));
        [injection Hsearch as <-; simpl; lia|].
      injection Hsearch as <-. apply ThreadProps.length_omap_le.
    + intros Hkw Hex Hrg Hrc p k t Hln Hp Hk.
      apply is_empty_false in Hkw. rewrite Hkw, Hex, Hrg in Hsearch.
      simpl in Hsearch.
      assert (negb ((returncode =? 0)%Z || (returncode =? 1)%Z) = false) as Hok.
      { destruct Hrc as [-> | ->]; done. }
      rewrite Hok in Hsearch. injection Hsearch as <-.
      eexists. split.
      * apply list_elem_of_omap. eexists. split; [exact Hln|].
        apply parse_rg_line_Some. exists p, (Py.str_of_Z k), t.
        split; [done|]. split; [done|].
        split; [by apply digits_no_colon, str_of_Z_digits|reflexivity].
      * simpl. by rewrite int_of_digits_str_of_Z.
Qed.

Lemma search_reads_rg_lines_witness :
  length [ mkRepoMatch "app/a.rb" 3 "def deploy";
           mkRepoMatch "lib/b.rb" 7 "deploy!" ]
  <= length (splitlines
               ("/srv/adwyze/app/a.rb:3:def deploy" +:+ NL
                  +:+ "/srv/adwyze/lib/b.rb:7:deploy!" +:+ NL)).
Proof.
  refine (proj1 (proj2 (search_reads_rg_lines Examples.two_files
                          (mkLocalRepo "adwyze" "/srv/adwyze") "deploy" 1 _ _)
                   0%Z _ _)).
  - vm_compute. reflexivity.
  - reflexivity.
Defined.

(** *** Reading a file *)

(** X5: when the repository and the file exist, [LocalRepo.read_file] returns
    the lines numbered from [max(1, start_line)] to the larger of that and
    [end_line], in order and as far as the file has them: a start below 1
    reads from the first line, and an end before the start still gives the
    start line. *)
Theorem read_file_window env self relative_path start_line end_line lines :
  exists_ env self = true ->
  open_file env (root self) relative_path = FileLines lines ->
  exists window,
    read_file env self relative_path start_line end_line
      = Ok (Some (Py.join "" window))
    /\ (forall i : nat,
          window !! i
          = if decide (Z.max 1 start_line + Z.of_nat i
                       <= Z.max (Z.max 1 start_line) end_line)%Z
            then lines !! (Z.to_nat (Z.max 1 start_line - 1) + i)
            else None)
    /\ ((end_line <= Z.max 1 start_line)%Z -> length window <= 1).
Proof.
  intros Hex Hopen. unfold read_file. rewrite Hex, Hopen. cbn [negb].
  cbv zeta. eexists. split; [reflexivity|].
  set (start := Z.max 1 start_line).
  set (end_ := Z.max start end_line).
  assert (1 <= start)%Z as Hstart by (subst start; lia).
  assert (start <= end_)%Z as Hend by (subst end_; lia).
  split.
  - intros i. destruct (decide (start + Z.of_nat i <= end_)%Z) as [Hi|Hi].
    + rewrite lookup_take_lt by lia. apply lookup_drop.
    + apply lookup_take_ge. lia.
  - intros Hle. rewrite length_take. subst end_. lia.
Qed.

Lemma read_file_window_witness :
  exists window,
    read_file
      (mkEnv (fun _ => true) true (fun _ _ _ => RgFileNotFound) (fun p => p)
         (fun _ _ => GitCalledProcessError)
         (fun _ _ => FileLines ["one" +:+ NL; "two" +:+ NL; "three" +:+ NL]))
      (mkLocalRepo "adwyze" "/srv/adwyze") "README.md" 0 2
    = Ok (Some (Py.join "" window))
    /\ window !! 1 = Some ("two" +:+ NL).
Proof.
  destruct (read_file_window
              (mkEnv (fun _ => true) true (fun _ _ _ => RgFileNotFound)
                 (fun p => p) (fun _ _ => GitCalledProcessError)
                 (fun _ _ =>
                    FileLines ["one" +:+ NL; "two" +:+ NL; "three" +:+ NL]))
              (mkLocalRepo "adwyze" "/srv/adwyze") "README.md" 0 2
              ["one" +:+ NL; "two" +:+ NL; "three" +:+ NL]
              eq_refl eq_refl) as (window & Hread & Hlines & _).
  exists window. split; [exact Hread|]. rewrite (Hlines 1). reflexivity.
Defined.

(** *** Lines of the git log *)

Lemma parse_commit_line_Some ln commit :
  parse_commit_line ln = Some commit
  <-> ln = sha commit +:+ TAB +:+ author commit +:+ TAB +:+ date commit
             +:+ TAB +:+ message commit
      /\ Forall (fun field => Py.contains_char (ascii_of_nat 9) field = false)
           [sha commit; author commit; date commit; message commit].
Proof.
  unfold parse_commit_line, Py.split_char. split.
  - pose proof (split_char_from_join (ascii_of_nat 9) ln "") as Hjoin.
    pose proof (split_char_from_no_sep (ascii_of_nat 9) ln "" eq_refl) as Hno.
    destruct (Py.split_char_from (ascii_of_nat 9) "" ln)
      as [|a [|b [|c [|d [|e l]]]]]; try done.
    intros [= <-]. simpl. split; [|done].
    rewrite str_app_nil_l in Hjoin. rewrite <- Hjoin. done.
  - intros [-> Hno].
    change (sha commit +:+ TAB +:+ author commit +:+ TAB +:+ date commit
              +:+ TAB +:+ message commit)
      with (Py.join (String (ascii_of_nat 9) "")
              [sha commit; author commit; date commit; message commit]).
    rewrite split_char_from_joined by done.
    rewrite str_app_nil_l. by destruct commit.
Qed.

(** X6: [LocalRepo.recent_commits] returns exactly the commits written on the
    lines of the git output that have four tab-separated fields (hash,
    author, date, subject); a line with fewer or more fields, such as one
    whose subject holds a tab, gives no commit. *)
Theorem recent_commits_reads_git_lines env self limit commits :
  recent_commits env self limit = Ok commits ->
  forall commit,
    commit ∈ commits
    <-> exists stdout,
          exists_ env self = true
          /\ run_git env (root self) limit = GitCompleted stdout
          /\ (sha commit +:+ TAB +:+ author commit +:+ TAB +:+ date commit
                +:+ TAB +:+ message commit) ∈ splitlines stdout
          /\ Forall
               (fun field => Py.contains_char (ascii_of_nat 9) field = false)
               [sha commit; author commit; date commit; message commit].
Proof.
  unfold recent_commits. intros Hrun commit.
  destruct (exists_ env self); cbn [negb] in Hrun.
  - destruct (run_git env (root self) limit) as [stdout| |exc]; [| |done].
    + injection Hrun as <-. rewrite list_elem_of_omap. split.
      * intros (ln & Hln & Hparse).
        apply parse_commit_line_Some in Hparse as [-> Hno].
        by exists stdout.
      * intros (stdout' & _ & [= <-] & Hln & Hno).
        eexists. split; [exact Hln|]. by apply parse_commit_line_Some.
    + injection Hrun as <-. split; [by intros ?%elem_of_nil|].
      by intros (stdout & _ & ? & _).
  - injection Hrun as <-. split; [by intros ?%elem_of_nil|].
    by intros (stdout & ? & _).
Qed.

Lemma recent_commits_reads_git_lines_witness :
  mkRepoCommit "4f2a9c1" "Ann" "2024-05-02" "Fix deploy hook"
  ∈ [ mkRepoCommit "4f2a9c1" "Ann" "2024-05-02" "Fix deploy hook" ].
Proof.
  apply (recent_commits_reads_git_lines
           (mkEnv (fun _ => true) true (fun _ _ _ => RgFileNotFound)
              (fun p => p)
              (fun _ _ =>
                 GitCompleted
                   ("4f2a9c1" +:+ TAB +:+ "Ann" +:+ TAB +:+ "2024-05-02"
                      +:+ TAB +:+ "Fix deploy hook" +:+ NL
                      +:+ "9be01d3" +:+ TAB +:+ "Bob" +:+ TAB +:+ "2024-05-01"
                      +:+ TAB +:+ "Bump" +:+ TAB +:+ "deps" +:+ NL))
              (fun _ _ => FileMissing))
           (mkLocalRepo "adwyze" "/srv/adwyze") 2).
  - vm_compute. reflexivity.
  - eexists. split; [reflexivity|]. split; [reflexivity|].
    split; [|repeat constructor]. vm_compute. left.
Defined.

(** *** The default repositories *)

Lemma report_not_no_repos keywords findings :
  Analyzer.report keywords findings <> Analyzer.NO_REPOS.
Proof.
  unfold Analyzer.report. cbv zeta. cbn [app].
  rewrite join_cons_cons. discriminate.
Qed.

Lemma analyze_no_repos env self incident_text :
  Analyzer.analyze env self incident_text = Ok Analyzer.NO_REPOS
  <-> Analyzer.repos self = [].
Proof.
  unfold Analyzer.analyze. destruct (Analyzer.repos self); [done|].
  split; [|done]. intros H.
  destruct (Analyzer.inspect_repos _ _ _) as [findings|exc] in H;
    cbn [and_then] in H; [|done].
  exfalso.
  apply (report_not_no_repos
           (Analyzer._extract_keywords incident_text Analyzer.DEFAULT_LIMIT)
           findings).
  congruence.
Qed.

(** X7: [load_default_repos] returns, in this order and without duplicates,
    those of the repositories [adwyze] and [adwyze-frontend] whose directory
    below the base exists; the fallback analyzer built from them answers
    with the could-not-locate sentence exactly when neither directory
    exists, whatever the incident text. *)
Theorem analyze_no_repos_iff env base_dir incident_text :
  (forall repo,
     repo ∈ load_default_repos env base_dir
     <-> path_exists env (root repo) = true
         /\ (repo = mkLocalRepo "adwyze" (base_dir +:+ "/adwyze")
             \/ repo = mkLocalRepo "adwyze-frontend"
                         (base_dir +:+ "/adwyze-frontend")))
  /\ name <$> load_default_repos env base_dir
       `sublist_of` ["adwyze"; "adwyze-frontend"]
  /\ (Analyzer.analyze env (Analyzer.new env base_dir) incident_text
        = Ok Analyzer.NO_REPOS
      <-> path_exists env (base_dir +:+ "/adwyze") = false
          /\ path_exists env (base_dir +:+ "/adwyze-frontend") = false).
Proof.
  split; [|split].
  - intros repo. unfold load_default_repos.
    rewrite list_elem_of_In, filter_In, <- list_elem_of_In.
    rewrite !elem_of_cons, elem_of_nil. unfold exists_. split.
    + intros [[H|[H|[]]] Hp]; auto.
    + intros [Hp [H|H]]; auto.
  - unfold load_default_repos, exists_. cbn [List.filter root].
    destruct (path_exists env (base_dir +:+ "/adwyze"));
      destruct (path_exists env (base_dir +:+ "/adwyze-frontend"));
      cbn [fmap list_fmap name].
    + done.
    + apply sublist_skip, sublist_cons, sublist_nil_l.
    + apply sublist_cons, sublist_skip, sublist_nil_l.
    + apply sublist_nil_l.
  - rewrite analyze_no_repos. unfold Analyzer.new, load_default_repos, exists_.
    cbn [Analyzer.repos List.filter root].
    destruct (path_exists env (base_dir +:+ "/adwyze"));
      destruct (path_exists env (base_dir +:+ "/adwyze-frontend"));
      split; try done; by intros [? ?].
Qed.

End RepoProps.

(** ** The search backends and the tool registry *)

Module BackendProps.

Import Sourcegraph Notions.

Section Limit.

Variable limit : Z.

(** The number of matches at which the loops of [search] return. *)
Let K : nat := Z.to_nat (Z.max 1 limit).

Lemma add_line_matches_take repo_name file_path lms : forall matches,
  length matches < K ->
  add_line_matches limit repo_name file_path lms matches
  = (take K (matches
             ++ ((fun lm =>
                    {| repo := repo_name; path := file_path;
                       line := lineNumber lm;
                       preview := Py.strip (line_text lm) |}) <$> lms)),
     bool_decide (K <= length matches + length lms)).
Proof.
  induction lms as [|lm lms IH]; intros matches Hlen; csimpl.
  - rewrite app_nil_r, take_ge by lia. f_equal.
    rewrite bool_decide_eq_false_2; [done|lia].
  - destruct (limit <=? _)%Z eqn:Hle.
    + apply Z.leb_le in Hle. rewrite length_app in Hle. simpl in Hle.
      rewrite (cons_middle _ matches (_ <$> lms)), (assoc_L (++)).
      rewrite take_app_length'; [|rewrite length_app; simpl; subst K; lia].
      f_equal. rewrite bool_decide_eq_true_2; [done|subst K; lia].
    + apply Z.leb_gt in Hle. rewrite length_app in Hle. simpl in Hle.
      rewrite IH by (rewrite length_app; simpl; subst K; lia).
      rewrite <- (assoc_L (++)). simpl. f_equal.
      rewrite length_app. simpl. apply bool_decide_ext. lia.
Qed.

Lemma add_results_take results : forall matches,
  length matches < K ->
  add_results limit results matches
  = take K (matches ++ file_line_matches results).
Proof.
  induction results as [|result results IH]; intros matches Hlen.
  - simpl. rewrite app_nil_r, take_ge by lia. done.
  - cbn [add_results]. unfold file_line_matches. rewrite bind_cons.
    fold (file_line_matches results).
    destruct (String.eqb (typename result) "FileMatch"); cbn [negb].
    + rewrite add_line_matches_take by done.
      case_bool_decide as Hfull.
      * rewrite (assoc_L (++)). symmetry. apply take_app_le.
        rewrite length_app, length_fmap. lia.
      * rewrite take_ge by (rewrite length_app, length_fmap; lia).
        rewrite IH by (rewrite length_app, length_fmap; lia).
        by rewrite (assoc_L (++)).
    + by apply IH.
Qed.

End Limit.

(** X8: [SourcegraphClient.search] returns the first [limit] line matches of
    the file results of the answer, in the order of the answer (the first
    one alone when [limit] is below 1), each preview stripped; it returns
    nothing, without a request, when the client is not configured or the
    keyword is empty, and nothing when the request fails. *)
Theorem sourcegraph_search_first_matches self repo keyword directories limit :
  (enabled self = false \/ keyword = "" ->
   search self repo keyword directories limit = Ok [])
  /\ (post self repo keyword directories limit = PostRequestException ->
      search self repo keyword directories limit = Ok [])
  /\ (forall results,
        enabled self = true -> keyword <> "" ->
        post self repo keyword directories limit = PostResults results ->
        search self repo keyword directories limit
        = Ok (take (Z.to_nat (Z.max 1 limit)) (file_line_matches results)))
  /\ (forall matches,
        search self repo keyword directories limit = Ok matches ->
        length matches <= Z.to_nat (Z.max 1 limit)
        /\ Forall (fun m => Py.strip (preview m) = preview m) matches).
Proof.
  assert (forall results,
            add_results limit results []
            = take (Z.to_nat (Z.max 1 limit)) (file_line_matches results))
    as Hclosed.
  { intros results. apply add_results_take. simpl. lia. }
  unfold search. split; [|split; [|split]].
  - intros [-> | ->]; [done|]. by rewrite orb_true_r.
  - intros ->. by destruct (negb (enabled self) || Py.is_empty keyword).
  - intros results -> Hkw%PyFacts.is_empty_false ->. rewrite Hkw. simpl.
    by rewrite Hclosed.
  - intros matches Hsearch.
    destruct (negb (enabled self) || Py.is_empty keyword);
      [injection Hsearch as <-; split; [simpl; lia|constructor]|].
    destruct (post self repo keyword directories limit)
      as [|exc|results]; [injection Hsearch as <-; split;
                          [simpl; lia|constructor]|done|].
    injection Hsearch as <-. rewrite Hclosed. split.
    + rewrite length_take. lia.
    + apply Forall_take. unfold file_line_matches.
      apply Forall_forall. intros m (result & Hm & _)%list_elem_of_bind.
      destruct (String.eqb (typename result) "FileMatch");
        [|by apply elem_of_nil in Hm].
      apply list_elem_of_fmap in Hm as (lm & -> & _). simpl.
      apply PyFacts.strip_idemp.
Qed.

End BackendProps.

(** ** The tool registry *)

Module RegistryProps.

Import Tools.

Section SearchCode.

Variable env : Repo.Env.
Variable self : ToolRegistry.
Variables repo_name query : string.
Variable limit : Z.
Variable directories : option (list string).
Variable st : RegistryState.

(** X9: one [search_code] invokes each backend at most once, the remote one
    first; it invokes none for an unknown repository or a cached query (the
    registry is then left as it is), the remote one only when it is
    configured, and ripgrep only when the remote search is not configured or
    found nothing. *)
Theorem search_code_backend_calls :
  exists new,
    calls (search_code env self repo_name query limit directories st).2
    = calls st ++ new
    /\ new `sublist_of` [RemoteSearch repo_name query;
                         LocalSearch repo_name query]
    /\ (_repo self repo_name = None
        \/ is_Some (cache st !! (repo_name, query)) ->
        search_code env self repo_name query limit directories st
        = (match _repo self repo_name, cache st !! (repo_name, query) with
           | Some _, Some found => Ok (Py.list_slice_to limit found)
           | _, _ => Ok []
           end, st))
    /\ (RemoteSearch repo_name query ∈ new ->
        exists sg, sourcegraph self = Some sg
                   /\ Sourcegraph.enabled sg = true)
    /\ (LocalSearch repo_name query ∈ new ->
        forall sg, sourcegraph self = Some sg ->
          Sourcegraph.enabled sg = true ->
          Sourcegraph.search sg repo_name query directories limit = Ok []).
Proof.
  unfold search_code, bind, ret, lift, get_cache, put_cache, record_call,
    Repo.get_search.
  destruct (_repo self repo_name) as [repo|] eqn:Hrepo.
  2:{ exists []. rewrite app_nil_r.
      split; [done|]. split; [apply sublist_nil_l|]. split; [done|].
      split; by intros ?%elem_of_nil. }
  cbn beta iota.
  destruct (cache st !! (repo_name, query)) as [found|] eqn:Hcache.
  { exists []. rewrite app_nil_r.
    split; [done|]. split; [apply sublist_nil_l|]. split; [done|].
    split; by intros ?%elem_of_nil. }
  destruct (sourcegraph self) as [sg|] eqn:Hsg;
    [destruct (Sourcegraph.enabled sg) eqn:Hen|].
  - destruct (Sourcegraph.search sg repo_name query directories limit)
      as [[|m sg_matches]|exc] eqn:Hsearch; csimpl.
    + exists [RemoteSearch repo_name query; LocalSearch repo_name query].
      split; [by destruct (Repo.search env repo query limit);
              simpl; rewrite <- (assoc_L (++))|].
      split; [done|]. split; [by intros [?|[? ?]]|]. split; [by eauto|].
      intros _ sg' [= <-] _. done.
    + exists [RemoteSearch repo_name query].
      split; [done|]. split; [apply sublist_skip, sublist_cons; done|].
      split; [by intros [?|[? ?]]|]. split; [by eauto|].
      intros Hin. apply list_elem_of_singleton in Hin. done.
    + exists [RemoteSearch repo_name query].
      split; [done|]. split; [apply sublist_skip, sublist_cons; done|].
      split; [by intros [?|[? ?]]|]. split; [by eauto|].
      intros Hin. apply list_elem_of_singleton in Hin. done.
  - csimpl. exists [LocalSearch repo_name query].
    split; [by destruct (Repo.search env repo query limit)|].
    split; [apply sublist_cons, sublist_skip; done|].
    split; [by intros [?|[? ?]]|].
    split; [intros Hin; apply list_elem_of_singleton in Hin; done|].
    intros _ sg' [= <-] Hen'. congruence.
  - csimpl. exists [LocalSearch repo_name query].
    split; [by destruct (Repo.search env repo query limit)|].
    split; [apply sublist_cons, sublist_skip; done|].
    split; [by intros [?|[? ?]]|].
    split; [intros Hin; apply list_elem_of_singleton in Hin; done|].
    intros _ sg' Hsg'. done.
Qed.

(** What one [search_code] does to the cache. *)
Lemma search_code_cache_cases :
  (exists exc,
     (search_code env self repo_name query limit directories st).1 = Raise exc
     /\ cache (search_code env self repo_name query limit directories st).2
        = cache st)
  \/ (exists matches,
        (search_code env self repo_name query limit directories st).1
        = Ok matches
        /\ (cache (search_code env self repo_name query limit directories
                     st).2 = cache st
            \/ (cache st !! (repo_name, query) = None
                /\ cache (search_code env self repo_name query limit
                            directories st).2
                   = <[(repo_name, query) := matches]> (cache st)))).
Proof.
  unfold search_code, bind, ret, lift, get_cache, put_cache, record_call,
    Repo.get_search, Repo.cache_search.
  destruct (_repo self repo_name) as [repo|]; [|right; eexists; by eauto].
  cbn beta iota.
  destruct (cache st !! (repo_name, query)) as [found|] eqn:Hcache;
    [right; eexists; by eauto|].
  destruct (sourcegraph self) as [sg|]; [destruct (Sourcegraph.enabled sg)|];
    csimpl;
    try destruct (Sourcegraph.search sg repo_name query directories limit)
      as [[|m sg_matches]|exc]; csimpl;
    try destruct (Repo.search env repo query limit) as [matches|exc'];
    simpl; eauto 10.
Qed.

(** X10: [search_code] changes the cache only by storing, after a search
    that returned, the matches it returns under the key of a query that was
    not cached: an entry once stored is never replaced or dropped, and a
    search that raises stores nothing. *)
Theorem search_code_cache_grows :
  (forall exc,
     (search_code env self repo_name query limit directories st).1 = Raise exc ->
     cache (search_code env self repo_name query limit directories st).2
     = cache st)
  /\ (forall matches,
        (search_code env self repo_name query limit directories st).1
        = Ok matches ->
        cache (search_code env self repo_name query limit directories st).2
        = cache st
        \/ (cache st !! (repo_name, query) = None
            /\ cache (search_code env self repo_name query limit directories
                        st).2
               = <[(repo_name, query) := matches]> (cache st)))
  /\ (forall key found,
        cache st !! key = Some found ->
        cache (search_code env self repo_name query limit directories st).2
          !! key = Some found).
Proof.
  pose proof search_code_cache_cases as Hcases.
  split; [|split].
  - intros exc Hexc. destruct Hcases as [(? & _ & ?)|(? & Hok & _)];
      [done|congruence].
  - intros matches Hok.
    destruct Hcases as [(? & Hexc & _)|(matches' & Hok' & Hcache)];
      [congruence|].
    rewrite Hok in Hok'. by injection Hok' as <-.
  - intros key found Hkey.
    destruct Hcases as [(? & _ & ->)|(matches' & _ & [-> |[Hnone ->]])];
      [done|done|].
    rewrite lookup_insert_ne; [done|]. intros <-. congruence.
Qed.

End SearchCode.

(** *** The dictionary of repositories *)

Lemma dict_get_set_eq {V} k (v : V) d : Py.dict_get k (Py.dict_set k v d) = Some v.
Proof.
  induction d as [|[k' v'] d IH]; simpl.
  - by rewrite String.eqb_refl.
  - destruct (String.eqb k' k) eqn:Heq; simpl.
    + by rewrite String.eqb_refl.
    + by rewrite Heq.
Qed.

Lemma dict_get_set_ne {V} k k' (v : V) d :
  k <> k' -> Py.dict_get k' (Py.dict_set k v d) = Py.dict_get k' d.
Proof.
  intros Hne. induction d as [|[k0 v0] d IH]; simpl.
  - by apply String.eqb_neq in Hne as ->.
  - destruct (String.eqb k0 k) eqn:Heq; simpl.
    + apply String.eqb_eq in Heq as ->.
      by apply String.eqb_neq in Hne as ->.
    + by rewrite IH.
Qed.

Lemma dict_set_keys {V} k (v : V) d :
  (Py.dict_set k v d).*1
  = if in_list k d.*1 then d.*1 else d.*1 ++ [k].
Proof.
  unfold in_list. induction d as [|[k' v'] d IH]; csimpl; [done|].
  rewrite (String.eqb_sym k k').
  destruct (String.eqb k' k) eqn:Heq; csimpl.
  - by apply String.eqb_eq in Heq as ->.
  - rewrite IH. by destruct (existsb (String.eqb k) d.*1).
Qed.

Lemma dict_get_is_Some {V} k (d : list (string * V)) :
  is_Some (Py.dict_get k d) <-> k ∈ d.*1.
Proof.
  induction d as [|[k' v'] d IH]; csimpl.
  - split; [by intros [? ?]|by intros ?%elem_of_nil].
  - rewrite elem_of_cons. destruct (String.eqb k' k) eqn:Heq.
    + apply String.eqb_eq in Heq as ->. split; [by left|by eauto].
    + apply String.eqb_neq in Heq. rewrite IH. split; [by right|].
      by intros [->|?].
Qed.

Lemma repo_map_snoc repos repo sourcegraph :
  repo_map (mkToolRegistry (repos ++ [repo]) sourcegraph)
  = Py.dict_set (Repo.name repo) repo
      (repo_map (mkToolRegistry repos sourcegraph)).
Proof. unfold repo_map. simpl. by rewrite fold_left_app. Qed.

Lemma repo_map_keys repos sourcegraph :
  (repo_map (mkToolRegistry repos sourcegraph)).*1
  = Spec.firsts (Repo.name <$> repos).
Proof.
  induction repos as [|repo repos IH] using rev_ind; [done|].
  rewrite repo_map_snoc, dict_set_keys, IH, fmap_app.
  by rewrite (KeywordProps.firsts_snoc (Repo.name <$> repos) (Repo.name repo)).
Qed.

Lemma repo_map_get repos sourcegraph name repo :
  Py.dict_get name (repo_map (mkToolRegistry repos sourcegraph)) = Some repo ->
  repo ∈ repos /\ Repo.name repo = name.
Proof.
  induction repos as [|r repos IH] using rev_ind; [done|].
  rewrite repo_map_snoc. destruct (decide (Repo.name r = name)) as [<-|Hne].
  - rewrite dict_get_set_eq. intros [= <-].
    split; [|done]. apply elem_of_app. right. by left.
  - rewrite dict_get_set_ne by done. intros [Hin Hname]%IH.
    split; [|done]. apply elem_of_app. by left.
Qed.

(** X11: the registry lists each repository name once, in the order of first
    appearance; a name is listed exactly when a repository carries it and
    exactly when [_repo] resolves it; [_repo] returns a repository of the
    registry with the name asked for, and of several repositories with one
    name the last. *)
Theorem registry_names (self : ToolRegistry) :
  list_repos self = Spec.firsts (Repo.name <$> repos self)
  /\ NoDup (list_repos self)
  /\ (forall name,
        name ∈ list_repos self
        <-> exists repo, repo ∈ repos self /\ Repo.name repo = name)
  /\ (forall name, is_Some (_repo self name) <-> name ∈ list_repos self)
  /\ (forall name repo,
        _repo self name = Some repo ->
        repo ∈ repos self /\ Repo.name repo = name)
  /\ (forall before repo after,
        repos self = before ++ repo :: after ->
        Forall (fun r => Repo.name r <> Repo.name repo) after ->
        _repo self (Repo.name repo) = Some repo).
Proof.
  destruct self as [repos sourcegraph]. unfold list_repos, _repo.
  cbn [Tools.repos]. rewrite repo_map_keys.
  split; [done|]. split; [apply KeywordProps.NoDup_firsts|].
  split; [|split; [|split]].
  - intros name. rewrite KeywordProps.elem_of_firsts, list_elem_of_fmap.
    split; intros (repo & ? & ?); by exists repo.
  - intros name. by rewrite dict_get_is_Some, repo_map_keys.
  - intros name repo. apply repo_map_get.
  - intros before repo after ->.
    induction after as [|r after IH] using rev_ind; intros Hall.
    + rewrite repo_map_snoc. apply dict_get_set_eq.
    + apply Forall_app in Hall as [Hall Hr]. apply Forall_cons in Hr as [Hr _].
      rewrite app_comm_cons, (assoc_L (++)), repo_map_snoc.
      rewrite dict_get_set_ne by done. by apply IH.
Qed.

End RegistryProps.

(** ** The keywords the extractors return *)

Module KeywordShape.

Import PyFacts.

(** *** Runs of a character class *)

Lemma all_chars_snoc p cur c :
  Py.all_chars p (cur +:+ String c "") = Py.all_chars p cur && p c.
Proof.
  induction cur as [|x cur IH]; [simpl; by rewrite andb_true_r|].
  rewrite str_app_cons. simpl. by rewrite IH, andb_assoc.
Qed.

Lemma length_snoc cur c :
  String.length (cur +:+ String c "") = S (String.length cur).
Proof. rewrite str_app_length. simpl. lia. Qed.

(** Every run found is made of characters of the class and is long enough. *)
Lemma findall_runs_from_shape cls n s : forall cur,
  Py.all_chars cls cur = true ->
  Forall (fun run => Py.all_chars cls run = true /\ n <= String.length run)
    (Py.findall_runs_from cls n cur s).
Proof.
  induction s as [|c s IH]; intros cur Hcur; simpl.
  - destruct (n <=? String.length cur) eqn:Hn; [|constructor].
    apply Nat.leb_le in Hn. by repeat constructor.
  - destruct (cls c) eqn:Hc.
    + apply IH. by rewrite all_chars_snoc, Hcur, Hc.
    + destruct (n <=? String.length cur) eqn:Hn.
      * apply Nat.leb_le in Hn. constructor; [done|]. by apply IH.
      * by apply IH.
Qed.

(** Two classes that agree on the characters of a text find the same runs. *)
Lemma findall_runs_from_ext cls cls' n s : forall cur,
  Py.all_chars (fun c => Bool.eqb (cls c) (cls' c)) s = true ->
  Py.findall_runs_from cls n cur s = Py.findall_runs_from cls' n cur s.
Proof.
  induction s as [|c s IH]; intros cur Hs; simpl; [done|].
  simpl in Hs. apply andb_true_iff in Hs as [Hc Hs].
  apply Bool.eqb_prop in Hc. rewrite <- Hc.
  destruct (cls c); [by apply IH|].
  destruct (n <=? String.length cur); by rewrite IH.
Qed.

Lemma lower_char_not_upper c : Py.is_upper (Py.lower_char c) = false.
Proof.
  destruct c as [[] [] [] [] [] [] [] []]; vm_compute; reflexivity.
Qed.

Lemma lower_alpha_is_lower s :
  Py.all_chars (fun c => Bool.eqb (Py.is_alpha c) (Py.is_lower c)) (Py.lower s)
  = true.
Proof.
  assert (forall c,
            Bool.eqb (Py.is_alpha (Py.lower_char c))
              (Py.is_lower (Py.lower_char c)) = true) as Hchar.
  { intros c. unfold Py.is_alpha.
    rewrite lower_char_not_upper. apply Bool.eqb_reflx. }
  induction s as [|c|c d s IH1 IH2] using LowerProps.string_ind2; [done| |].
  - cbn [Py.lower Py.all_chars]. by rewrite Hchar.
  - destruct (LowerProps.lower_cases c (String d s))
      as [[_ ->]|(s' & [= -> ->] & _ & ->)]; cbn [Py.all_chars].
    + by rewrite Hchar, IH2.
    + by rewrite IH1.
Qed.

(** The tokens of the fallback analyzer are runs of four or more lower-case
    letters. *)
Lemma analyzer_tokens_shape text :
  Forall (fun token => Py.all_chars Py.is_lower token = true
                       /\ 4 <= String.length token)
    (Analyzer.tokens text).
Proof.
  unfold Analyzer.tokens, Py.findall_runs.
  rewrite (findall_runs_from_ext Py.is_alpha Py.is_lower)
    by apply lower_alpha_is_lower.
  by apply findall_runs_from_shape.
Qed.

Lemma triage_tokens_shape text :
  Forall (fun token => Py.all_chars Triage.is_token_char token = true
                       /\ 2 <= String.length token)
    (Triage.tokens text).
Proof. by apply findall_runs_from_shape. Qed.

(** *** The loop of the fallback analyzer, for any limit *)

Lemma keyword_loop_take limit tokens : forall keywords,
  length keywords < Z.to_nat (Z.max 1 limit) ->
  Analyzer.keyword_loop limit tokens keywords
  = take (Z.to_nat (Z.max 1 limit))
      (fold_left (fun acc x => if in_list x acc then acc else acc ++ [x])
         (List.filter (fun token => negb (in_list token Analyzer.STOP_WORDS))
            tokens)
         keywords).
Proof.
  induction tokens as [|t tokens IH]; intros keywords Hlen.
  - simpl. rewrite take_ge; [done|lia].
  - cbn [Analyzer.keyword_loop List.filter].
    destruct (in_list t Analyzer.STOP_WORDS); cbn [negb]; [by apply IH|].
    cbn [fold_left]. destruct (in_list t keywords); [by apply IH|].
    cbv zeta. destruct (limit <=? _)%Z eqn:Hle.
    + apply Z.leb_le in Hle. rewrite length_app in Hle. simpl in Hle.
      destruct (KeywordProps.fold_firsts_prefix
                  (List.filter
                     (fun token => negb (in_list token Analyzer.STOP_WORDS))
                     tokens)
                  (keywords ++ [t])) as [rest ->].
      rewrite take_app_length'; [done|].
      rewrite length_app. simpl. lia.
    + apply Z.leb_gt in Hle. rewrite length_app in Hle. simpl in Hle.
      apply IH. rewrite length_app. simpl. lia.
Qed.

(** X12: for every text and every limit, the keywords of the fallback
    analyzer are the first [max(1, limit)] distinct surviving tokens in the
    order of first appearance (a limit below 1 still gives the first one):
    there are no duplicates, no stop word, and each keyword is a run of four
    or more lower-case letters. *)
Theorem analyzer_keywords_well_formed text limit :
  Analyzer._extract_keywords text limit
  = take (Z.to_nat (Z.max 1 limit))
      (Spec.firsts (Spec.analyzer_survivors text))
  /\ NoDup (Analyzer._extract_keywords text limit)
  /\ length (Analyzer._extract_keywords text limit) <= Z.to_nat (Z.max 1 limit)
  /\ Forall (fun keyword =>
               in_list keyword Analyzer.STOP_WORDS = false
               /\ Py.all_chars Py.is_lower keyword = true
               /\ 4 <= String.length keyword)
       (Analyzer._extract_keywords text limit).
Proof.
  assert (Analyzer._extract_keywords text limit
          = take (Z.to_nat (Z.max 1 limit))
              (Spec.firsts (Spec.analyzer_survivors text))) as Heq.
  { unfold Analyzer._extract_keywords.
    rewrite keyword_loop_take by (simpl; lia). done. }
  rewrite Heq. split; [done|]. split; [|split].
  - eapply sublist_NoDup; [apply KeywordProps.NoDup_firsts|apply sublist_take].
  - rewrite length_take. lia.
  - apply Forall_take, Forall_forall. intros keyword Hk.
    apply (proj1 (KeywordProps.elem_of_firsts _ _)) in Hk.
    unfold Spec.analyzer_survivors in Hk.
    apply list_elem_of_In, filter_In in Hk as [Hk Hstop].
    apply list_elem_of_In in Hk. apply negb_true_iff in Hstop.
    pose proof (analyzer_tokens_shape text) as Hshape.
    rewrite Forall_forall in Hshape. by destruct (Hshape _ Hk).
Qed.

(** X13: for every text and every limit, the keywords of the orchestration
    extractor hold no duplicate, no stop word and no token made of digits
    only; each is a run of two or more characters of [a-z0-9_-]; there are at
    most [KEYWORD_LIMIT] of them, none when the limit is below 1, and every
    surviving token is a keyword when the limit is not reached. *)
Theorem triage_keywords_well_formed KEYWORD_LIMIT text :
  NoDup (Triage._extract_keywords KEYWORD_LIMIT text)
  /\ length (Triage._extract_keywords KEYWORD_LIMIT text)
     <= Z.to_nat KEYWORD_LIMIT
  /\ Forall (fun keyword =>
               in_list keyword Triage.STOP_WORDS = false
               /\ Py.isdigit keyword = false
               /\ Py.all_chars Triage.is_token_char keyword = true
               /\ 2 <= String.length keyword)
       (Triage._extract_keywords KEYWORD_LIMIT text)
  /\ ((KEYWORD_LIMIT <= 0)%Z -> Triage._extract_keywords KEYWORD_LIMIT text = [])
  /\ (length (Triage._extract_keywords KEYWORD_LIMIT text)
      < Z.to_nat KEYWORD_LIMIT ->
      forall token, token ∈ Spec.triage_survivors text ->
        token ∈ Triage._extract_keywords KEYWORD_LIMIT text).
Proof.
  destruct (KeywordProps.triage_extract_keywords_ranked KEYWORD_LIMIT text)
    as (ranking & -> & Hnd & Hin & _).
  split; [|split; [|split; [|split]]].
  - eapply sublist_NoDup; [exact Hnd|apply sublist_take].
  - rewrite length_take. lia.
  - apply Forall_take, Forall_forall. intros keyword Hk.
    apply Hin in Hk. unfold Spec.triage_survivors in Hk.
    apply list_elem_of_In, filter_In in Hk as [Hk Hkeep].
    apply list_elem_of_In in Hk.
    apply andb_true_iff in Hkeep as [Hstop Hdigit].
    apply negb_true_iff in Hstop, Hdigit.
    pose proof (triage_tokens_shape text) as Hshape.
    rewrite Forall_forall in Hshape. by destruct (Hshape _ Hk).
  - intros Hle. replace (Z.to_nat KEYWORD_LIMIT) with 0 by lia. done.
  - rewrite length_take. intros Hlen token Htoken.
    rewrite take_ge by lia. by apply Hin.
Qed.

End KeywordShape.

(** ** The report of the fallback analyzer *)

Module AnalyzeProps.

Import Analyzer PyFacts.

Lemma join_app sep l1 l2 :
  l1 <> [] -> l2 <> [] ->
  Py.join sep (l1 ++ l2) = Py.join sep l1 +:+ sep +:+ Py.join sep l2.
Proof.
  intros H1 H2. induction l1 as [|x l1 IH]; [done|].
  destruct l1 as [|y l1].
  - destruct l2 as [|z l2]; [done|]. done.
  - rewrite <- !app_comm_cons, !join_cons_cons.
    rewrite app_comm_cons, IH by done. by rewrite !str_app_assoc.
Qed.

(** The footer of every report. *)
Lemma report_shape keywords findings :
  exists body,
    report keywords findings
    = "Automated triage check" +:+ NL +:+ body +:+ NL +:+ NL
        +:+ "_reply with `next steps` for additional guidance_".
Proof.
  unfold report. cbv zeta.
  exists (Py.join NL
            ([match keywords with
              | [] => "Keywords: (none detected)"
              | _ :: _ => "Keywords noticed: " +:+ Py.join ", " keywords
              end] ++ concat (finding_lines <$> findings))).
  rewrite !(assoc_L (++)).
  rewrite join_app by (try done; by destruct (concat _)).
  rewrite <- !(assoc_L (++)).
  cbn [app]. rewrite join_cons_cons.
  rewrite !str_app_assoc. done.
Qed.

Lemma repo_search_ok env repo keyword limit :
  (forall limit keyword root exc,
     Repo.run_rg env limit keyword root <> Repo.RgRaise exc) ->
  exists found, Repo.search env repo keyword limit = Ok found.
Proof.
  intros Hrg. unfold Repo.search.
  destruct (Py.is_empty keyword || negb (Repo.exists_ env repo));
    [by eexists|].
  destruct (negb (Repo.RG_AVAILABLE env)); [by eexists|].
  destruct (Repo.run_rg env limit keyword (Repo.root repo))
    as [rc out| |exc] eqn:Hrun; [|by eexists|by apply Hrg in Hrun].
  destruct (negb ((rc =? 0)%Z || (rc =? 1)%Z)); by eexists.
Qed.

Lemma search_keywords_ok env repo keywords : forall matches,
  (forall limit keyword root exc,
     Repo.run_rg env limit keyword root <> Repo.RgRaise exc) ->
  exists found, search_keywords env repo keywords matches = Ok found.
Proof.
  intros matches Hrg. revert matches.
  induction keywords as [|keyword keywords IH]; intros matches;
    cbn [search_keywords]; [by eexists|].
  destruct (repo_search_ok env repo keyword 1 Hrg) as [found ->].
  cbn [and_then]. destruct (3 <=? length (matches ++ found));
    [by eexists|apply IH].
Qed.

Lemma recent_commits_ok env repo limit :
  (forall root limit exc, Repo.run_git env root limit <> Repo.GitRaise exc) ->
  exists commits, Repo.recent_commits env repo limit = Ok commits.
Proof.
  intros Hgit. unfold Repo.recent_commits.
  destruct (negb (Repo.exists_ env repo)); [by eexists|].
  destruct (Repo.run_git env (Repo.root repo) limit) as [out| |exc] eqn:Hrun;
    [by eexists|by eexists|by apply Hgit in Hrun].
Qed.

Lemma inspect_repo_finding env keywords r finding :
  inspect_repo env keywords r = Ok finding ->
  repo finding = Repo.name r /\ (matches finding = [] <-> note finding <> "").
Proof.
  unfold inspect_repo.
  destruct (search_keywords env r keywords []) as [[|m found]|exc];
    cbn [and_then]; [| |done].
  - destruct (Repo.recent_commits env r 1) as [[|last commits]|exc];
      cbn [and_then]; [| |done]; intros [= <-]; simpl; split; done.
  - intros [= <-]. simpl. split; [done|]. split; done.
Qed.

Lemma inspect_repos_findings env keywords repos : forall findings,
  inspect_repos env keywords repos = Ok findings ->
  repo <$> findings = Repo.name <$> repos
  /\ Forall (fun finding => matches finding = [] <-> note finding <> "")
       findings.
Proof.
  induction repos as [|r repos IH]; intros findings; simpl.
  - intros [= <-]. by split.
  - destruct (inspect_repo env keywords r) as [finding|exc] eqn:Hr;
      cbn [and_then]; [|done].
    destruct (inspect_repos env keywords repos) as [rest|exc];
      cbn [and_then]; [|done].
    intros [= <-]. apply inspect_repo_finding in Hr as [Hname Hnote].
    destruct (IH rest eq_refl) as [Hnames Hall].
    split; [csimpl; by rewrite Hname, Hnames|by constructor].
Qed.

Lemma inspect_repos_ok env keywords repos :
  (forall limit keyword root exc,
     Repo.run_rg env limit keyword root <> Repo.RgRaise exc) ->
  (forall root limit exc, Repo.run_git env root limit <> Repo.GitRaise exc) ->
  exists findings, inspect_repos env keywords repos = Ok findings.
Proof.
  intros Hrg Hgit. induction repos as [|r repos [findings IH]]; simpl;
    [by eexists|].
  unfold inspect_repo.
  destruct (search_keywords_ok env r keywords [] Hrg) as [found ->].
  cbn [and_then].
  destruct found as [|m found]; cbn [and_then].
  - destruct (recent_commits_ok env r 1 Hgit) as [commits ->].
    cbn [and_then]. rewrite IH.
    destruct commits; cbn [and_then]; by eexists.
  - rewrite IH. cbn [and_then]. by eexists.
Qed.

(** X14: when the analyzer has repositories, a summary it returns is the
    report of one finding per repository, in the order of the repositories,
    where a finding carries a note exactly when it has no match; the report
    opens with the title line and closes with an empty line and the hint to
    reply with next steps.  The analyzer raises only what ripgrep or git
    raise: when neither does, it returns a summary. *)
Theorem analyze_report env self incident_text :
  (forall summary,
     analyze env self incident_text = Ok summary ->
     repos self <> [] ->
     exists findings body,
       summary
       = report (_extract_keywords incident_text DEFAULT_LIMIT) findings
       /\ repo <$> findings = Repo.name <$> repos self
       /\ Forall (fun finding => matches finding = [] <-> note finding <> "")
            findings
       /\ summary
          = "Automated triage check" +:+ NL +:+ body +:+ NL +:+ NL
              +:+ "_reply with `next steps` for additional guidance_")
  /\ ((forall limit keyword root exc,
         Repo.run_rg env limit keyword root <> Repo.RgRaise exc) ->
      (forall root limit exc,
         Repo.run_git env root limit <> Repo.GitRaise exc) ->
      exists summary, analyze env self incident_text = Ok summary).
Proof.
  unfold analyze. split.
  - intros summary Hsum Hrepos.
    destruct (repos self) as [|r rs] eqn:Hrs; [done|].
    destruct (inspect_repos env _ (r :: rs)) as [findings|exc] eqn:Hins;
      cbn [and_then] in Hsum; [|done].
    injection Hsum as <-.
    apply inspect_repos_findings in Hins as [Hnames Hnotes].
    destruct (report_shape
                (_extract_keywords incident_text DEFAULT_LIMIT) findings)
      as [body Hbody].
    by exists findings, body.
  - intros Hrg Hgit. destruct (repos self) as [|r rs]; [by eexists|].
    destruct (inspect_repos_ok env
                (_extract_keywords incident_text DEFAULT_LIMIT) (r :: rs)
                Hrg Hgit) as [findings ->].
    cbn [and_then]. by eexists.
Qed.

End AnalyzeProps.

(** ** The language-model tier *)

Module LLMProps.

Import LLM PyFacts.

Lemma list_last_n_idemp {A} n (l : list A) :
  Py.list_last_n n (Py.list_last_n n l) = Py.list_last_n n l.
Proof.
  apply ThreadProps.list_last_n_short.
  rewrite ThreadProps.length_list_last_n. lia.
Qed.

Lemma list_last_n_nil_iff {A} n (l : list A) :
  0 < n -> (Py.list_last_n n l = [] <-> l = []).
Proof.
  intros Hn. split; [|by intros ->].
  intros H. apply (f_equal length) in H.
  rewrite ThreadProps.length_list_last_n in H. simpl in H.
  destruct l; [done|]. simpl in H. lia.
Qed.

(** The prompt shows the last eight lines of the thread and the first five
    tool results only. *)
Lemma prompt_window request tool_results :
  prompt request tool_results
  = prompt
      {| sender_email := sender_email request;
         stream := stream request;
         topic := topic request;
         incident_text := incident_text request;
         thread_context := Py.list_last_n 8 (thread_context request) |}
      (Py.list_slice_to 5 tool_results).
Proof.
  unfold prompt. cbn [thread_context incident_text].
  rewrite list_last_n_idemp.
  rewrite ToolsProps.list_slice_to_idemp by lia.
  f_equal. f_equal. f_equal.
  - destruct (thread_context request) as [|line lines] eqn:Hctx; [done|].
    destruct (Py.list_last_n 8 (line :: lines)) eqn:Hlast; [|done].
    apply list_last_n_nil_iff in Hlast; [done|lia].
  - f_equal. destruct tool_results as [|result results]; done.
Qed.

Lemma run_answer_enabled self request tool_results answer :
  run self request tool_results = Ok (Some answer) ->
  answer <> "" /\ enabled self = true.
Proof.
  unfold run. destruct (enabled self); cbn [negb]; [|done].
  destruct (exec self (model self) (prompt request tool_results))
    as [|returncode last_message|exc]; [done| |done].
  destruct (negb (returncode =? 0)%Z); [done|].
  destruct (Py.is_empty (Py.strip last_message)) eqn:Hempty; [done|].
  intros [= <-]. by apply is_empty_false in Hempty.
Qed.

(** X15: an answer of [LLMAgent.run] is never empty and carries no
    surrounding space: it is the stripped text the CLI left, after a run of
    the enabled agent that ended with status 0.  A disabled agent, a CLI
    that could not be started or ended with another status, and a blank
    output all give no answer.  The prompt depends on the last eight thread
    lines and the first five tool results only. *)
Theorem llm_run_answer self request tool_results :
  (forall answer,
     run self request tool_results = Ok (Some answer) ->
     answer <> "" /\ Py.strip answer = answer /\ enabled self = true
     /\ exists last_message,
          exec self (model self) (prompt request tool_results)
          = ExecCompleted 0 last_message
          /\ answer = Py.strip last_message)
  /\ (enabled self = false -> run self request tool_results = Ok None)
  /\ (exec self (model self) (prompt request tool_results) = ExecFailed ->
      run self request tool_results = Ok None)
  /\ (forall returncode last_message,
        exec self (model self) (prompt request tool_results)
        = ExecCompleted returncode last_message ->
        returncode <> 0%Z \/ Py.strip last_message = "" ->
        run self request tool_results = Ok None)
  /\ run self request tool_results
     = run self
         {| sender_email := sender_email request;
            stream := stream request;
            topic := topic request;
            incident_text := incident_text request;
            thread_context := Py.list_last_n 8 (thread_context request) |}
         (Py.list_slice_to 5 tool_results).
Proof.
  split; [|split; [|split; [|split]]].
  - unfold run. intros answer.
    destruct (enabled self); cbn [negb]; [|done].
    destruct (exec self (model self) (prompt request tool_results))
      as [|returncode last_message|exc]; [done| |done].
    destruct (returncode =? 0)%Z eqn:Hrc; cbn [negb]; [|done].
    apply Z.eqb_eq in Hrc as ->.
    destruct (Py.is_empty (Py.strip last_message)) eqn:Hempty; [done|].
    intros [= <-]. apply is_empty_false in Hempty.
    split; [done|]. split; [apply strip_idemp|]. split; [done|].
    by exists last_message.
  - unfold run. by intros ->.
  - unfold run. intros ->. by destruct (negb (enabled self)).
  - unfold run. intros returncode last_message -> Hor.
    destruct (negb (enabled self)); [done|].
    destruct (returncode =? 0)%Z eqn:Hrc; cbn [negb]; [|done].
    apply Z.eqb_eq in Hrc as ->. destruct Hor as [?| ->]; done.
  - unfold run. by rewrite <- prompt_window.
Qed.

End LLMProps.

(** ** The tiers of the triage service *)

Module TierProps.

Import Tools Triage.

(** X16: when the tools were gathered and the language-model tier gives an
    answer, [TriageService.run] returns this answer and the fallback analyzer
    is not consulted; when the tier raises, so does [run].  In both cases the
    registry is left as [gather] left it. *)
Theorem run_llm_tier env KEYWORD_LIMIT self request st tool_results st' :
  gather env KEYWORD_LIMIT (orchestrator self) request st
    = (Ok tool_results, st') ->
  (forall answer,
     LLM.run (llm_agent self) request tool_results = Ok (Some answer) ->
     run env KEYWORD_LIMIT self request st = (Ok answer, st')
     /\ forall analyzer',
          run env KEYWORD_LIMIT
            {| analyzer := analyzer';
               llm_agent := llm_agent self;
               orchestrator := orchestrator self |} request st
          = (Ok answer, st'))
  /\ (forall exc,
        LLM.run (llm_agent self) request tool_results = Raise exc ->
        run env KEYWORD_LIMIT self request st = (Raise exc, st')).
Proof.
  intros Hgather. split.
  - intros answer Hanswer.
    destruct (LLMProps.run_answer_enabled _ _ _ _ Hanswer) as [Hne Hen].
    assert (forall analyzer',
              run env KEYWORD_LIMIT
                {| analyzer := analyzer';
                   llm_agent := llm_agent self;
                   orchestrator := orchestrator self |} request st
              = (Ok answer, st')) as Hany.
    { intros analyzer'. unfold run, bind. cbn [orchestrator llm_agent].
      rewrite Hgather, Hen. unfold lift, ret. rewrite Hanswer.
      destruct answer; [done|]. done. }
    split; [|done]. specialize (Hany (analyzer self)). by destruct self.
  - intros exc Hexc. unfold run, bind. rewrite Hgather.
    assert (LLM.enabled (llm_agent self) = true) as ->.
    { unfold LLM.run in Hexc. by destruct (LLM.enabled (llm_agent self)). }
    unfold lift. by rewrite Hexc.
Qed.

Lemma run_llm_tier_witness :
  run Examples.two_files 12
    {| analyzer := {| Analyzer.repos := [] |};
       llm_agent :=
         {| LLM.cli_path := Some "/usr/bin/codex";
            LLM.node_path := Some "/usr/bin/node";
            LLM.logged_in := true;
            LLM.model := None;
            LLM.exec := fun _ _ =>
              LLM.ExecCompleted 0 (" **Finding** LOW: need logs" +:+ NL) |};
       orchestrator :=
         {| registry := {| repos := []; sourcegraph := None |};
            include_commits := false |} |}
    Examples.deploy_request initial_state
  = (Ok "**Finding** LOW: need logs", initial_state).
Proof.
  apply (run_llm_tier Examples.two_files 12
           {| analyzer := {| Analyzer.repos := [] |};
              llm_agent :=
                {| LLM.cli_path := Some "/usr/bin/codex";
                   LLM.node_path := Some "/usr/bin/node";
                   LLM.logged_in := true;
                   LLM.model := None;
                   LLM.exec := fun _ _ =>
                     LLM.ExecCompleted 0
                       (" **Finding** LOW: need logs" +:+ NL) |};
              orchestrator :=
                {| registry := {| repos := []; sourcegraph := None |};
                   include_commits := false |} |}
           Examples.deploy_request initial_state [] initial_state).
  - vm_compute. reflexivity.
  - vm_compute. reflexivity.
Defined.

End TierProps.

(** ** Addressing a reply *)

Module ReplyAddress.

Import Zulip.

(** X17: a reply to a message that is not a channel message goes to a list
    of addresses that is never empty: the addresses of the listed users
    other than the bot, in their order, or the sender alone when no such
    user is listed or the recipient is not a list; the bot's own address is
    among them only as the sender, and every listed user other than the bot
    is addressed.  The reply keeps the type of the message and carries the
    content unchanged. *)
Theorem reply_request_private self message content :
  req_type (reply_request self message content) = type message
  /\ req_content (reply_request self message content) = content
  /\ (type message <> "stream" ->
      exists emails,
        req_to (reply_request self message content) = DestUsers emails
        /\ emails <> []
        /\ (emails = [msg_sender_email message]
            \/ exists users,
                 display_recipient message = ToUsers users
                 /\ emails
                    = (fun r => Some (email r))
                        <$> List.filter
                              (fun r => negb (String.eqb (email r)
                                                (zulip_email self))) users)
        /\ (Some (zulip_email self) ∈ emails ->
            emails = [msg_sender_email message])
        /\ (forall users r,
              display_recipient message = ToUsers users ->
              r ∈ users -> email r <> zulip_email self ->
              Some (email r) ∈ emails)).
Proof.
  split; [done|]. split; [done|]. intros Htype.
  unfold reply_request. cbn [req_to].
  apply String.eqb_neq in Htype as ->.
  eexists. split; [reflexivity|].
  destruct (display_recipient message) as [name|users] eqn:Hrecipient.
  - split; [done|]. split; [by left|]. split; [done|]. by intros ? ? [=].
  - destruct (List.filter
                (fun r => negb (String.eqb (email r) (zulip_email self)))
                users) as [|r0 rest] eqn:Hfilter.
    + split; [done|]. split; [by left|]. split; [done|].
      intros users' r [= <-] Hr Hne. exfalso.
      assert (In r []) as []. rewrite <- Hfilter. apply filter_In.
      split; [by apply list_elem_of_In|].
      apply negb_true_iff. by apply String.eqb_neq.
    + csimpl. split; [done|].
      split; [right; exists users; split; [done|]; by rewrite Hfilter|].
      split.
      * intros Hin. exfalso.
        change (Some (zulip_email self)
                ∈ (fun r => Some (email r)) <$> (r0 :: rest)) in Hin.
        apply list_elem_of_fmap in Hin as (r' & [= Heq] & Hr').
        rewrite <- Hfilter in Hr'.
        apply list_elem_of_In, filter_In in Hr' as [_ Hr'].
        apply negb_true_iff, String.eqb_neq in Hr'. done.
      * intros users' r [= <-] Hr Hne.
        change (Some (email r) ∈ (fun r => Some (email r)) <$> (r0 :: rest)).
        apply list_elem_of_fmap. exists r. split; [done|].
        rewrite <- Hfilter. apply list_elem_of_In, filter_In.
        split; [by apply list_elem_of_In|].
        apply negb_true_iff. by apply String.eqb_neq.
Qed.

Lemma reply_request_private_witness :
  exists emails,
    req_to (reply_request Examples.chat
              {| type := "private";
                 display_recipient :=
                   ToUsers [ mkRecipient "triage-bot@example.com";
                             mkRecipient "ann@example.com" ];
                 subject := "";
                 msg_sender_email := Some "ann@example.com";
                 msg_content := "ping" |} "pong")
    = DestUsers emails
    /\ emails <> [].
Proof.
  destruct (proj2 (proj2 (reply_request_private Examples.chat
              {| type := "private";
                 display_recipient :=
                   ToUsers [ mkRecipient "triage-bot@example.com";
                             mkRecipient "ann@example.com" ];
                 subject := "";
                 msg_sender_email := Some "ann@example.com";
                 msg_content := "ping" |} "pong")))
    as (emails & Hto & Hne & _).
  - discriminate.
  - by exists emails.
Defined.

End ReplyAddress.

(** ** Flattened message text *)

Module PlainTextProps.

Import Main PyFacts Notions.

Lemma split_ws_from_words s : forall cur,
  Py.all_chars (fun c => negb (Py.is_space c)) cur = true ->
  Forall is_word_piece (Py.split_ws_from cur s).
Proof.
  induction s as [|c s IH]; intros cur Hcur; simpl.
  - destruct cur; [constructor|]. by repeat constructor.
  - destruct (Py.is_space c) eqn:Hc.
    + destruct cur; simpl; [by apply IH|].
      constructor; [done|]. by apply IH.
    + apply IH. by rewrite KeywordShape.all_chars_snoc, Hcur, Hc.
Qed.

Lemma split_ws_from_word w rest : forall cur,
  Py.all_chars (fun c => negb (Py.is_space c)) w = true ->
  Py.split_ws_from cur (w +:+ rest) = Py.split_ws_from (cur +:+ w) rest.
Proof.
  induction w as [|c w IH]; intros cur Hw.
  - by rewrite str_app_nil_l, str_app_nil_r.
  - simpl in Hw. apply andb_true_iff in Hw as [Hc Hw].
    apply negb_true_iff in Hc. rewrite str_app_cons. simpl. rewrite Hc.
    rewrite IH by done. by rewrite str_app_assoc.
Qed.

(** Splitting the joined words gives the words back. *)
Lemma split_ws_join words :
  Forall is_word_piece words ->
  Py.split_ws (Py.join " " words) = words.
Proof.
  unfold Py.split_ws. induction 1 as [|w words [Hne Hw] Hall IH]; [done|].
  destruct words as [|w' words].
  - simpl. rewrite <- (str_app_nil_r w) at 1.
    rewrite split_ws_from_word by done. rewrite str_app_nil_l. simpl.
    by destruct w.
  - rewrite join_cons_cons, split_ws_from_word, str_app_nil_l by done.
    rewrite str_app_cons, str_app_nil_l. cbn [Py.split_ws_from].
    change (Py.is_space " ") with true. cbn iota.
    destruct w; [done|]. cbn [Py.is_empty]. by rewrite IH.
Qed.

Lemma word_rstrip w : is_word_piece w -> Py.rstrip w = w.
Proof.
  intros [_ Hw]. induction w as [|c w IH]; [done|].
  simpl in Hw. apply andb_true_iff in Hw as [Hc Hw].
  apply negb_true_iff in Hc. rewrite rstrip_cons, IH by done.
  destruct w; [by rewrite Hc|done].
Qed.

Lemma rstrip_app a b : b <> "" -> Py.rstrip b = b -> Py.rstrip (a +:+ b) = a +:+ b.
Proof.
  intros Hne Hb. induction a as [|c a IH]; [by rewrite str_app_nil_l|].
  rewrite str_app_cons, rstrip_cons, IH.
  destruct (a +:+ b) eqn:Hab; [|done].
  destruct a; [|done]. by rewrite str_app_nil_l in Hab.
Qed.

Lemma join_words_nonempty w words :
  is_word_piece w -> Py.join " " (w :: words) <> "".
Proof.
  intros [Hne _]. destruct words; simpl; [done|]. by destruct w.
Qed.

Lemma join_words_rstrip words :
  Forall is_word_piece words ->
  Py.rstrip (Py.join " " words) = Py.join " " words.
Proof.
  induction 1 as [|w words Hw Hall IH]; [done|].
  destruct words as [|w' words]; [by apply word_rstrip|].
  rewrite join_cons_cons. apply rstrip_app.
  - intros H. destruct (Py.join " " (w' :: words)) eqn:Hj; done.
  - rewrite str_app_cons, str_app_nil_l, rstrip_cons, IH.
    apply Forall_cons in Hall as [Hw' _].
    pose proof (join_words_nonempty w' words Hw') as Hne.
    by destruct (Py.join " " (w' :: words)).
Qed.

Lemma join_words_head words :
  Forall is_word_piece words -> no_space_head (Py.join " " words).
Proof.
  destruct 1 as [|w words [Hne Hw] Hall]; [done|].
  destruct w as [|c w]; [done|]. simpl in Hw.
  apply andb_true_iff in Hw as [Hc _]. apply negb_true_iff in Hc.
  destruct words; simpl; done.
Qed.

Lemma join_words_strip words :
  Forall is_word_piece words ->
  Py.strip (Py.join " " words) = Py.join " " words.
Proof.
  intros Hall. unfold Py.strip.
  rewrite lstrip_no_space_head by by apply join_words_head.
  by apply join_words_rstrip.
Qed.

Lemma join_words_spaces words :
  Forall is_word_piece words ->
  Py.all_chars (fun c => negb (Py.is_space c) || Ascii.eqb c " ")
    (Py.join " " words) = true.
Proof.
  assert (forall w, is_word_piece w ->
            Py.all_chars (fun c => negb (Py.is_space c) || Ascii.eqb c " ") w
            = true) as Hword.
  { intros w [_ Hw]. induction w as [|c w IH]; [done|].
    simpl in Hw |- *. apply andb_true_iff in Hw as [-> Hw]. by rewrite IH. }
  assert (forall a b,
            Py.all_chars (fun c => negb (Py.is_space c) || Ascii.eqb c " ")
              (a +:+ b)
            = Py.all_chars (fun c => negb (Py.is_space c) || Ascii.eqb c " ") a
              && Py.all_chars
                   (fun c => negb (Py.is_space c) || Ascii.eqb c " ") b)
    as Happ.
  { intros a b. induction a as [|c a IH]; [done|].
    rewrite str_app_cons. simpl. by rewrite IH, andb_assoc. }
  induction 1 as [|w words Hw Hall IH]; [done|].
  destruct words as [|w' words]; [by apply Hword|].
  rewrite join_cons_cons, !Happ, Hword, IH by done. done.
Qed.

Section WithCharref.

Variable charref_sub : string -> string.

(** X18: the text [_plain_text] returns is in normal form: it is made of the
    words of the content once character references are replaced and tags
    removed, with a single space between two words; so it has no space at
    either end, no space character other than the plain space, and
    flattening its whitespace again changes nothing.  A missing or empty
    content gives the empty text. *)
Theorem plain_text_normal_form (content : option string) :
  Py.split_ws (_plain_text charref_sub content)
    = Py.split_ws (sub_tags false (unescape charref_sub (Py.or_str content "")))
  /\ Py.join " " (Py.split_ws (_plain_text charref_sub content))
     = _plain_text charref_sub content
  /\ Py.strip (_plain_text charref_sub content) = _plain_text charref_sub content
  /\ Py.all_chars (fun c => negb (Py.is_space c) || Ascii.eqb c " ")
       (_plain_text charref_sub content) = true
  /\ (content = None \/ content = Some "" ->
      _plain_text charref_sub content = "").
Proof.
  unfold _plain_text. cbv zeta.
  pose proof (split_ws_from_words
                (sub_tags false (unescape charref_sub (Py.or_str content "")))
                "" eq_refl) as Hwords.
  fold (Py.split_ws
          (sub_tags false (unescape charref_sub (Py.or_str content ""))))
    in Hwords.
  split; [by apply split_ws_join|]. split; [by rewrite split_ws_join|].
  split; [by apply join_words_strip|]. split; [by apply join_words_spaces|].
  intros [-> | ->]; done.
Qed.

End WithCharref.

End PlainTextProps.

(** ** Tags in message text *)

Module TagProps.

Import Main PyFacts.

Lemma sub_tags_no_open s :
  Py.contains_char "<" s = false -> sub_tags false s = s.
Proof.
  induction s as [|c s IH]; [done|]. cbn [Py.contains_char sub_tags].
  intros [Hc Hs]%orb_false_iff. rewrite Ascii.eqb_sym, Hc. cbn [andb].
  by rewrite IH.
Qed.

Lemma tag_follows_no_close s :
  Py.contains_char ">" s = false -> tag_follows s = false.
Proof.
  unfold tag_follows. destruct s; [done|]. intros ->. apply andb_false_r.
Qed.

Lemma sub_tags_no_close s :
  Py.contains_char ">" s = false -> sub_tags false s = s.
Proof.
  induction s as [|c s IH]; [done|]. cbn [Py.contains_char sub_tags].
  intros [Hc Hs]%orb_false_iff.
  rewrite tag_follows_no_close, andb_false_r by done. by rewrite IH.
Qed.

Lemma sub_tags_inside body after :
  Py.contains_char ">" body = false ->
  sub_tags true (body +:+ ">" +:+ after) = " " +:+ sub_tags false after.
Proof.
  induction body as [|c body IH].
  - intros _. rewrite str_app_nil_l, str_app_cons, str_app_nil_l. done.
  - cbn [Py.contains_char]. intros [Hc Hs]%orb_false_iff.
    rewrite str_app_cons. cbn [sub_tags].
    rewrite Ascii.eqb_sym, Hc. by apply IH.
Qed.

Lemma sub_tags_before before rest :
  Py.contains_char "<" before = false ->
  sub_tags false (before +:+ rest) = before +:+ sub_tags false rest.
Proof.
  induction before as [|c before IH]; [done|]. cbn [Py.contains_char].
  intros [Hc Hs]%orb_false_iff. rewrite !str_app_cons. cbn [sub_tags].
  rewrite Ascii.eqb_sym, Hc. cbn [andb]. by rewrite IH.
Qed.

Lemma sub_tags_tag body after :
  body <> "" -> Py.contains_char ">" body = false ->
  sub_tags false ("<" +:+ body +:+ ">" +:+ after)
  = " " +:+ sub_tags false after.
Proof.
  intros Hne Hbody. rewrite str_app_cons, str_app_nil_l. cbn [sub_tags].
  assert (tag_follows (body +:+ ">" +:+ after) = true) as ->.
  { destruct body as [|c body]; [done|]. rewrite str_app_cons.
    unfold tag_follows. cbn [Py.contains_char] in Hbody.
    apply orb_false_iff in Hbody as [Hc _].
    rewrite Ascii.eqb_sym, Hc. cbn [negb andb].
    rewrite <- str_app_cons, contains_char_app, str_app_cons, str_app_nil_l.
    cbn [Py.contains_char]. rewrite Ascii.eqb_refl.
    by rewrite orb_true_r. }
  rewrite Ascii.eqb_refl. cbn [andb]. by apply sub_tags_inside.
Qed.

Section WithCharref.

Variable charref_sub : string -> string.

(** X19: in a content without ampersand, [_plain_text] treats the first [<]
    that is followed by one character or more other than [>] and then [>] as
    a tag and reads it as a space; a content with no [<], or with no [>], is
    only normalised in its whitespace: an unclosed [<] and the text [<>]
    stay. *)
Theorem plain_text_tags :
  (forall before body after,
     Py.contains_char "&" (before +:+ "<" +:+ body +:+ ">" +:+ after) = false ->
     Py.contains_char "<" before = false ->
     body <> "" -> Py.contains_char ">" body = false ->
     _plain_text charref_sub (Some (before +:+ "<" +:+ body +:+ ">" +:+ after))
     = _plain_text charref_sub (Some (before +:+ " " +:+ after)))
  /\ (forall content,
        Py.contains_char "&" content = false ->
        Py.contains_char "<" content = false
        \/ Py.contains_char ">" content = false ->
        _plain_text charref_sub (Some content)
        = Py.join " " (Py.split_ws content))
  /\ _plain_text charref_sub (Some "a <> b") = "a <> b".
Proof.
  assert (forall s, Py.or_str (Some s) "" = s) as Hor by (by intros []).
  split; [|split].
  - intros before body after Hamp Hbefore Hne Hbody.
    unfold _plain_text, unescape. rewrite !Hor, Hamp.
    assert (Py.contains_char "&" (before +:+ " " +:+ after) = false) as ->.
    { rewrite contains_char_app in Hamp.
      apply orb_false_iff in Hamp as [Hb Hamp].
      rewrite contains_char_app in Hamp.
      apply orb_false_iff in Hamp as [_ Hamp].
      rewrite contains_char_app in Hamp.
      apply orb_false_iff in Hamp as [_ Hamp].
      rewrite contains_char_app in Hamp.
      apply orb_false_iff in Hamp as [_ Ha].
      by rewrite !contains_char_app, Hb, Ha. }
    cbv zeta. do 2 f_equal.
    rewrite (sub_tags_before before ("<" +:+ body +:+ ">" +:+ after)) by done.
    rewrite sub_tags_tag by done.
    rewrite (sub_tags_before before (" " +:+ after)) by done.
    rewrite !str_app_cons, !str_app_nil_l. cbn [sub_tags].
    change (Ascii.eqb " " "<") with false. by cbn [andb].
  - intros content Hamp Htag. unfold _plain_text, unescape.
    rewrite Hor, Hamp. cbv zeta.
    destruct Htag as [H|H];
      [by rewrite sub_tags_no_open|by rewrite sub_tags_no_close].
  - vm_compute. reflexivity.
Qed.

End WithCharref.

End TagProps.

(** ** Gathering tool results *)

Module GatherProps.

Import Tools Triage PyFacts Notions.

(** *** The directory of a path *)

Lemma startswith_app p q : Py.startswith p (p +:+ q) = true.
Proof.
  induction p as [|c p IH]; [done|]. rewrite str_app_cons. simpl.
  by rewrite Ascii.eqb_refl, IH.
Qed.

Lemma startswith_self p : Py.startswith p p = true.
Proof. rewrite <- (str_app_nil_r p) at 2. apply startswith_app. Qed.

Lemma directory_of_prefix path :
  Py.startswith (directory_of path) path = true.
Proof.
  unfold directory_of, Py.split_char.
  pose proof (split_char_from_join "/" path "") as Hjoin.
  rewrite str_app_nil_l in Hjoin.
  destruct (Py.split_char_from "/" "" path) as [|a [|b rest]]; [done| |].
  - simpl in Hjoin. subst. apply startswith_self.
  - rewrite <- Hjoin, join_cons_cons. destruct rest as [|c rest].
    + apply startswith_self.
    + rewrite join_cons_cons.
      replace (a +:+ "/" +:+ b +:+ "/" +:+ Py.join "/" (c :: rest))
        with ((a +:+ "/" +:+ b) +:+ "/" +:+ Py.join "/" (c :: rest))
        by (by rewrite !str_app_assoc).
      apply startswith_app.
Qed.

Lemma directory_of_empty path : directory_of path = "" <-> path = "".
Proof.
  split; [|by intros ->]. unfold directory_of, Py.split_char.
  pose proof (split_char_from_join "/" path "") as Hjoin.
  pose proof (split_char_from_nonempty "/" path "") as Hne.
  rewrite str_app_nil_l in Hjoin.
  destruct (Py.split_char_from "/" "" path) as [|a [|b rest]]; [done| |].
  - simpl in Hjoin. by intros ->.
  - intros H. by destruct a.
Qed.

Lemma directory_of_idemp path :
  directory_of (directory_of path) = directory_of path.
Proof.
  unfold directory_of at 2 3. unfold Py.split_char.
  pose proof (split_char_from_no_sep "/" path "" eq_refl) as Hno.
  destruct (Py.split_char_from "/" "" path) as [|a [|b rest]]; [done| |].
  - apply Forall_cons in Hno as [Ha _]. unfold directory_of, Py.split_char.
    change a with (Py.join "/" [a]) at 1.
    rewrite split_char_from_joined by by constructor. done.
  - apply Forall_cons in Hno as [Ha Hno]. apply Forall_cons in Hno as [Hb _].
    unfold directory_of, Py.split_char.
    change (a +:+ "/" +:+ b) with (Py.join "/" [a; b]) at 1.
    rewrite split_char_from_joined by (by repeat constructor). done.
Qed.

(** *** Loops over the registry *)

Lemma for_each_invariant {A S} (I : S -> RegistryState -> Prop)
    (body : A -> S -> M S) l : forall acc st out st',
  I acc st ->
  (forall x acc st acc' st',
     x ∈ l -> I acc st -> body x acc st = (Ok acc', st') -> I acc' st') ->
  for_each l body acc st = (Ok out, st') ->
  I out st'.
Proof.
  induction l as [|x l IH]; intros acc st out st' Hacc Hbody; simpl.
  - unfold ret. by intros [= <- <-].
  - unfold bind. destruct (body x acc st) as [[acc1|exc] st1] eqn:Hx; [|done].
    apply IH.
    + eapply Hbody; [by left|done|done].
    + intros y acc2 st2 acc3 st3 Hy. apply Hbody. by right.
Qed.

Lemma incr_keys token (counts : Counter) :
  (incr token counts).*1
  = if in_list token counts.*1 then counts.*1 else counts.*1 ++ [token].
Proof.
  unfold in_list. induction counts as [|[k n] counts IH]; csimpl; [done|].
  rewrite (String.eqb_sym token k).
  destruct (String.eqb k token) eqn:Heq; csimpl; [done|].
  rewrite IH. by destruct (existsb (String.eqb token) counts.*1).
Qed.

Lemma bind_Ok {A B} (m : M A) (k : A -> M B) st b st' :
  bind m k st = (Ok b, st') ->
  exists a st1, m st = (Ok a, st1) /\ k a st1 = (Ok b, st').
Proof.
  unfold bind. destruct (m st) as [[a|exc] st1]; [|done]. by exists a, st1.
Qed.

Lemma for_each_state_fixed {A S} (body : A -> S -> M S) l st : forall acc,
  (forall x acc, x ∈ l -> (body x acc st).2 = st) ->
  (for_each l body acc st).2 = st.
Proof.
  induction l as [|x l IH]; intros acc Hbody; [done|].
  simpl. unfold bind.
  pose proof (Hbody x acc (list_elem_of_here x l)) as Hx.
  destruct (body x acc st) as [[acc1|exc] st1]; simpl in Hx; subst st1;
    [|done].
  apply IH. intros y acc2 Hy. apply Hbody. by right.
Qed.

(** *** Dynamic directories *)

Lemma count_directory_keys (matches : list Repo.RepoMatch) : forall counter,
  directory_keys counter ->
  directory_keys
    (fold_left (fun (counter : Counter) (m : Repo.RepoMatch) =>
                  let directory := directory_of (Repo.path m) in
                  if Py.is_empty directory then counter
                  else incr directory counter)
       matches counter).
Proof.
  induction matches as [|m matches IH]; intros counter Hkeys; [done|].
  cbn [fold_left]. apply IH. cbv zeta.
  destruct (Py.is_empty (directory_of (Repo.path m))) eqn:Hempty; [done|].
  apply is_empty_false in Hempty. destruct Hkeys as [Hnd Hall].
  unfold directory_keys. rewrite incr_keys.
  destruct (in_list (directory_of (Repo.path m)) counter.*1) eqn:Hin;
    [done|].
  apply KeywordProps.in_list_false in Hin. split.
  - apply NoDup_app. split; [done|]. split; [|apply NoDup_singleton].
    intros d Hd ->%list_elem_of_singleton. done.
  - apply Forall_app. split; [done|]. constructor; [|done].
    split; [done|apply directory_of_idemp].
Qed.

Lemma filter_sublist {A} (f : A -> bool) l : List.filter f l `sublist_of` l.
Proof.
  induction l as [|x l IH]; [done|]. simpl.
  destruct (f x); [by apply sublist_skip|by apply sublist_cons].
Qed.

Lemma Forall_sublist {A} (P : A -> Prop) l1 l2 :
  Forall P l2 -> l1 `sublist_of` l2 -> Forall P l1.
Proof.
  intros Hall Hsub. apply Forall_forall. intros x Hx.
  rewrite Forall_forall in Hall. apply Hall.
  by apply (elem_of_sublist l1 l2).
Qed.

(** X20: the directories [_dynamic_directories] returns are distinct and
    not empty, there are at most [max_dirs] of them, and each is a path of
    one or two segments; the directory counted for a match is a prefix of
    the path of the match, and is empty for the empty path only. *)
Theorem dynamic_directories_shape env self repo keywords max_dirs st dirs st' :
  _dynamic_directories env self repo keywords max_dirs st = (Ok dirs, st') ->
  NoDup dirs
  /\ length dirs <= Z.to_nat max_dirs
  /\ Forall (fun d => d <> "" /\ directory_of d = d) dirs
  /\ (forall path,
        Py.startswith (directory_of path) path = true
        /\ (directory_of path = "" <-> path = "")).
Proof.
  unfold _dynamic_directories. intros Hrun.
  apply bind_Ok in Hrun as (counter & st1 & Hloop & Hret).
  unfold ret in Hret. injection Hret as <- <-.
  assert (directory_keys counter) as [Hnd Hall].
  { eapply (for_each_invariant (fun counter _ => directory_keys counter));
      [|clear Hloop|exact Hloop].
    - split; constructor.
    - intros keyword acc st0 acc' st0' _ Hacc Hbody.
      apply bind_Ok in Hbody as (matches & st2 & _ & Hret).
      unfold ret in Hret. injection Hret as <- <-.
      by apply count_directory_keys. }
  assert ((most_common max_dirs counter).*1 `sublist_of`
            (sorted_desc counter).*1) as Hsub.
  { unfold most_common. rewrite fmap_take. apply sublist_take. }
  assert ((sorted_desc counter).*1 ≡ₚ counter.*1) as Hperm.
  { apply fmap_Permutation, KeywordProps.sorted_desc_perm. }
  split; [|split; [|split]].
  - eapply sublist_NoDup; [|apply filter_sublist].
    eapply sublist_NoDup; [|exact Hsub]. by rewrite Hperm.
  - etrans; [apply sublist_length, filter_sublist|].
    unfold most_common. rewrite length_fmap, length_take. lia.
  - eapply Forall_sublist; [|apply filter_sublist].
    eapply Forall_sublist; [|exact Hsub]. by rewrite Hperm.
  - intros path. split; [apply directory_of_prefix|apply directory_of_empty].
Qed.

Lemma dynamic_directories_shape_witness :
  NoDup ["app/a.rb"; "lib/b.rb"] /\ length ["app/a.rb"; "lib/b.rb"] <= 5.
Proof.
  destruct (dynamic_directories_shape Examples.two_files
              {| registry := Examples.adwyze_only; include_commits := false |}
              "adwyze" ["deploy"] 5 initial_state
              ["app/a.rb"; "lib/b.rb"]
              (search_code Examples.two_files Examples.adwyze_only "adwyze"
                 "deploy" 3 None initial_state).2)
    as (Hnd & Hlen & _).
  - vm_compute. reflexivity.
  - split; [exact Hnd|exact Hlen].
Defined.

(** *** The second pass over the keywords *)

Lemma search_code_keeps_cached env self repo_name query limit directories st
    repo queries :
  all_cached repo queries st ->
  all_cached repo queries
    (search_code env self repo_name query limit directories st).2.
Proof.
  intros Hcached q Hq. specialize (Hcached q Hq).
  destruct (RegistryProps.search_code_cache_cases env self repo_name query
              limit directories st)
    as [(? & _ & ->)|(matches & _ & [-> |[Hnone ->]])]; [done|done|].
  destruct (decide ((repo_name, query) = (repo, q))) as [->|Hne].
  - by rewrite lookup_insert_eq.
  - by rewrite lookup_insert_ne.
Qed.

Lemma dynamic_loop_cached env self repo r keywords :
  _repo (registry self) repo = Some r ->
  forall counter st counter' st',
    for_each keywords
      (fun keyword (counter : Counter) =>
         do matches <- search_code env (registry self) repo keyword 3 None;
         ret (fold_left
                (fun (counter : Counter) (m : Repo.RepoMatch) =>
                   let directory := directory_of (Repo.path m) in
                   if Py.is_empty directory then counter
                   else incr directory counter)
                matches counter)) counter st
    = (Ok counter', st') ->
    all_cached repo keywords st'
    /\ (forall queries, all_cached repo queries st ->
                        all_cached repo queries st').
Proof.
  intros Hrepo. induction keywords as [|keyword keywords IH];
    intros counter st counter' st' Hloop.
  - simpl in Hloop. unfold ret in Hloop. injection Hloop as <- <-.
    split; [by intros q ?%elem_of_nil|done].
  - cbn [for_each] in Hloop.
    apply bind_Ok in Hloop as (counter1 & st1 & Hbody & Hrest).
    apply bind_Ok in Hbody as (matches & st2 & Hsearch & Hret).
    unfold ret in Hret. injection Hret as <- <-.
    destruct (IH _ _ _ _ Hrest) as [Hrestc Hkeep].
    assert (is_Some (cache st2 !! (repo, keyword))) as Hkey.
    { pose proof (ToolsProps.search_code_stores _ _ _ _ _ _ _ _ _ _
                    Hrepo Hsearch) as Hstore.
      destruct (cache st !! (repo, keyword)) as [found|] eqn:Hc.
      - destruct Hstore as [-> _]. by rewrite Hc.
      - by rewrite Hstore. }
    split.
    + intros q [->|Hq]%elem_of_cons; [|by apply Hrestc].
      apply (Hkeep [keyword]); [|by left].
      intros q ->%list_elem_of_singleton. done.
    + intros queries Hqueries. apply Hkeep.
      pose proof (search_code_keeps_cached env (registry self) repo keyword 3
                    None st repo queries Hqueries) as Hk.
      by rewrite Hsearch in Hk.
Qed.

Lemma read_file_state env self repo path start end_ st :
  (read_file env self repo path start end_ st).2 = st.
Proof. unfold read_file. by destruct (_repo self repo). Qed.

Lemma add_matches_state env self repo allowed_dirs matches findings st :
  (add_matches env self repo allowed_dirs matches findings st).2 = st.
Proof.
  unfold add_matches. apply for_each_state_fixed. intros m acc _.
  destruct (negb _ && negb _); [done|]. unfold bind.
  pose proof (read_file_state env (registry self) repo (Repo.path m)
                (Repo.line m - 3) (Repo.line m + 3) st) as Hread.
  destruct (read_file env (registry self) repo (Repo.path m)
              (Repo.line m - 3) (Repo.line m + 3) st) as [[snippet|exc] st1];
    simpl in Hread; by subst st1.
Qed.

(** A search that finds its query in the cache, or an unknown repository,
    leaves the registry as it is. *)
Lemma search_code_cached_state env self repo query limit directories st :
  (forall r, _repo self repo = Some r ->
             is_Some (cache st !! (repo, query))) ->
  (search_code env self repo query limit directories st).2 = st.
Proof.
  intros Hcached. destruct (_repo self repo) as [r|] eqn:Hrepo.
  - destruct (Hcached r eq_refl) as [found Hfound].
    by rewrite (ToolsProps.search_code_hit _ _ _ _ _ _ _ _ _ Hrepo Hfound).
  - by rewrite ToolsProps.search_code_unknown.
Qed.

Lemma second_pass_state env self repo allowed_dirs directories keywords st :
  (forall r, _repo (registry self) repo = Some r ->
             all_cached repo keywords st) ->
  forall findings,
    (for_each keywords
       (fun keyword findings =>
          do matches <- search_code env (registry self) repo keyword 2
                          directories;
          add_matches env self repo allowed_dirs matches findings)
       findings st).2 = st.
Proof.
  intros Hcached findings. apply for_each_state_fixed.
  intros keyword acc Hk. unfold bind.
  pose proof (search_code_cached_state env (registry self) repo keyword 2
                directories st) as Hsearch.
  destruct (search_code env (registry self) repo keyword 2 directories st)
    as [[matches|exc] st1]; simpl in Hsearch.
  - rewrite Hsearch by (intros r Hr; by apply (Hcached r Hr)).
    apply add_matches_state.
  - apply Hsearch. intros r Hr. by apply (Hcached r Hr).
Qed.

Lemma resolve_hints_directories self keywords topic repo :
  match Py.dict_get repo
          (directories (_resolve_service_hints self keywords topic)) with
  | Some dirs => dirs
  | None => []
  end = [].
Proof.
  unfold _resolve_service_hints. cbn [directories].
  assert (forall (d : list (string * list string)),
            Forall (fun kv => kv.2 = []) d ->
            match Py.dict_get repo d with
            | Some dirs => dirs
            | None => []
            end = []) as Hget.
  { induction 1 as [|[k v] d Hkv Hall IH]; [done|]. simpl in *.
    by destruct (String.eqb k repo). }
  apply Hget. generalize (list_repos (registry self)).
  assert (forall l (d : list (string * list string)),
            Forall (fun kv => kv.2 = []) d ->
            Forall (fun kv => kv.2 = [])
              (fold_left (fun d repo =>
                            match Py.dict_get repo d with
                            | Some _ => d
                            | None => Py.dict_set repo [] d
                            end) l d)) as Hfold.
  { induction l as [|x l IH]; intros d Hd; [done|]. simpl. apply IH.
    destruct (Py.dict_get x d); [done|].
    clear IH. induction Hd as [|[k v] d Hkv Hall IHd]; simpl.
    - by repeat constructor.
    - destruct (String.eqb k x); constructor; done. }
  intros l. by apply Hfold.
Qed.

(** X21: with keywords, all backend searches of [gather] for a repository
    happen while the dynamic directories are computed: every keyword is then
    in the cache, and the pass over the keywords that follows is answered
    from the cache, so that it leaves the registry as the first pass left it
    and its directory filter reaches no backend.  When the first pass raises,
    so does the gathering for the repository. *)
Theorem gather_repo_second_pass_cached env self keywords topic repo findings
    st :
  keywords <> [] ->
  (forall dirs st1,
     _dynamic_directories env self repo keywords 5 st = (Ok dirs, st1) ->
     (gather_repo env self (_resolve_service_hints self keywords topic)
        keywords repo findings st).2 = st1
     /\ (forall r, _repo (registry self) repo = Some r ->
                   all_cached repo keywords st1))
  /\ (forall exc st1,
        _dynamic_directories env self repo keywords 5 st = (Raise exc, st1) ->
        gather_repo env self (_resolve_service_hints self keywords topic)
          keywords repo findings st = (Raise exc, st1)).
Proof.
  intros Hkeywords. unfold gather_repo. cbv zeta.
  rewrite resolve_hints_directories. split.
  - intros dirs st1 Hdyn.
    assert (forall r, _repo (registry self) repo = Some r ->
                      all_cached repo keywords st1) as Hcached.
    { intros r Hr. unfold _dynamic_directories in Hdyn.
      apply bind_Ok in Hdyn as (counter & st2 & Hloop & Hret).
      unfold ret in Hret. injection Hret as _ <-.
      by destruct (dynamic_loop_cached env self repo r keywords Hr _ _ _ _
                     Hloop). }
    split; [|done]. unfold bind at 1. rewrite Hdyn.
    unfold bind at 1.
    destruct keywords as [|keyword keywords]; [done|].
    pose proof (second_pass_state env self repo dirs
                  (match dirs with [] => None | _ :: _ => Some dirs end)
                  (keyword :: keywords) st1 Hcached findings) as Hpass.
    destruct (for_each (keyword :: keywords) _ findings st1)
      as [[found|exc] st2]; simpl in Hpass; subst st2; [|done].
    destruct (include_commits self); [|done].
    unfold bind, recent_commits.
    destruct (_repo (registry self) repo); [|done].
    unfold lift. by destruct (Repo.recent_commits env _ 2).
  - intros exc st1 Hdyn. unfold bind at 1. by rewrite Hdyn.
Qed.

Lemma gather_repo_second_pass_cached_witness :
  (gather_repo Examples.two_files
     {| registry := Examples.adwyze_only; include_commits := false |}
     (_resolve_service_hints
        {| registry := Examples.adwyze_only; include_commits := false |}
        ["deploy"] (Some "deploy"))
     ["deploy"] "adwyze" [] initial_state).2
  = (search_code Examples.two_files Examples.adwyze_only "adwyze" "deploy" 3
       None initial_state).2.
Proof.
  apply (proj1 (gather_repo_second_pass_cached Examples.two_files
                  {| registry := Examples.adwyze_only;
                     include_commits := false |}
                  ["deploy"] (Some "deploy") "adwyze" [] initial_state
                  ltac:(discriminate))
           ["app/a.rb"; "lib/b.rb"]).
  vm_compute. reflexivity.
Defined.

End GatherProps.

(** ** When the bot responds *)

Module RespondProps.

Import Bot PyFacts.

(** *** Substrings *)

Lemma startswith_spec p s :
  Py.startswith p s = true <-> exists post, s = p +:+ post.
Proof.
  revert s. induction p as [|c p IH]; intros s.
  - split; [by exists s|done].
  - destruct s as [|d s]; simpl.
    + split; [done|]. intros [post H]. by rewrite str_app_cons in H.
    + rewrite andb_true_iff, IH. split.
      * intros [->%Ascii.eqb_eq [post ->]]. by exists post.
      * intros [post H]. rewrite str_app_cons in H. injection H as -> ->.
        split; [apply Ascii.eqb_refl|by exists post].
Qed.

Lemma contains_spec needle s :
  contains needle s = true <-> exists pre post, s = pre +:+ needle +:+ post.
Proof.
  induction s as [|c s IH]; cbn [contains].
  - rewrite orb_false_r, startswith_spec. split.
    + intros [post H]. by exists "", post.
    + intros (pre & post & H). destruct pre; [by exists post|].
      by rewrite str_app_cons in H.
  - rewrite orb_true_iff, startswith_spec, IH. split.
    + intros [[post H]|(pre & post & ->)].
      * by exists "", post.
      * by exists (String c pre), post.
    + intros (pre & post & H). destruct pre as [|d pre].
      * left. by exists post.
      * right. rewrite str_app_cons in H. injection H as -> ->.
        by exists pre, post.
Qed.

Lemma contains_empty s : contains "" s = true.
Proof. by destruct s. Qed.

(** A text that holds a decorated token holds the token. *)
Lemma contains_inner p a q s :
  contains (p +:+ a +:+ q) s = true -> contains a s = true.
Proof.
  rewrite !contains_spec. intros (pre & post & ->).
  exists (pre +:+ p), (q +:+ post). by rewrite !str_app_assoc.
Qed.

(** *** The aliases *)

Lemma fold_append_filter {A} (c : A -> bool) (f : A -> string) l :
  forall acc,
    fold_left (fun acc x => if c x then acc ++ [f x] else acc) l acc
    = acc ++ (f <$> List.filter c l).
Proof.
  induction l as [|x l IH]; intros acc; simpl; [by rewrite app_nil_r|].
  rewrite IH. destruct (c x); [|done]. by rewrite <- (assoc_L (++)).
Qed.

Lemma dict_fromkeys_firsts l : dict_fromkeys l = Spec.firsts l.
Proof.
  unfold dict_fromkeys, Spec.firsts.
  assert (forall (d : list (string * unit)),
            (fold_left (fun d key => Py.dict_set key tt d) l d).*1
            = fold_left
                (fun acc x => if in_list x acc then acc else acc ++ [x])
                l d.*1) as H; [|apply (H [])].
  induction l as [|x l IH]; intros d; [done|]. simpl.
  by rewrite IH, RegistryProps.dict_set_keys.
Qed.

(** The aliases before duplicates are dropped. *)
Lemma bot_aliases_raw zulip_email TRIAGE_BOT_ALIASES :
  _bot_aliases zulip_email TRIAGE_BOT_ALIASES
  = Spec.firsts
      ([Py.lower (first_piece "+" (first_piece "@" zulip_email))]
         ++ ((fun sep =>
                Py.lower (first_piece sep
                            (first_piece "+" (first_piece "@" zulip_email))))
               <$> List.filter
                     (fun sep =>
                        Py.contains_char sep
                          (first_piece "+" (first_piece "@" zulip_email)))
                     ["-"; "_"; "."]%char)
         ++ ((fun token => Py.lower (Py.strip token))
               <$> List.filter
                     (fun token =>
                        negb (Py.is_empty (Py.lower (Py.strip token))))
                     (Py.split_char "," TRIAGE_BOT_ALIASES))).
Proof.
  unfold _bot_aliases. cbv zeta. rewrite dict_fromkeys_firsts. f_equal.
  rewrite (fold_append_filter
             (fun sep => Py.contains_char sep
                           (first_piece "+" (first_piece "@" zulip_email)))
             (fun sep => Py.lower (first_piece sep
                           (first_piece "+" (first_piece "@" zulip_email))))).
  assert (forall l acc,
            fold_left
              (fun aliases token =>
                 if Py.is_empty (Py.lower (Py.strip token)) then aliases
                 else aliases ++ [Py.lower (Py.strip token)]) l acc
            = acc ++ ((fun token => Py.lower (Py.strip token))
                        <$> List.filter
                              (fun token =>
                                 negb (Py.is_empty
                                         (Py.lower (Py.strip token)))) l))
    as Hextra.
  { induction l as [|x l IH]; intros acc; simpl; [by rewrite app_nil_r|].
    rewrite IH. destruct (Py.is_empty (Py.lower (Py.strip x))); [done|].
    simpl. by rewrite <- (assoc_L (++)). }
  rewrite Hextra. by rewrite <- (assoc_L (++)).
Qed.

(** X22: the list of aliases starts with the handle of the bot's address
    (the text before the first [@] and the first [+]) in lower case, has no
    duplicate, holds lower-case texts only, and holds every non-blank
    comma-separated entry of [TRIAGE_BOT_ALIASES], stripped and in lower
    case.  The empty alias is among them exactly when the handle is empty
    or starts with one of [-], [_] and [.]. *)
Theorem bot_aliases_shape zulip_email TRIAGE_BOT_ALIASES :
  (exists rest,
     _bot_aliases zulip_email TRIAGE_BOT_ALIASES
     = Py.lower (first_piece "+" (first_piece "@" zulip_email)) :: rest)
  /\ NoDup (_bot_aliases zulip_email TRIAGE_BOT_ALIASES)
  /\ Forall (fun alias => Py.lower alias = alias)
       (_bot_aliases zulip_email TRIAGE_BOT_ALIASES)
  /\ (forall token,
        token ∈ Py.split_char "," TRIAGE_BOT_ALIASES ->
        Py.strip token <> "" ->
        Py.lower (Py.strip token)
          ∈ _bot_aliases zulip_email TRIAGE_BOT_ALIASES)
  /\ ("" ∈ _bot_aliases zulip_email TRIAGE_BOT_ALIASES
      <-> first_piece "+" (first_piece "@" zulip_email) = ""
          \/ exists sep,
               sep ∈ ["-"; "_"; "."]%char
               /\ Py.contains_char sep
                    (first_piece "+" (first_piece "@" zulip_email)) = true
               /\ first_piece sep
                    (first_piece "+" (first_piece "@" zulip_email)) = "").
Proof.
  rewrite bot_aliases_raw.
  set (handle := first_piece "+" (first_piece "@" zulip_email)).
  split; [|split; [|split; [|split]]].
  - unfold Spec.firsts. cbn [app fold_left in_list existsb].
    destruct (KeywordProps.fold_firsts_prefix
                (((fun sep => Py.lower (first_piece sep handle))
                    <$> List.filter (fun sep => Py.contains_char sep handle)
                          ["-"; "_"; "."]%char)
                   ++ ((fun token => Py.lower (Py.strip token))
                         <$> List.filter
                               (fun token =>
                                  negb (Py.is_empty
                                          (Py.lower (Py.strip token))))
                               (Py.split_char "," TRIAGE_BOT_ALIASES)))
                [Py.lower handle]) as [rest ->].
    by exists rest.
  - apply KeywordProps.NoDup_firsts.
  - apply Forall_forall. intros alias Halias.
    apply (proj1 (KeywordProps.elem_of_firsts _ _)) in Halias.
    rewrite !elem_of_app, list_elem_of_singleton, !list_elem_of_fmap in Halias.
    destruct Halias as [->|[(sep & -> & _)|(token & -> & _)]];
      apply LowerProps.lower_idemp.
  - intros token Htoken Hne.
    apply KeywordProps.elem_of_firsts.
    rewrite !elem_of_app, !list_elem_of_fmap. right. right.
    exists token. split; [done|].
    apply list_elem_of_In, filter_In. split; [by apply list_elem_of_In|].
    apply negb_true_iff, is_empty_false. by rewrite LowerProps.lower_empty.
  - rewrite KeywordProps.elem_of_firsts.
    rewrite !elem_of_app, list_elem_of_singleton, !list_elem_of_fmap. split.
    + intros [Hh|[(sep & Hs & Hin)|(token & Ht & Hin)]].
      * left. symmetry in Hh. by apply (proj1 (LowerProps.lower_empty _)) in Hh.
      * right. symmetry in Hs. apply (proj1 (LowerProps.lower_empty _)) in Hs.
        apply list_elem_of_In, filter_In in Hin as [Hin Hc].
        apply list_elem_of_In in Hin. by exists sep.
      * apply list_elem_of_In, filter_In in Hin as [_ Hin].
        apply negb_true_iff, is_empty_false in Hin. by rewrite <- Ht in Hin.
    + intros [Hh|(sep & Hin & Hc & Hs)].
      * left. by rewrite Hh.
      * right. left. exists sep. split; [by rewrite Hs|].
        apply list_elem_of_In, filter_In. split; [by apply list_elem_of_In|done].
Qed.

(** *** The decision *)

Lemma mention_tokens_any aliases content :
  existsb (fun token => contains token content) (mention_tokens aliases)
  = existsb (fun alias => contains alias content) aliases
    || contains "triage" content.
Proof.
  unfold mention_tokens. rewrite existsb_app. cbn [existsb].
  rewrite orb_false_r. f_equal.
  induction aliases as [|alias aliases IH]; [done|].
  rewrite bind_cons, existsb_app, IH. cbn [existsb]. f_equal.
  rewrite orb_false_r.
  destruct (contains alias content) eqn:Halias; [done|]. cbn [orb].
  assert (forall p q, contains (p +:+ alias +:+ q) content = false) as Hnone.
  { intros p q. destruct (contains (p +:+ alias +:+ q) content) eqn:Hc;
      [|done].
    apply contains_inner in Hc. congruence. }
  rewrite <- (str_app_nil_r alias) at 1. rewrite (Hnone "@" "").
  rewrite (Hnone "@**" "**").
  rewrite <- (str_app_nil_r alias). by rewrite (Hnone "@_" "").
Qed.

(** X23: the bot responds to a message exactly when it is private, carries
    one of the flags [mentioned] and [mentioned-inline], or holds, letter
    case apart, the word [triage] or one of the aliases; the decorated forms
    of an alias add nothing.  With the empty alias among the aliases the bot
    responds to every message. *)
Theorem should_respond_iff zulip_email TRIAGE_BOT_ALIASES incoming
    plain_content :
  (_should_respond zulip_email TRIAGE_BOT_ALIASES incoming plain_content = true
   <-> Zulip.type (message incoming) = "private"
       \/ "mentioned" ∈ flags incoming
       \/ "mentioned-inline" ∈ flags incoming
       \/ contains "triage" (Py.lower plain_content) = true
       \/ exists alias,
            alias ∈ _bot_aliases zulip_email TRIAGE_BOT_ALIASES
            /\ contains alias (Py.lower plain_content) = true)
  /\ ("" ∈ _bot_aliases zulip_email TRIAGE_BOT_ALIASES ->
      _should_respond zulip_email TRIAGE_BOT_ALIASES incoming plain_content
      = true).
Proof.
  assert (_should_respond zulip_email TRIAGE_BOT_ALIASES incoming
            plain_content = true
          <-> Zulip.type (message incoming) = "private"
              \/ "mentioned" ∈ flags incoming
              \/ "mentioned-inline" ∈ flags incoming
              \/ contains "triage" (Py.lower plain_content) = true
              \/ exists alias,
                   alias ∈ _bot_aliases zulip_email TRIAGE_BOT_ALIASES
                   /\ contains alias (Py.lower plain_content) = true) as Hiff.
  { unfold _should_respond. cbv zeta. rewrite mention_tokens_any.
    destruct (String.eqb (Zulip.type (message incoming)) "private") eqn:Htype.
    { apply String.eqb_eq in Htype. split; [by left|done]. }
    apply String.eqb_neq in Htype.
    destruct (in_list "mentioned" (flags incoming)) eqn:Hm;
      [apply KeywordProps.in_list_elem_of in Hm; cbn [orb];
       split; [by right; left|done]|].
    destruct (in_list "mentioned-inline" (flags incoming)) eqn:Hmi;
      [apply KeywordProps.in_list_elem_of in Hmi; cbn [orb];
       split; [by right; right; left|done]|].
    apply KeywordProps.in_list_false in Hm, Hmi. cbn [orb].
    rewrite orb_true_iff, existsb_exists. split.
    - intros [(alias & Hin & Halias)|Htriage].
      + do 4 right. exists alias. split; [by apply list_elem_of_In|done].
      + do 3 right. by left.
    - intros [?|[?|[?|[Htriage|(alias & Hin & Halias)]]]]; try done.
      + by right.
      + left. exists alias. split; [by apply list_elem_of_In|done]. }
  split; [done|]. intros Hempty. apply Hiff. do 4 right.
  exists "". split; [done|apply contains_empty].
Qed.

End RespondProps.

(** ** Handling a message *)

Module HandlerProps.

Import Bot Notions.

Section WithApp.

Variable charref_sub : string -> string.
Variable decode_utf8 : string -> string.
Variable app : Main.App.
Variable TRIAGE_BOT_ALIASES : string.

Lemma handles_refl message st : handles app message st st.
Proof.
  exists [], []. rewrite !app_nil_r. split; [done|]. split; [done|].
  split; [simpl; lia|]. split; [simpl; lia|].
  split; [by intros ? ?%elem_of_nil|].
  split; [by intros ? ?%elem_of_nil|done].
Qed.

Lemma handles_send message content st :
  handles app message st (send app message content st).
Proof.
  exists [Zulip.reply_request (Main.zulip_client app) message content], [].
  rewrite app_nil_r. simpl. split; [done|]. split; [done|].
  split; [lia|]. split; [lia|]. split; [|split].
  - intros request ->%list_elem_of_singleton. by exists content.
  - by intros ? ?%elem_of_nil.
  - done.
Qed.

Lemma handles_submit message request notice st :
  handles app message st (submit app message request notice st).
Proof.
  unfold submit.
  destruct (State.get_or_create request
              (Main.incident_store (app_state st))) as [incident store] eqn:Hget.
  pose proof (StateProps.get_or_create_lookup request
                (Main.incident_store (app_state st))) as Hfind.
  rewrite Hget in Hfind. simpl in Hfind.
  exists (match notice with
          | Some content =>
              [Zulip.reply_request (Main.zulip_client app) message content]
          | None => []
          end),
    [mkTask message request incident].
  destruct notice as [content|]; simpl;
    (split; [by rewrite ?app_nil_r|]); (split; [done|]);
    (split; [lia|]); (split; [lia|]); (split; [|split; [|done]]).
  - intros q ->%list_elem_of_singleton. by exists content.
  - by intros task ->%list_elem_of_singleton.
  - by intros ? ?%elem_of_nil.
  - by intros task ->%list_elem_of_singleton.
Qed.

(** Handling a state that differs in the tool registry only. *)
Lemma handles_tool_state message st tool_state' st' :
  handles app message
    {| app_state :=
         {| Main.tool_state := tool_state';
            Main.incident_store := Main.incident_store (app_state st);
            Main.sent := Main.sent (app_state st) |};
       submitted := submitted st |} st' ->
  handles app message st st'.
Proof. done. Qed.

Lemma handle_command_effects command remainder message stream topic
    thread_lines st :
  handles app message st
    (_handle_command app command remainder message stream topic thread_lines
       st).2
  /\ (forall exc,
        (_handle_command app command remainder message stream topic
           thread_lines st).1 = Raise exc ->
        quiet st
          (_handle_command app command remainder message stream topic
             thread_lines st).2)
  /\ ((_handle_command app command remainder message stream topic
         thread_lines st).1 = Ok false ->
      (_handle_command app command remainder message stream topic
         thread_lines st).2 = st).
Proof.
  unfold _handle_command. cbv zeta.
  case_bool_decide as Hstatus.
  { destruct (_ ≫= _) as [record|];
      [destruct (Py.truthy (State.last_summary record))|];
      (split; [apply handles_send|by split]). }
  case_bool_decide as Hrerun.
  { destruct (if negb (Py.is_empty remainder) then _ else _) as [request|];
      (split; [first [apply handles_submit|apply handles_send]|by split]). }
  case_bool_decide as Hproduct; [|split; [apply handles_refl|by split]].
  destruct (Py.is_empty (Py.strip remainder));
    [split; [apply handles_send|by split]|].
  destruct (_answer_product_query _ _ _ _ _) as [[reply|exc] tool_state'].
  - split; [|by split].
    apply (handles_tool_state message st tool_state'), handles_send.
  - split; [by apply (handles_tool_state message st tool_state'),
               handles_refl|].
    split; [|done]. intros exc' _. by repeat split.
Qed.

(** X24: handling an incoming message sends at most one reply, which
    answers this message, and submits at most one triage task, which is for
    this message and for the record filed under the channel and topic of its
    request; the incident store changes by [get_or_create] only: it is left
    as it is when no task is submitted, and otherwise it is the store that
    [get_or_create] gives for the request of the task.  The bot's
    own messages and the messages it should not respond to change nothing;
    a [ping] gets the online reply and nothing more; and when the handling
    raises, nothing was sent, submitted or stored. *)
Theorem handler_effects incoming st :
  handles app (message incoming) st
    (handle_incoming_message charref_sub decode_utf8 app TRIAGE_BOT_ALIASES
       incoming st).2
  /\ (Zulip.msg_sender_email (message incoming)
        = Some (Zulip.zulip_email (Main.zulip_client app))
      \/ _should_respond (Zulip.zulip_email (Main.zulip_client app))
           TRIAGE_BOT_ALIASES incoming
           (Main._plain_text charref_sub
              (Some (Zulip.msg_content (message incoming)))) = false ->
      handle_incoming_message charref_sub decode_utf8 app TRIAGE_BOT_ALIASES
        incoming st = (Ok tt, st))
  /\ (Zulip.msg_sender_email (message incoming)
        <> Some (Zulip.zulip_email (Main.zulip_client app)) ->
      _should_respond (Zulip.zulip_email (Main.zulip_client app))
        TRIAGE_BOT_ALIASES incoming
        (Main._plain_text charref_sub
           (Some (Zulip.msg_content (message incoming)))) = true ->
      Py.lower (Py.strip (Main._plain_text charref_sub
                            (Some (Zulip.msg_content (message incoming)))))
        = "ping" ->
      handle_incoming_message charref_sub decode_utf8 app TRIAGE_BOT_ALIASES
        incoming st
      = (Ok tt, send app (message incoming) "triage bot is online :rocket:" st))
  /\ (forall exc,
        (handle_incoming_message charref_sub decode_utf8 app
           TRIAGE_BOT_ALIASES incoming st).1 = Raise exc ->
        quiet st
          (handle_incoming_message charref_sub decode_utf8 app
             TRIAGE_BOT_ALIASES incoming st).2).
Proof.
  unfold handle_incoming_message. cbv zeta.
  case_bool_decide as Hown.
  { split; [apply handles_refl|]. split; [done|]. split; [done|]. done. }
  destruct (_should_respond _ _ _ _) eqn:Hrespond; cbn [negb].
  2:{ split; [apply handles_refl|]. split; [done|]. split; [done|]. done. }
  destruct (Main._extract_command _) as [command remainder].
  destruct (match Main._extract_thread_reference _ _ _ with
            | Some _ => _
            | None => _
            end) as [fetch_stream fetch_topic].
  destruct (String.eqb _ "ping") eqn:Hping.
  { split; [apply handles_send|]. split; [by intros [?|?]|].
    split; [done|]. done. }
  apply String.eqb_neq in Hping.
  assert (forall (P : Prop), (Py.lower _ = "ping" -> P)) as Hnoping
    by (intros P Heq; by rewrite Heq in Hping).
  destruct (Py.truthy command).
  - pose proof (handle_command_effects command remainder (message incoming)
                  (match Zulip.display_recipient (message incoming) with
                   | Zulip.ToChannel name => Some name
                   | Zulip.ToUsers _ => None
                   end)
                  (Some (Zulip.subject (message incoming)))
                  (Main.thread_context_of charref_sub (Main.zulip_client app)
                     fetch_stream fetch_topic) st)
      as (Hhandles & Hraise & Hfalse).
    destruct (_handle_command _ _ _ _ _ _ _ _) as [[[|]|exc] st1];
      simpl in *.
    + split; [done|]. split; [by intros [?|?]|]. split; [|done].
      intros _ _. apply Hnoping.
    + rewrite (Hfalse eq_refl).
      split; [apply handles_submit|]. split; [by intros [?|?]|].
      split; [|done]. intros _ _. apply Hnoping.
    + split; [done|]. split; [by intros [?|?]|]. split.
      * intros _ _. apply Hnoping.
      * intros exc' _. by apply (Hraise exc).
  - split; [apply handles_submit|]. split; [by intros [?|?]|].
    split; [|done]. intros _ _. apply Hnoping.
Qed.

End WithApp.

End HandlerProps.

(** ** Commands after a triage *)

Module CommandsAfterTriage.

Import Bot Notions.

Lemma run_summary_nonempty env KEYWORD_LIMIT self request st summary st' :
  Triage.run env KEYWORD_LIMIT self request st = (Ok summary, st') ->
  summary <> "".
Proof.
  unfold Triage.run, Tools.bind.
  destruct (Triage.gather _ _ _ _ _) as [[tool_results|exc] st1]; [|done].
  destruct (LLM.enabled (Triage.llm_agent self)).
  - unfold Tools.lift.
    destruct (LLM.run _ _ _) as [llm_summary|exc]; simpl; [|done].
    destruct (Py.truthy llm_summary) eqn:Htruthy.
    + apply TriageProps.truthy_nonempty in Htruthy as (s & -> & Hs).
      unfold Tools.ret. by intros [= <- <-].
    + unfold Tools.lift. intros [= H <-].
      by apply TriageProps.analyze_nonempty in H.
  - simpl. unfold Tools.lift. intros [= H <-].
    by apply TriageProps.analyze_nonempty in H.
Qed.

Section WithApp.

Variable app : Main.App.

(** X25: once the triage task of a request has run on the record filed
    under the channel and topic of the request, the reply it sent carries a
    summary that is not empty; from then on the [status] command on that
    channel and topic answers with this summary, and the [rerun] command
    without further text submits the same request again, for the same
    record. *)
Theorem commands_after_triage message request incident record st tasks :
  State.find (stream request) (topic request) (Main.incident_store st)
    = Some incident ->
  State.objects (Main.incident_store st) !! incident = Some record ->
  exists summary,
    summary <> ""
    /\ Main.sent (Main._run_triage_and_reply app message request incident st).2
       = Main.sent st
           ++ [Zulip.reply_request (Main.zulip_client app) message summary]
    /\ (forall message' remainder thread_lines,
          _handle_command app (Some "status") remainder message'
            (stream request) (topic request) thread_lines
            {| app_state :=
                 (Main._run_triage_and_reply app message request incident
                    st).2;
               submitted := tasks |}
          = (Ok true,
             send app message'
               ("Latest triage summary:" +:+ NL +:+ NL +:+ summary)
               {| app_state :=
                    (Main._run_triage_and_reply app message request incident
                       st).2;
                  submitted := tasks |}))
    /\ (forall message' thread_lines,
          exists st',
            _handle_command app (Some "rerun") "" message'
              (stream request) (topic request) thread_lines
              {| app_state :=
                   (Main._run_triage_and_reply app message request incident
                      st).2;
                 submitted := tasks |}
            = (Ok true, st')
            /\ submitted st' = tasks ++ [mkTask message' request incident]
            /\ Main.incident_store (app_state st')
               = Main.incident_store
                   (Main._run_triage_and_reply app message request incident
                      st).2).
Proof.
  intros Hfind Hrecord. unfold Main._run_triage_and_reply.
  destruct (Triage.run _ _ _ _ _) as [ran tool_state'] eqn:Hrun.
  set (summary := match ran with
                  | Ok summary => summary
                  | Raise exc => (Main.FAILURE_PREFIX +:+ exc)%string
                  end).
  assert (summary <> "") as Hsummary.
  { subst summary. destruct ran as [text|exc]; [|done].
    by apply run_summary_nonempty in Hrun. }
  exists summary. split; [done|]. cbn [Zulip.send_reply snd Main.sent].
  split; [done|].
  set (store' := State.update_at incident summary request
                   (Main.incident_store st)).
  assert (State.find (stream request) (topic request) store' = Some incident)
    as Hfind' by done.
  assert (State.objects store' !! incident
          = Some (State.update summary request record)) as Hrecord'.
  { subst store'. unfold State.update_at. cbn [State.objects].
    by rewrite list_lookup_alter_eq, Hrecord. }
  split.
  - intros message' remainder thread_lines. unfold _handle_command.
    cbn [app_state Main.incident_store]. cbv zeta.
    rewrite bool_decide_eq_true_2 by done.
    fold store'. rewrite Hfind'. cbn [mbind option_bind].
    rewrite Hrecord'. cbn [State.update State.last_summary Py.truthy].
    destruct summary; [done|]. done.
  - intros message' thread_lines. unfold _handle_command.
    cbn [app_state Main.incident_store]. cbv zeta.
    rewrite bool_decide_eq_false_2 by done.
    rewrite bool_decide_eq_true_2 by done.
    fold store'. rewrite Hfind'. cbn [mbind option_bind Py.is_empty negb].
    rewrite Hrecord'. cbn [State.update State.last_request].
    eexists. split; [reflexivity|]. unfold submit.
    cbn [app_state Main.incident_store]. fold store'.
    rewrite (StateProps.get_or_create_present request store' incident Hfind').
    by split.
Qed.

End WithApp.

Lemma commands_after_triage_witness :
  exists summary,
    _handle_command Examples.app_rg_crashes (Some "status") ""
      Examples.deploy_message (Some "ops") (Some "deploy") []
      {| app_state :=
           (Main._run_triage_and_reply Examples.app_rg_crashes
              Examples.deploy_message Examples.deploy_request 0
              Examples.fresh_state).2;
         submitted := [] |}
    = (Ok true,
       send Examples.app_rg_crashes Examples.deploy_message
         ("Latest triage summary:" +:+ NL +:+ NL +:+ summary)
         {| app_state :=
              (Main._run_triage_and_reply Examples.app_rg_crashes
                 Examples.deploy_message Examples.deploy_request 0
                 Examples.fresh_state).2;
            submitted := [] |}).
Proof.
  destruct (commands_after_triage Examples.app_rg_crashes
              Examples.deploy_message
              Examples.deploy_request 0
              (State.mkIncidentRecord (Some "ops") (Some "deploy") None None [])
              Examples.fresh_state [] eq_refl eq_refl)
    as (summary & _ & _ & Hstatus & _).
  exists summary. apply (Hstatus Examples.deploy_message "" []).
Defined.


End CommandsAfterTriage.

(** ** Product snippets *)

Module ProductProps.

Import Tools Bot Notions PyFacts.

Section WithRegistry.

Variable env : Repo.Env.
Variable tool_registry : ToolRegistry.

Lemma add_hits_shape repo max_results matches :
  repo ∈ list_repos tool_registry ->
  forall hits st hits' returned st',
    Forall (doc_hit tool_registry) hits ->
    length hits < Z.to_nat (Z.max 1 max_results) ->
    add_hits env tool_registry repo max_results matches hits st
      = (Ok (hits', returned), st') ->
    Forall (doc_hit tool_registry) hits'
    /\ length hits' <= Z.to_nat (Z.max 1 max_results)
    /\ (returned = false -> length hits' < Z.to_nat (Z.max 1 max_results)).
Proof.
  intros Hrepo. induction matches as [|m matches IH];
    intros hits st hits' returned st' Hall Hlen; cbn [add_hits].
  - unfold ret. intros [= <- <- <-]. split; [done|]. split; [lia|done].
  - cbv zeta.
    destruct (existsb (fun keyword => contains keyword (Py.lower (Repo.path m)))
                DOC_PATH_KEYWORDS) eqn:Hdoc; cbn [negb]; [|by apply IH].
    intros Hrun. apply GatherProps.bind_Ok in Hrun as (snippet & st1 & _ & Hrun).
    set (text := Py.strip (if Py.truthy snippet then Py.format_opt snippet
                           else Repo.preview m)) in Hrun.
    destruct (Py.is_empty text) eqn:Hempty; [by eapply (IH hits st1)|].
    apply is_empty_false in Hempty.
    assert (Forall (doc_hit tool_registry)
              (hits ++ [(repo, Repo.path m, Repo.line m, text)])) as Hall'.
    { apply Forall_app. split; [done|]. constructor; [|done].
      split; [done|]. split; [done|]. split; [done|]. apply strip_idemp. }
    destruct (max_results <=? _)%Z eqn:Hle.
    + unfold ret in Hrun. injection Hrun as <- <- <-.
      split; [done|]. rewrite length_app. simpl. split; [lia|done].
    + apply Z.leb_gt in Hle. rewrite length_app in Hle. simpl in Hle.
      eapply (IH _ st1); [done| |done]. rewrite length_app. simpl. lia.
Qed.

Lemma gather_hits_shape query max_results repos :
  (forall repo, repo ∈ repos -> repo ∈ list_repos tool_registry) ->
  forall hits st hits' st',
    Forall (doc_hit tool_registry) hits ->
    length hits < Z.to_nat (Z.max 1 max_results) ->
    gather_hits env tool_registry query max_results repos hits st
      = (Ok hits', st') ->
    Forall (doc_hit tool_registry) hits'
    /\ length hits' <= Z.to_nat (Z.max 1 max_results).
Proof.
  induction repos as [|repo repos IH]; intros Hrepos hits st hits' st' Hall Hlen;
    cbn [gather_hits].
  - unfold ret. intros [= <- <-]. split; [done|lia].
  - intros Hrun.
    apply GatherProps.bind_Ok in Hrun as (matches & st1 & _ & Hrun).
    apply GatherProps.bind_Ok in Hrun as ([hits1 returned] & st2 & Hadd & Hrun).
    apply add_hits_shape in Hadd as (Hall1 & Hlen1 & Hmore);
      [|apply Hrepos; by left|done|done].
    cbn [fst snd] in Hrun. destruct returned.
    + unfold ret in Hrun. by injection Hrun as <- <-.
    + eapply (IH (fun repo' H => Hrepos repo' (list_elem_of_further _ _ _ H))
               hits1 st2); [done|by apply Hmore|done].
Qed.

(** X26: [_gather_product_snippets] returns at most [max_results] snippets
    (one when [max_results] is below 1); each comes from a repository of the
    registry and from a path that holds one of the documentation keywords,
    letter case apart, and its text is stripped and not empty.  When no
    snippet is found, the answer to the product query is the sentence that
    names the query. *)
Theorem product_snippets_shape query max_results st :
  (forall hits st',
     _gather_product_snippets env tool_registry query max_results st
       = (Ok hits, st') ->
     length hits <= Z.to_nat (Z.max 1 max_results)
     /\ Forall (doc_hit tool_registry) hits)
  /\ (forall st',
        _gather_product_snippets env tool_registry query max_results st
          = (Ok [], st') ->
        _answer_product_query env tool_registry query max_results st
        = (Ok ("I couldn't find any product docs mentioning " +:+ LDQUO
                 +:+ query +:+ RDQUO +:+ ". "
                 +:+ "Try refining the query or share more context so I can point you to the right runbook."),
           st'))
  /\ (forall exc st',
        _gather_product_snippets env tool_registry query max_results st
          = (Raise exc, st') ->
        _answer_product_query env tool_registry query max_results st
        = (Raise exc, st')).
Proof.
  split; [|split].
  - intros hits st' Hrun. unfold _gather_product_snippets in Hrun.
    apply gather_hits_shape in Hrun as [Hall Hlen];
      [done|done|done|simpl; lia].
  - intros st' Hrun. unfold _answer_product_query, bind. by rewrite Hrun.
  - intros exc st' Hrun. unfold _answer_product_query, bind. by rewrite Hrun.
Qed.

End WithRegistry.

End ProductProps.

(** ** The polling loop *)

Module PollerProps.

Import Poller Notions.

Section WithHandler.

Variable Message World : Type.
Variable handler : Message -> World -> option Raised * World.
Variable get_events :
  string -> Z -> World -> (Raised + option (list (Event Message))) * World.

Lemma all_return_nil w : all_return handler [] w.
Proof. by intros j event m H. Qed.

Lemma all_return_skip event events w :
  Poller.type event <> Some "message" ->
  all_return handler events w ->
  all_return handler (event :: events) w.
Proof.
  intros Htype Hall [|j] ev m Hj Ht Hm; simpl in Hj.
  - congruence.
  - cbn [take]. unfold deliver. cbn [foldl].
    rewrite bool_decide_eq_false_2 by done. by apply (Hall j ev m).
Qed.

Lemma all_return_message event m events w :
  Poller.type event = Some "message" ->
  Poller.message event = Some m ->
  (handler m w).1 = None ->
  all_return handler events (handler m w).2 ->
  all_return handler (event :: events) w.
Proof.
  intros Htype Hmsg Hret Hall [|j] ev m' Hj Ht Hm; simpl in Hj.
  - injection Hj as <-. cbn [take]. unfold deliver. cbn [foldl]. congruence.
  - cbn [take]. unfold deliver. cbn [foldl].
    rewrite bool_decide_eq_true_2 by done. rewrite Hmsg.
    by apply (Hall j ev m').
Qed.

Lemma for_events_split events : forall last_event_id w,
  forallb well_formed events = true ->
  exists reached rest,
    events = reached ++ rest
    /\ (for_events handler events last_event_id w).1.2
       = last_id reached last_event_id
    /\ (for_events handler events last_event_id w).2
       = deliver handler reached w
    /\ (((for_events handler events last_event_id w).1.1 = None
         /\ rest = [] /\ all_return handler reached w)
        \/ exists pre event m exc,
             reached = pre ++ [event]
             /\ Poller.type event = Some "message"
             /\ Poller.message event = Some m
             /\ all_return handler pre w
             /\ handler m (deliver handler pre w)
                = (Some exc, deliver handler reached w)
             /\ (for_events handler events last_event_id w).1.1 = Some exc).
Proof.
  induction events as [|event events IH]; intros last_event_id w Hwf.
  - exists [], []. split; [done|]. split; [done|]. split; [done|]. left.
    split; [done|]. split; [done|]. apply all_return_nil.
  - cbn [forallb] in Hwf. apply andb_true_iff in Hwf as [Hev Hwf].
    unfold well_formed in Hev. apply andb_true_iff in Hev as [Hid Hmsg].
    apply bool_decide_eq_true in Hid as [i Hid].
    cbn [for_events]. rewrite Hid.
    destruct (bool_decide (Poller.type event = Some "message")) eqn:Htype.
    + apply bool_decide_eq_true in Htype.
      cbn [negb orb] in Hmsg. apply bool_decide_eq_true in Hmsg as [m Hm].
      rewrite Hm. destruct (handler m w) as [[exc|] w'] eqn:Hh.
      * exists [event], events. split; [done|].
        assert (deliver handler [event] w = w') as Hdel.
        { unfold deliver. cbn [foldl].
          rewrite bool_decide_eq_true_2 by done. by rewrite Hm, Hh. }
        split; [by unfold last_id; cbn [foldl]; rewrite Hid|].
        split; [done|]. right. exists [], event, m, exc.
        split; [done|]. split; [done|]. split; [done|].
        split; [apply all_return_nil|]. split; [|done].
        rewrite Hdel. done.
      * destruct (IH (Some i) w' Hwf)
          as (reached & rest & -> & Hlast & Hw & Hcases).
        assert (forall l, deliver handler (event :: l) w
                          = deliver handler l w') as Hdel.
        { intros l. unfold deliver. cbn [foldl].
          rewrite bool_decide_eq_true_2 by done. by rewrite Hm, Hh. }
        assert (forall l, all_return handler l w' ->
                          all_return handler (event :: l) w) as Hall.
        { intros l H. apply (all_return_message event m); [done|done| |];
            by rewrite Hh. }
        exists (event :: reached), rest. split; [done|].
        split; [by rewrite Hlast; unfold last_id; cbn [foldl]; rewrite Hid|].
        split; [by rewrite Hw, Hdel|].
        destruct Hcases as [(Hr & -> & Hret)
                           |(pre & ev & m' & exc & -> & Ht & Hm' & Hret & Hh' & Hr)].
        -- left. split; [done|]. split; [done|]. by apply Hall.
        -- right. exists (event :: pre), ev, m', exc.
           split; [done|]. split; [done|]. split; [done|].
           split; [by apply Hall|]. split; [|done].
           rewrite Hdel. change ((event :: pre) ++ [ev])
             with (event :: (pre ++ [ev])). by rewrite Hdel.
    + apply bool_decide_eq_false in Htype.
      destruct (IH (Some i) w Hwf)
        as (reached & rest & -> & Hlast & Hw & Hcases).
      assert (forall l, deliver handler (event :: l) w
                        = deliver handler l w) as Hdel.
      { intros l. unfold deliver. cbn [foldl].
        by rewrite bool_decide_eq_false_2. }
      exists (event :: reached), rest. split; [done|].
      split; [by rewrite Hlast; unfold last_id; cbn [foldl]; rewrite Hid|].
      split; [by rewrite Hw, Hdel|].
      destruct Hcases as [(Hr & -> & Hret)
                         |(pre & ev & m' & exc & -> & Ht & Hm' & Hret & Hh' & Hr)].
      * left. split; [done|]. split; [done|]. by apply all_return_skip.
      * right. exists (event :: pre), ev, m', exc.
        split; [done|]. split; [done|]. split; [done|].
        split; [by apply all_return_skip|]. split; [|done].
        rewrite Hdel. change ((event :: pre) ++ [ev])
          with (event :: (pre ++ [ev])). by rewrite Hdel.
Qed.

(** X27: one pass of the polling loop over a batch of well-formed events.
    The events are taken in their order up to the first message whose
    handler raises: the handler is given the message of every message
    event reached and of no other, [last_event_id] becomes the id of the
    last event reached, the failing one included, and the events after it
    are left.  The loop keeps its queue unless what was raised is a
    [ZulipError]. *)
Theorem poll_pass_batch queue_id last_event_id w events w1 :
  poll_events get_events queue_id last_event_id w = (inr (Some events), w1) ->
  forallb well_formed events = true ->
  exists reached rest,
    events = reached ++ rest
    /\ (poll_pass handler get_events queue_id last_event_id w).1.2
       = last_id reached last_event_id
    /\ (poll_pass handler get_events queue_id last_event_id w).2
       = deliver handler reached w1
    /\ ((rest = [] /\ all_return handler reached w1
         /\ (poll_pass handler get_events queue_id last_event_id w).1.1
            = KeepPolling)
        \/ exists pre event m exc,
             reached = pre ++ [event]
             /\ Poller.type event = Some "message"
             /\ Poller.message event = Some m
             /\ all_return handler pre w1
             /\ handler m (deliver handler pre w1)
                = (Some exc, deliver handler reached w1)
             /\ (poll_pass handler get_events queue_id last_event_id w).1.1
                = match exc with
                  | ZulipError _ => Reregister
                  | OtherError _ => KeepPolling
                  end).
Proof.
  intros Hpoll Hwf. unfold poll_pass. rewrite Hpoll. cbn [from_option]. unfold Datatypes.id.
  destruct (for_events_split events last_event_id w1 Hwf)
    as (reached & rest & Hsplit & Hlast & Hw & Hcases).
  exists reached, rest. split; [done|].
  destruct (for_events handler events last_event_id w1) as [[raised last'] w2].
  cbn [fst snd] in *. split; [done|]. split; [done|].
  destruct Hcases as [(-> & -> & Hret)
                     |(pre & ev & m & exc & Hr & Ht & Hm & Hret & Hh & ->)].
  - by left.
  - right. exists pre, ev, m, exc. by destruct exc.
Qed.

End WithHandler.

(** A batch of three events whose second message makes the handler
    raise. *)
Lemma poll_pass_batch_witness :
  exists reached rest,
    Examples.poll_batch = reached ++ rest
    /\ (poll_pass Examples.poll_handler Examples.poll_get_events "queue"
          (Some 6%Z) []).1.2
       = last_id reached (Some 6%Z)
    /\ (poll_pass Examples.poll_handler Examples.poll_get_events "queue"
          (Some 6%Z) []).2
       = deliver Examples.poll_handler reached []
    /\ ((rest = [] /\ all_return Examples.poll_handler reached []
         /\ (poll_pass Examples.poll_handler Examples.poll_get_events "queue"
               (Some 6%Z) []).1.1
            = KeepPolling)
        \/ exists pre event m exc,
             reached = pre ++ [event]
             /\ Poller.type event = Some "message"
             /\ Poller.message event = Some m
             /\ all_return Examples.poll_handler pre []
             /\ Examples.poll_handler m (deliver Examples.poll_handler pre [])
                = (Some exc, deliver Examples.poll_handler reached [])
             /\ (poll_pass Examples.poll_handler Examples.poll_get_events
                   "queue" (Some 6%Z) []).1.1
                = match exc with
                  | ZulipError _ => Reregister
                  | OtherError _ => KeepPolling
                  end).
Proof.
  exact (poll_pass_batch string (list string) Examples.poll_handler
           Examples.poll_get_events "queue" (Some 6%Z) [] Examples.poll_batch
           [] eq_refl eq_refl).
Defined.

End PollerProps.

(** ** The login of the Codex CLI *)

Module LoginProps.

Import Login Notions.

Section WithShell.

Variable subprocess_run : list Call -> Call -> Run.
Variable cli_path node_path api_key : option string.

Lemma status_zero (result : Run) :
  match result with
  | RunCompleted returncode _ _ => (returncode =? 0)%Z
  | _ => false
  end = true
  <-> returned_zero result.
Proof.
  unfold returned_zero. destruct result as [| |rc out err].
  - split; [done|]. by intros (? & ? & ?).
  - split; [done|]. by intros (? & ? & ?).
  - split.
    + intros ->%Z.eqb_eq. by exists out, err.
    + by intros (? & ? & [= -> _ _]).
Qed.

Lemma answered_zero_at calls script k call :
  script !! k = Some call ->
  answered_zero subprocess_run calls script k
  <-> returned_zero (subprocess_run (calls ++ take k script) call).
Proof.
  intros Hk. unfold answered_zero. split.
  - intros (call' & Hk' & H). congruence.
  - intros H. by exists call.
Qed.

(** X28: the processes [LLMAgent.__init__] starts to set [logged_in] are
    the first [n] calls of the login script, in its order: the version of
    node, the version of the CLI, the login status, the login with the API
    key on the standard input, the login status again.  None is started
    unless node and the CLI were both found; each call after the first is
    started exactly when the one before it was and was answered as the
    code needs it: the two versions and the login with code 0, the first
    login status not with code 0 and with an API key set.  [logged_in]
    holds exactly when the last process started is a login status that
    completed with code 0. *)
Theorem login_calls calls :
  exists n,
    (__init__logged_in subprocess_run cli_path node_path api_key calls).2
    = calls ++ take n (login_script cli_path node_path api_key)
    /\ n <= 5
    /\ (0 < n <-> Py.truthy cli_path = true /\ Py.truthy node_path = true)
    /\ (1 < n <->
        0 < n
        /\ answered_zero subprocess_run calls
             (login_script cli_path node_path api_key) 0)
    /\ (2 < n <->
        1 < n
        /\ answered_zero subprocess_run calls
             (login_script cli_path node_path api_key) 1)
    /\ (3 < n <->
        2 < n
        /\ ~ answered_zero subprocess_run calls
               (login_script cli_path node_path api_key) 2
        /\ Py.truthy api_key = true)
    /\ (4 < n <->
        3 < n
        /\ answered_zero subprocess_run calls
             (login_script cli_path node_path api_key) 3)
    /\ ((__init__logged_in subprocess_run cli_path node_path api_key calls).1
        = true
        <-> (n = 3
             /\ answered_zero subprocess_run calls
                  (login_script cli_path node_path api_key) 2)
            \/ (n = 5
                /\ answered_zero subprocess_run calls
                     (login_script cli_path node_path api_key) 4)).
Proof.
  unfold __init__logged_in.
  destruct (Py.truthy cli_path && Py.truthy node_path) eqn:Hpaths.
  2:{ apply andb_false_iff in Hpaths.
      exists 0. cbn [take]. rewrite app_nil_r. split; [done|].
      split; [lia|]. split; [split; [lia|intros [? ?]; destruct Hpaths; congruence]|].
      repeat (split; [split; [lia|intros [? _]; lia]|]).
      split; [done|]. intros [[? _]|[? _]]; lia. }
  apply andb_true_iff in Hpaths as [Hcli Hnode].
  destruct cli_path as [cli|]; [|done]. destruct node_path as [node|]; [|done].
  unfold _ensure_login, _check_login, _run_command, run. rewrite Hcli.
  csimpl. unfold login_script. cbn [from_option]. unfold Datatypes.id.
  set (c1 := mkCall [node; "--version"] None).
  set (c2 := mkCall [cli; "--version"] None).
  set (c3 := mkCall [cli; "login"; "status"] None).
  set (c4 := mkCall [cli; "login"; "--with-api-key"]
               (Some (from_option (fun key => key) "" api_key +:+ NL))).
  set (script := [c1; c2; c3; c4; c3]).
  rewrite <- ?(app_assoc calls). cbn [app].
  pose proof (answered_zero_at calls script 0 c1 eq_refl) as A0.
  pose proof (answered_zero_at calls script 1 c2 eq_refl) as A1.
  pose proof (answered_zero_at calls script 2 c3 eq_refl) as A2.
  pose proof (answered_zero_at calls script 3 c4 eq_refl) as A3.
  pose proof (answered_zero_at calls script 4 c3 eq_refl) as A4.
  cbn [take script] in A0, A1, A2, A3, A4. rewrite app_nil_r in A0.
  pose proof (status_zero (subprocess_run calls c1)) as Z0.
  pose proof (status_zero (subprocess_run (calls ++ [c1]) c2)) as Z1.
  pose proof (status_zero (subprocess_run (calls ++ [c1; c2]) c3)) as Z2.
  pose proof (status_zero (subprocess_run (calls ++ [c1; c2; c3; c4]) c3))
    as Z4.
  assert (Py.truthy (Some cli) = true /\ Py.truthy (Some node) = true)
    as Hfound by done.
  destruct (match subprocess_run calls c1 with
            | RunCompleted returncode _ _ => (returncode =? 0)%Z
            | _ => false
            end) eqn:H1; cbn [negb].
  2:{ exists 1. split; [done|]. clear Z1 Z2 Z4.
      assert (~ returned_zero (subprocess_run calls c1)) as N0
        by (rewrite <- Z0; congruence).
      intuition lia. }
  destruct (match subprocess_run (calls ++ [c1]) c2 with
            | RunCompleted returncode _ _ => (returncode =? 0)%Z
            | _ => false
            end) eqn:H2; cbn [negb].
  2:{ exists 2. split; [done|]. clear Z2 Z4.
      assert (~ returned_zero (subprocess_run (calls ++ [c1]) c2)) as N1
        by (rewrite <- Z1; congruence).
      intuition lia. }
  destruct (match subprocess_run (calls ++ [c1; c2]) c3 with
            | RunCompleted returncode _ _ => (returncode =? 0)%Z
            | _ => false
            end) eqn:H3.
  { exists 3. split; [done|]. cbn [fst]. clear Z4. intuition lia. }
  assert (~ returned_zero (subprocess_run (calls ++ [c1; c2]) c3)) as N2
    by (rewrite <- Z2; congruence).
  assert (forall result : list Call,
            ((false, result) : bool * list Call).1 = true <-> False) as Hfalse
    by (intros result; cbn [fst]; split; [discriminate|done]).
  subst c4.
  destruct api_key as [key|]; cbn [from_option] in *.
  2:{ exists 3. split; [done|]. rewrite Hfalse. clear Z4.
      assert (Py.truthy None <> true) by done. intuition lia. }
  set (c4 := mkCall [cli; "login"; "--with-api-key"] (Some (key +:+ NL))) in *.
  destruct (Py.is_empty key) eqn:Hkey.
  { exists 3. split; [done|]. rewrite Hfalse. clear Z4.
    assert (Py.truthy (Some key) <> true)
      by (unfold Py.truthy; rewrite Hkey; done).
    intuition lia. }
  assert (Py.truthy (Some key) = true) as Htruthy
    by (unfold Py.truthy; by rewrite Hkey).
  destruct (subprocess_run (calls ++ [c1; c2; c3]) c4)
    as [| |rc4 out4 err4] eqn:H4;
    rewrite <- ?(app_assoc calls); cbn [app].
  1,2: exists 4; split; [done|]; rewrite Hfalse; clear Z4;
       assert (~ answered_zero subprocess_run calls script 3)
         as N3 by (rewrite A3; by intros (? & ? & ?));
       clear A3; intuition lia.
  destruct (rc4 =? 0)%Z eqn:Hrc4; cbn [negb].
  2:{ exists 4. split; [done|]. rewrite Hfalse. clear Z4.
      assert (~ answered_zero subprocess_run calls script 3) as N3.
      { rewrite A3. intros (? & ? & [= -> _ _]). done. }
      clear A3. intuition lia. }
  apply Z.eqb_eq in Hrc4 as ->.
  assert (answered_zero subprocess_run calls script 3) as P3
    by (rewrite A3; by exists out4, err4).
  clear A3.
  rewrite <- ?(app_assoc calls). cbn [app].
  exists 5. split; [done|]. cbn [fst]. intuition lia.
Qed.

End WithShell.

End LoginProps.
